(** * CommitWatch: change detection and commit prioritisation

    A shallow embedding of the polling engine of the CommitWatch browser
    extension: the commit classifier ([modules/commit-analysis.js]), the
    change detector and sweep ([modules/commit-monitoring.js]), the
    rate-limit aware API client ([github-api.js], [gitlab-api.js]), the
    repository directory ([repositories.js]) and the notification history
    ([notifications.js]).

    Further on come the cached fetch, the cached repository lists, the
    release monitor ([release-monitoring.js]), the check of the GitHub
    inbox, the badge and the logout actions of the message handler.

    JavaScript values are typed here: a property that may be [undefined]
    or [null] is an [option], an [async] function that may throw returns
    an [outcome], and module-level [let] variables are fields of an
    explicit state record. Strings are held as their UTF-8 bytes. *)

From Stdlib Require Import Ascii String ZArith QArith Qround List Bool Lia.
From Stdlib Require Import DecimalString.
From stdpp Require Import base option list sorting strings gmap.

Local Open Scope Z_scope.

(** ** JavaScript primitives *)

Module JS.

(** Truthiness of a string, of a number and of a possibly missing value. *)
Definition truthy_string (s : string) : bool :=
  match s with EmptyString => false | String _ _ => true end.

Definition truthy_num (n : Z) : bool := negb (n =? 0).

Definition truthy_opt {A} (t : A -> bool) (o : option A) : bool :=
  match o with Some a => t a | None => false end.

(** [a || b] on possibly missing values. *)
Definition or_else {A} (t : A -> bool) (a b : option A) : option A :=
  if truthy_opt t a then a else b.

(** [x || 0] on a possibly missing number. *)
Definition or_zero (o : option Z) : Z :=
  match o with Some n => n | None => 0 end.

(** [x || d] on a possibly missing string, [d] a non-empty literal. *)
Definition or_default (o : option string) (d : string) : string :=
  match o with
  | Some s => if truthy_string s then s else d
  | None => d
  end.

(** [a === b] on possibly missing strings ([undefined === undefined]). *)
Definition strict_eq (a b : option string) : bool :=
  bool_decide (a = b).

(** The letters A-Z in lower case: what the [i] flag of a regular
    expression without the [u] flag folds, under which a character
    outside ASCII never matches an ASCII one. *)
Definition lower (c : ascii) : ascii :=
  let n := nat_of_ascii c in
  if ((65 <=? n) && (n <=? 90))%nat then ascii_of_nat (n + 32) else c.

(** [String.prototype.toLowerCase], on a string held as its UTF-8 bytes.
    Besides A-Z it turns two characters into ASCII letters: the Kelvin
    sign U+212A (bytes E2 84 AA) becomes k, and U+0130 (bytes C4 B0)
    becomes i followed by U+0307 (bytes CC 87). The other letters
    outside ASCII, which it maps to characters outside ASCII, are left
    as they are; whether an ASCII keyword occurs in the result does not
    depend on them. *)
Fixpoint toLowerCase (s : string) : string :=
  match s with
  | EmptyString => EmptyString
  | String c s' =>
      let plain := String (lower c) (toLowerCase s') in
      match s' with
      | EmptyString => plain
      | String c1 s1 =>
          if Ascii.eqb c "196" && Ascii.eqb c1 "176"
          then String "i" (String "204" (String "135" (toLowerCase s1)))
          else
            match s1 with
            | EmptyString => plain
            | String c2 s2 =>
                if Ascii.eqb c "226" && Ascii.eqb c1 "132" && Ascii.eqb c2 "170"
                then String "k" (toLowerCase s2)
                else plain
            end
      end
  end.

(** [s.includes(k)] *)
Fixpoint includes (s k : string) : bool :=
  String.prefix k s ||
  match s with
  | EmptyString => false
  | String _ s' => includes s' k
  end.

(** [a < b] on numbers that are not [NaN] *)
Definition num_lt (a b : Q) : bool := negb (Qle_bool b a).

(** [l.slice(i, j)] for [0 <= i <= j] *)
Definition slice {A} (i j : nat) (l : list A) : list A :=
  firstn (j - i) (skipn i l).

(** Template literal of a non-negative integer. *)
Definition decimal (n : nat) : string :=
  NilEmpty.string_of_uint (Nat.to_uint n).

End JS.

(** ** The regular expressions of the classifier

    The source only uses literals, alternation, [?] and the anchors
    [^] and [$], always with the [i] flag and never with [g] or [m]. *)

Module Regex.

Inductive re : Type :=
| Lit (s : string)
| Seq (r1 r2 : re)
| Alt (r1 r2 : re)
| Opt (r : re).

Record pattern : Type :=
  { anchored_start : bool; body : re; anchored_end : bool }.

(** [/r/i], [/^r/i], [/r$/i] and [/^r$/i] *)
Definition Contains (r : re) : pattern := Build_pattern false r false.
Definition StartsWith (r : re) : pattern := Build_pattern true r false.
Definition EndsWith (r : re) : pattern := Build_pattern false r true.
Definition Whole (r : re) : pattern := Build_pattern true r true.

(** [(a|b|...)] *)
Fixpoint oneOf (a : string) (rest : list string) : re :=
  match rest with
  | [] => Lit a
  | b :: rest' => Alt (Lit a) (oneOf b rest')
  end.

(** The input left over once literal [l] is read off the front of
    [s], letters compared without case. *)
Fixpoint eat (l s : string) : option string :=
  match l, s with
  | EmptyString, _ => Some s
  | String _ _, EmptyString => None
  | String a l', String b s' =>
      if Ascii.eqb (JS.lower a) (JS.lower b) then eat l' s' else None
  end.

(** Every way [r] can match a prefix of [s], given by what is left. *)
Fixpoint step (r : re) (s : string) : list string :=
  match r with
  | Lit l => match eat l s with Some s' => [s'] | None => [] end
  | Seq r1 r2 => flat_map (step r2) (step r1 s)
  | Alt r1 r2 => step r1 s ++ step r2 s
  | Opt r1 => step r1 s ++ [s]
  end.

Definition is_empty (s : string) : bool :=
  match s with EmptyString => true | _ => false end.

Definition match_here (p : pattern) (s : string) : bool :=
  existsb (fun rest => if anchored_end p then is_empty rest else true)
          (step (body p) s).

Fixpoint match_anywhere (p : pattern) (s : string) : bool :=
  match_here p s ||
  match s with
  | EmptyString => false
  | String _ s' => match_anywhere p s'
  end.

(** [pattern.test(s)] *)
Definition test (p : pattern) (s : string) : bool :=
  if anchored_start p then match_here p s else match_anywhere p s.

(** [patterns.some(pattern => pattern.test(s))] *)
Definition some_test (ps : list pattern) (s : string) : bool :=
  existsb (fun p => test p s) ps.

End Regex.

(** ** Canonical records *)

(** An entry of [commit.files]. *)
Record file : Type :=
  { filename : string;
    additions : option Z;
    deletions : option Z;
    changes : option Z }.

(** [commit.stats] *)
Record stats : Type :=
  { stats_additions : option Z;
    stats_deletions : option Z }.

(** [userData], [gitlabUserData] and [commit.author] *)
Record user : Type := { login : option string }.

(** A commit in the shape of the GitHub API, to which GitLab commits are
    normalised. [message] is [commit.commit.message], [author_name] is
    [commit.commit.author.name] and [parents] holds the parents' shas. *)
Record commit : Type :=
  { sha : string;
    message : string;
    author_name : option string;
    author : option user;
    html_url : option string;
    parents : option (list string);
    files : option (list file);
    commit_stats : option stats }.

(** A repository as cached by the directory; GitLab projects are
    normalised to the same shape. *)
Record repo : Type :=
  { full_name : string;
    default_branch : string;
    platform : option string;
    fork : bool }.

Inductive priority : Type := high | medium | low.

#[global] Instance priority_eq_dec : EqDecision priority.
Proof. solve_decision. Defined.

(** ** Commit analysis ([modules/commit-analysis.js]) *)

Module CommitAnalysis.
Import Regex.

Inductive kind : Type :=
  merge | docs | config | ci | tests | localization | code.

#[global] Instance kind_eq_dec : EqDecision kind.
Proof. solve_decision. Defined.

Definition ends (s : string) : pattern := EndsWith (Lit s).
Definition starts (s : string) : pattern := StartsWith (Lit s).
Definition whole (s : string) : pattern := Whole (Lit s).
Definition has (s : string) : pattern := Contains (Lit s).

(** [dirs?\/] *)
Definition plural_dir (stem : string) : re :=
  Seq (Lit stem) (Seq (Opt (Lit "s")) (Lit "/")).

Definition docs_patterns : list pattern :=
  [ ends ".md"; ends ".mdx"; ends ".adoc"; ends ".rst"; ends ".txt";
    starts "docs/"; starts "documentation/";
    starts ".github/ISSUE_TEMPLATE"; starts ".github/PULL_REQUEST_TEMPLATE";
    starts "README"; starts "CHANGELOG"; starts "CONTRIBUTING";
    starts "AUTHORS"; starts "CREDITS"; starts "LICENSE"; starts "COPYING";
    starts "man/"; ends ".1"; starts "wiki/" ].

Definition config_patterns : list pattern :=
  [ ends "package.json"; ends "package-lock.json"; ends "yarn.lock";
    ends "pnpm-lock.yaml"; ends "composer.json"; has "Gemfile";
    ends "requirements.txt"; has "Pipfile"; ends "poetry.lock";
    ends "Cargo.toml"; ends "go.mod"; ends ".env.example";
    ends ".editorconfig"; ends ".gitignore"; ends ".gitattributes";
    ends ".npmrc";
    Contains (Seq (Lit ".") (oneOf "eslintrc" ["prettierrc"]));
    ends "tsconfig.json"; ends "jsconfig.json" ].

Definition ci_patterns : list pattern :=
  [ starts ".github/workflows/"; whole ".gitlab-ci.yml";
    whole ".travis.yml"; whole "Jenkinsfile"; starts ".circleci/";
    whole "azure-pipelines.yml"; whole "Dockerfile";
    starts "docker-compose"; whole ".dockerignore" ].

Definition source_ext : re :=
  oneOf "js" ["ts"; "jsx"; "tsx"; "py"; "rb"; "go"; "rs"].

Definition tests_patterns : list pattern :=
  [ EndsWith (Seq (Lit ".") (Seq (oneOf "test" ["spec"])
                                 (Seq (Lit ".") source_ext)));
    StartsWith (plural_dir "test"); starts "__tests__/"; starts "spec/";
    ends ".test" ].

Definition localization_patterns : list pattern :=
  [ StartsWith (plural_dir "locale"); starts "i18n/"; starts "lang/";
    EndsWith (Seq (Lit ".") (oneOf "po" ["pot"; "mo"]));
    StartsWith (plural_dir "translation") ].

(** [Object.entries(filePatterns)], in insertion order. *)
Definition filePatterns : list (kind * list pattern) :=
  [ (docs, docs_patterns); (config, config_patterns); (ci, ci_patterns);
    (tests, tests_patterns); (localization, localization_patterns) ].

(** The [categories] counters. *)
Record counts : Type :=
  { n_docs : nat; n_config : nat; n_ci : nat;
    n_tests : nat; n_localization : nat; n_code : nat }.

Definition no_counts : counts := Build_counts 0 0 0 0 0 0.

(** [categories[category]++] *)
Definition bump (k : kind) (c : counts) : counts :=
  match k with
  | docs => Build_counts (S (n_docs c)) (n_config c) (n_ci c) (n_tests c) (n_localization c) (n_code c)
  | config => Build_counts (n_docs c) (S (n_config c)) (n_ci c) (n_tests c) (n_localization c) (n_code c)
  | ci => Build_counts (n_docs c) (n_config c) (S (n_ci c)) (n_tests c) (n_localization c) (n_code c)
  | tests => Build_counts (n_docs c) (n_config c) (n_ci c) (S (n_tests c)) (n_localization c) (n_code c)
  | localization => Build_counts (n_docs c) (n_config c) (n_ci c) (n_tests c) (S (n_localization c)) (n_code c)
  | merge | code => Build_counts (n_docs c) (n_config c) (n_ci c) (n_tests c) (n_localization c) (S (n_code c))
  end.

(** The inner loop over the families: the first family with a matching
    pattern, [code] when the loop ends with [categorized] still false. *)
Fixpoint first_family (fams : list (kind * list pattern)) (name : string) : kind :=
  match fams with
  | [] => code
  | (k, ps) :: fams' =>
      if some_test ps name then k else first_family fams' name
  end.

Definition categorize (name : string) : kind := first_family filePatterns name.

(** The outer loop [for (const file of commit.files)]. *)
Definition count_files (fs : list file) : counts :=
  fold_left (fun c f => bump (categorize (filename f)) c) fs no_counts.

Inductive details : Type :=
| ParentCount (parentCount : nat)
| FileCount (fileCount : nat)
| CodeDetails (fileCount : nat) (categories : counts) (adds dels : Z)
| NoDetails.

(** [details.additions] and [details.deletions] *)
Definition details_additions (d : details) : option Z :=
  match d with CodeDetails _ _ a _ => Some a | _ => None end.
Definition details_deletions (d : details) : option Z :=
  match d with CodeDetails _ _ _ b => Some b | _ => None end.

Record analysis : Type := { type : kind; info : details }.

(** [commit.stats?.additions || 0] *)
Definition stat (get : stats -> option Z) (c : commit) : Z :=
  JS.or_zero (commit_stats c ≫= get).

(** [commit.parents && commit.parents.length >= 2] *)
Definition merge_parents (c : commit) : option nat :=
  match parents c with
  | Some ps => if (2 <=? length ps)%nat then Some (length ps) else None
  | None => None
  end.

Definition analyzeCommitType (c : commit) : analysis :=
  match merge_parents c with
  | Some parentCount => {| type := merge; info := ParentCount parentCount |}
  | None =>
    match files c with
    | Some ((_ :: _) as fs) =>
        let categories := count_files fs in
        let totalFiles := length fs in
        if (n_docs categories =? totalFiles)%nat
        then {| type := docs; info := FileCount totalFiles |}
        else if (n_config categories =? totalFiles)%nat
        then {| type := config; info := FileCount totalFiles |}
        else if (n_ci categories =? totalFiles)%nat
        then {| type := ci; info := FileCount totalFiles |}
        else if (n_tests categories =? totalFiles)%nat
        then {| type := tests; info := FileCount totalFiles |}
        else if (n_localization categories =? totalFiles)%nat
        then {| type := localization; info := FileCount totalFiles |}
        else {| type := code;
                info := CodeDetails totalFiles categories
                          (stat stats_additions c) (stat stats_deletions c) |}
    | _ => {| type := code; info := NoDetails |}
    end
  end.

(** *** Critical files *)

Inductive critical_category : Type := security | core | database | api | build.

Record critical_pattern : Type :=
  { pat : pattern; category : critical_category; weight : Z }.

Definition crit (p : pattern) (c : critical_category) (w : Z) : critical_pattern :=
  {| pat := p; category := c; weight := w |}.

(** [^(src\/)?name\.(js|ts|jsx|tsx|py|rb|go|rs)$] *)
Definition entrypoint (name : string) : pattern :=
  Whole (Seq (Opt (Lit "src/")) (Seq (Lit name) (Seq (Lit ".") source_ext))).

Definition criticalPatterns : list critical_pattern :=
  [ crit (has "auth") security 3; crit (has "security") security 3;
    crit (has "login") security 3; crit (has "password") security 3;
    crit (has "token") security 3; crit (has "session") security 2;
    crit (has "crypto") security 3; crit (has "encrypt") security 3;
    crit (entrypoint "index") core 2; crit (entrypoint "main") core 2;
    crit (entrypoint "app") core 2; crit (entrypoint "server") core 2;
    crit (has "kernel") core 3; crit (has "engine") core 2;
    crit (has "migration") database 2; crit (has "schema") database 2;
    crit (has "database") database 2;
    crit (Contains (plural_dir "model")) database 2;
    crit (has "api/") api 1; crit (Contains (plural_dir "route")) api 1;
    crit (Contains (plural_dir "controller")) api 1;
    crit (Contains (plural_dir "endpoint")) api 1;
    crit (has "webpack") build 2; crit (has "vite.config") build 2;
    crit (has "rollup") build 2; crit (has "babel") build 1 ].

Record critical_file : Type :=
  { cf_filename : string;
    cf_category : critical_category;
    cf_weight : Z;
    cf_changes : Z;
    cf_additions : Z;
    cf_deletions : Z }.

(** The result of [analyzeCriticalFiles]; the early return leaves
    [maxWeight] and [isHighPriority] undefined. *)
Record critical_analysis : Type :=
  { hasCritical : bool;
    criticalFiles : list critical_file;
    maxWeight : option Z;
    isHighPriority : option bool }.

(** The inner loop: the first pattern that matches, if any. *)
Definition first_critical (name : string) : option critical_pattern :=
  List.find (fun cp => test (pat cp) name) criticalPatterns.

(** One turn of [for (const file of files)] on the pair
    [(criticalFiles, maxWeight)]. *)
Definition scan_file (acc : list critical_file * Z) (f : file) : list critical_file * Z :=
  match first_critical (filename f) with
  | Some cp =>
      (acc.1 ++ [ {| cf_filename := filename f;
                     cf_category := category cp;
                     cf_weight := weight cp;
                     cf_changes := JS.or_zero (changes f);
                     cf_additions := JS.or_zero (additions f);
                     cf_deletions := JS.or_zero (deletions f) |} ],
       Z.max acc.2 (weight cp))
  | None => acc
  end.

Definition analyzeCriticalFiles (files : option (list file)) : critical_analysis :=
  match files with
  | Some ((_ :: _) as fs) =>
      let '(criticalFiles, maxWeight) := fold_left scan_file fs ([], 0) in
      {| hasCritical := (0 <? length criticalFiles)%nat;
         criticalFiles := criticalFiles;
         maxWeight := Some maxWeight;
         isHighPriority :=
           Some ((3 <=? maxWeight) || (3 <=? length criticalFiles)%nat) |}
  | _ =>
      {| hasCritical := false; criticalFiles := [];
         maxWeight := None; isHighPriority := None |}
  end.

(** *** Priority *)

(** [modules/constants.js] *)
Definition HIGH_PRIORITY_KEYWORDS : list string :=
  ["fix"; "hotfix"; "breaking"; "critical"; "urgent"; "security"].

Definition lowKeywords : list string :=
  ["format"; "formatting"; "style"; "chore"; "refactor"; "rename"].

(** The callback of [hasLargeDeletions]:
    [deletions > 100 && additions < deletions * 0.3], the product taken
    over the rationals. The line counts are integers, for which the
    double-precision product decides the comparison the same way. *)
Definition large_deletion (f : file) : bool :=
  let deletions := JS.or_zero (deletions f) in
  let additions := JS.or_zero (additions f) in
  (100 <? deletions) && JS.num_lt (inject_Z additions) (inject_Z deletions * (3 # 10)).

Definition hasLargeDeletions (fs : list file) : bool := existsb large_deletion fs.

(** [for (const keyword of keywords) if (message.includes(keyword)) ...] *)
Definition mentions (keywords : list string) (message : string) : bool :=
  existsb (JS.includes message) keywords.

Definition classifyCommitPriority (c : commit) (r : repo) (userData : option user) : priority :=
  let '{| type := type; info := details |} := analyzeCommitType c in
  if bool_decide (type ∈ [merge; docs; config; ci; localization]) then low
  else if bool_decide (type = tests) then medium
  else
    let message := JS.toLowerCase (message c) in
    let criticalAnalysis := analyzeCriticalFiles (files c) in
    if JS.truthy_opt id (isHighPriority criticalAnalysis) then high
    else
      let dangerous :=
        match files c with
        | Some ((_ :: _) as fs) =>
            if hasLargeDeletions fs then Some high
            else if hasCritical criticalAnalysis &&
                    (2 <=? length (criticalFiles criticalAnalysis))%nat
            then Some high
            else None
        | _ => None
        end in
      match dangerous with
      | Some p => p
      | None =>
        if mentions HIGH_PRIORITY_KEYWORDS message then high
        else if hasCritical criticalAnalysis then medium
        else
          let large :=
            if JS.truthy_opt JS.truthy_num (details_additions details) ||
               JS.truthy_opt JS.truthy_num (details_deletions details)
            then
              let totalChanges :=
                JS.or_zero (details_additions details) +
                JS.or_zero (details_deletions details) in
              if 500 <? totalChanges then Some medium
              else if 2000 <? totalChanges then Some medium
              else None
            else None in
          match large with
          | Some p => p
          | None => if mentions lowKeywords message then low else medium
          end
      end.

(** The families with a pattern that matches a file name, in the order
    of [filePatterns]. *)
Definition matching_families (name : string) : list kind :=
  map fst (List.filter (fun fam => some_test fam.2 name) filePatterns).

(** The files counted by [categories], over all six counters. *)
Definition counted (c : counts) : nat :=
  (n_docs c + n_config c + n_ci c + n_tests c + n_localization c + n_code c)%nat.

End CommitAnalysis.

(** ** Exceptions

    An [async] function either returns or throws; [try]/[catch] is
    [catch]. *)

Inductive error : Type :=
| NotAuthenticated          (* 'Not authenticated', 'Not authenticated to GitLab' *)
| RateLimited (retryAfterMinutes : Z)
                            (* 'Rate limit exceeded. Resets in N minutes.' *)
| NetworkFailure            (* fetch() rejected *)
| BadBody                   (* response.json() rejected, or not the expected shape *)
| Failed (what : string) (status : Z).
                            (* 'Failed to fetch ...: <status>' *)

Inductive outcome (A : Type) : Type :=
| Returned (a : A)
| Threw (e : error).

Arguments Returned {A} a.
Arguments Threw {A} e.

Definition bind {A B} (m : outcome A) (k : A -> outcome B) : outcome B :=
  match m with
  | Returned a => k a
  | Threw e => Threw e
  end.

Definition catch {A} (m : outcome A) (handler : error -> outcome A) : outcome A :=
  match m with
  | Returned a => Returned a
  | Threw e => handler e
  end.

Notation "'await' x <- m ; k" := (bind m (fun x => k))
  (at level 10, x name, m at level 100, k at level 200,
   format "'[v' 'await'  x  <-  m ; '/' k ']'").

(** [Promise.all(promises)]: the results in order, or the first rejection. *)
Fixpoint Promise_all {A} (ps : list (outcome A)) : outcome (list A) :=
  match ps with
  | [] => Returned []
  | p :: ps' =>
      match p, Promise_all ps' with
      | Threw e, _ => Threw e
      | Returned _, Threw e => Threw e
      | Returned a, Returned l => Returned (a :: l)
      end
  end.

(** ** HTTP responses *)

(** A GitLab commit and a GitLab diff entry, before normalisation. *)
Record gitlab_commit : Type :=
  { gl_id : string;
    gl_message : string;
    gl_author_name : option string;
    gl_web_url : option string;
    gl_parent_ids : option (list string) }.

Record gitlab_diff : Type :=
  { new_path : string; old_path : string; diff : option string }.

(** A GitLab project as the API lists it; [forked_from_project] tells
    whether the property is there. *)
Record gitlab_project : Type :=
  { path_with_namespace : string;
    project_default_branch : option string;
    forked_from_project : bool }.

(** The decoded body of a response, at the type its endpoint documents;
    [Other] is any other body. The decoders of the model throw [BadBody]
    on a body of another type than the one asked for, where the code
    goes on with whatever the body holds: the statements that depend on
    the difference are made for answers in type, or for the failures the
    code does catch. *)
Inductive payload : Type :=
| Commits (cs : list commit)
| OneCommit (c : commit)
| GitLabCommits (cs : list gitlab_commit)
| Diffs (ds : list gitlab_diff)
| Repos (rs : list repo)
| Projects (ps : list gitlab_project)
| Other.

(** The rate-limit headers, [None] when [headers.get] gives [null]. *)
Record headers : Type :=
  { h_remaining : option string; h_reset : option string; h_limit : option string }.

Record response : Type :=
  { ok : bool;
    status : Z;
    response_headers : headers;
    json : outcome payload }.

(** ** API clients ([github-api.js], [gitlab-api.js]) *)

Module Api.

(** What differs between [fetchGitHub] and [fetchGitLab]. *)
Record platform_api : Type :=
  { API_BASE : string; defaultLimit : string }.

Definition github : platform_api :=
  {| API_BASE := "https://api.github.com"; defaultLimit := "5000" |}.
Definition gitlab : platform_api :=
  {| API_BASE := "https://gitlab.com/api/v4"; defaultLimit := "2000" |}.

(** [{ remaining, reset, limit }] as stored for the popup; a number is
    [None] when it is [NaN]. *)
Record rate_limit : Type :=
  { remaining : option Z; reset : option Z; limit : option Z }.

(** The module-level counters and what the client leaves behind: the
    stored telemetry and the urls handed to [fetch]. *)
Record client : Type :=
  { rateLimitRemaining : option Z;
    rateLimitReset : option Z;
    stored : option rate_limit;
    calls : list string }.

Definition initial (limit : Z) : client :=
  {| rateLimitRemaining := Some limit; rateLimitReset := None;
     stored := None; calls := [] |}.

(** [a <= b] with a possibly [NaN] left operand. *)
Definition num_le (a : option Z) (b : Z) : bool :=
  match a with Some n => n <=? b | None => false end.

Section Client.

(** The environment: [parseInt], and what [fetch] does for a url. *)
Variable parseInt : string -> option Z.
Variable fetch : string -> outcome response.

(** [parseInt(headers.get(name) || fallback)] *)
Definition header_int (h : option string) (fallback : string) : option Z :=
  parseInt (JS.or_default h fallback).

(** [token] is what the platform's [getAccessToken] resolves to and
    [now] is [Date.now()], in milliseconds since the epoch. The request
    options only add headers and are left out. *)
Definition fetchApi (p : platform_api) (token : option string) (now : N)
    (endpoint : string) (st : client) : outcome response * client :=
  if negb (JS.truthy_opt JS.truthy_string token) then (Threw NotAuthenticated, st)
  else
    let limited :=
      if num_le (rateLimitRemaining st) 10 &&
         JS.truthy_opt JS.truthy_num (rateLimitReset st)
      then
        let now := (inject_Z (Z.of_N now) / 1000)%Q in
        let rateLimitReset := inject_Z (JS.or_zero (rateLimitReset st)) in
        if JS.num_lt now rateLimitReset
        then Some (Qceiling ((rateLimitReset - now) / 60)%Q)
        else None
      else None in
    match limited with
    | Some waitTime => (Threw (RateLimited waitTime), st)
    | None =>
        let url :=
          if String.prefix "http" endpoint then endpoint
          else API_BASE p +:+ endpoint in
        let st := {| rateLimitRemaining := rateLimitRemaining st;
                     rateLimitReset := rateLimitReset st;
                     stored := stored st;
                     calls := calls st ++ [url] |} in
        match fetch url with
        | Threw e => (Threw e, st)
        | Returned response =>
            let h := response_headers response in
            let remaining := header_int (h_remaining h) (defaultLimit p) in
            let reset := header_int (h_reset h) "0" in
            (Returned response,
             {| rateLimitRemaining := remaining;
                rateLimitReset := reset;
                stored := Some {| remaining := remaining; reset := reset;
                                  limit := header_int (h_limit h) (defaultLimit p) |};
                calls := calls st |})
        end
    end.

Definition fetchGitHub := fetchApi github.
Definition fetchGitLab := fetchApi gitlab.

End Client.

End Api.

(** ** Settings ([settings.js]) *)

Record settings : Type :=
  { checkInterval : Z;
    ignoreForks : bool;
    ignoreOwnCommits : bool;
    enabledRepos : gmap string bool;
    notificationsEnabled : bool;
    releaseNotificationsEnabled : bool }.

(** ** Repository directory ([repositories.js]) *)

Module Repositories.

(** The variables of the two pagination loops, and the endpoints
    requested so far. *)
Record paging : Type :=
  { repos : list repo; page : nat; hasMore : bool; requested : list string }.

Section Paging.

(** What the two loops differ in: the client, the endpoint of a page,
    how a body is read, what is kept of a page, and the error message. *)
Variable item : Type.
Variable fetchPage : string -> outcome response.
Variable endpoint_of : nat -> string.
Variable read : response -> outcome (list item).
Variable keep : list item -> list repo.
Variable failure : string.

(** [while (hasMore) { ... if (page > 50) break; }]; [None] when the
    fuel runs out before the loop ends. *)
Fixpoint paginate (fuel : nat) (st : paging)
    : option (outcome (list repo) * list string) :=
  if negb (hasMore st) then Some (Returned (repos st), requested st)
  else
    match fuel with
    | O => None
    | S fuel' =>
        let endpoint := endpoint_of (page st) in
        let requested := requested st ++ [endpoint] in
        match fetchPage endpoint with
        | Threw e => Some (Threw e, requested)
        | Returned response =>
            if negb (ok response)
            then Some (Threw (Failed failure (status response)), requested)
            else
              match read response with
              | Threw e => Some (Threw e, requested)
              | Returned pageRepos =>
                  let st' :=
                    if (length pageRepos =? 0)%nat
                    then {| repos := repos st; page := page st;
                            hasMore := false; requested := requested |}
                    else {| repos := repos st ++ keep pageRepos;
                            page := S (page st);
                            hasMore := true; requested := requested |} in
                  if (50 <? page st')%nat
                  then Some (Returned (repos st'), requested)
                  else paginate fuel' st'
              end
        end
    end.

(** No page the loop reads holds more than [n] items. *)
Definition pages_within (n : nat) : Prop :=
  forall page resp items,
    fetchPage (endpoint_of page) = Returned resp -> ok resp = true ->
    read resp = Returned items -> (length items <= n)%nat.

End Paging.

(** [let page = 1; let hasMore = true] and an empty list. *)
Definition first_page : paging :=
  {| repos := []; page := 1; hasMore := true; requested := [] |}.

Definition repos_endpoint (page : nat) : string :=
  "/user/repos?affiliation=owner,collaborator,organization_member&per_page=100&page="
    +:+ JS.decimal page.

Definition projects_endpoint (page : nat) : string :=
  "/projects?membership=true&per_page=100&page=" +:+ JS.decimal page.

(** [await response.json()] read as an array of repositories, of projects. *)
Definition json_repos (r : response) : outcome (list repo) :=
  await body <- json r;
  match body with
  | Repos rs => Returned rs
  | _ => Threw BadBody
  end.

Definition json_projects (r : response) : outcome (list gitlab_project) :=
  await body <- json r;
  match body with
  | Projects ps => Returned ps
  | _ => Threw BadBody
  end.

(** The server keeps to the page size: the body of a page that is [ok]
    and can be read is a list of at most [n] repositories, of at most
    [n] projects. *)
Definition repository_pages (fetchGitHub : string -> outcome response) (n : nat) : Prop :=
  forall page resp body,
    fetchGitHub (repos_endpoint page) = Returned resp -> ok resp = true ->
    json resp = Returned body ->
    exists rs, body = Repos rs /\ (length rs <= n)%nat.

Definition project_pages (fetchGitLab : string -> outcome response) (n : nat) : Prop :=
  forall page resp body,
    fetchGitLab (projects_endpoint page) = Returned resp -> ok resp = true ->
    json resp = Returned body ->
    exists ps, body = Projects ps /\ (length ps <= n)%nat.

(** [filter(repo => !settings.ignoreForks || !repo.fork)
       .map(repo => ({ ...repo, platform: 'github' }))] *)
Definition keep_repos (s : settings) (pageRepos : list repo) : list repo :=
  map (fun r => {| full_name := full_name r;
                   default_branch := default_branch r;
                   platform := Some "github";
                   fork := fork r |})
      (filter (fun r => negb (ignoreForks s) || negb (fork r) = true) pageRepos).

(** The fields of [normalizeGitLabProject(project)] the engine reads. *)
Definition normalizeGitLabProject (project : gitlab_project) : repo :=
  {| full_name := path_with_namespace project;
     default_branch := JS.or_default (project_default_branch project) "main";
     platform := Some "gitlab";
     fork := forked_from_project project |}.

(** [filter(project => !settings.ignoreForks || !project.forked_from_project)
       .map(project => normalizeGitLabProject(project))] *)
Definition keep_projects (s : settings) (pageProjects : list gitlab_project) : list repo :=
  map normalizeGitLabProject
      (filter (fun project =>
                 negb (ignoreForks s) || negb (forked_from_project project) = true)
              pageProjects).

(** The repositories returned, or the exception thrown, together with the
    endpoints requested; [fetchGitHub] and [fetchGitLab] are what a call
    of the client on an endpoint comes to. The cache write that follows
    the loop is left out. *)
Definition fetchUserRepositories (fetchGitHub : string -> outcome response)
    (fuel : nat) (s : settings) : option (outcome (list repo) * list string) :=
  paginate repo fetchGitHub repos_endpoint json_repos (keep_repos s)
           "Failed to fetch repositories" fuel first_page.

Definition fetchGitLabProjects (fetchGitLab : string -> outcome response)
    (fuel : nat) (s : settings) : option (outcome (list repo) * list string) :=
  paginate gitlab_project fetchGitLab projects_endpoint json_projects (keep_projects s)
           "Failed to fetch GitLab projects" fuel first_page.

End Repositories.

(** ** Notification history ([notifications.js]) *)

Module Notifications.

Section History.

(** The fields of a notification other than its timestamp. *)
Variable notification : Type.

Record entry : Type := { fields : notification; timestamp : N }.

(** [storeNotificationHistory(notification)]: [history] is the stored
    [notificationHistory], if any, [now] is [Date.now()], and the result is
    what [setStorage] writes back. *)
Definition storeNotificationHistory (n : notification) (now : N)
    (history : option (list entry)) : list entry :=
  let notificationHistory := default [] history in
  let notificationHistory := {| fields := n; timestamp := now |} :: notificationHistory in
  JS.slice 0 100 notificationHistory.

(** The entry made of a notification and the clock reading at its
    insertion. *)
Definition stamp (n : notification * N) : entry :=
  {| fields := n.1; timestamp := n.2 |}.

(** One insertion after another, each with its own clock reading. *)
Definition storeAll (ns : list (notification * N)) (history : option (list entry))
    : option (list entry) :=
  fold_left (fun h n => Some (storeNotificationHistory n.1 n.2 h)) ns history.

End History.

Arguments fields {notification} e.
Arguments timestamp {notification} e.
Arguments stamp {notification} n.
Arguments storeAll {notification} ns history.

End Notifications.

(** ** Commit monitoring ([modules/commit-monitoring.js]) *)

Module Monitoring.

(** What a fetcher resolves to when not [null]: a commit, with the
    [unchanged] property the fetchers add to it when the sha is the last
    known one. *)
Record latest : Type := { fetched : commit; unchanged : bool }.

(** What [checkRepoForNewCommits] resolves to when not [null]. *)
Record result : Type :=
  { res_repo : repo;
    res_commit : commit;
    isNew : bool;
    res_priority : option priority;
    repoKey : string }.

(** [{ ...commits[0], unchanged: true }] *)
Definition mark_unchanged (c : commit) : latest :=
  {| fetched := c; unchanged := true |}.

(** [{ sha: latestSha, unchanged: true }] *)
Definition only_sha (latestSha : string) : latest :=
  {| fetched := {| sha := latestSha; message := ""; author_name := None;
                   author := None; html_url := None; parents := None;
                   files := None; commit_stats := None |};
     unchanged := true |}.

(** A commit returned as it is. *)
Definition as_fetched (c : commit) : latest :=
  {| fetched := c; unchanged := false |}.

(** [lastKnownSha && latestSha === lastKnownSha] *)
Definition same_sha (lastKnownSha : option string) (latestSha : string) : bool :=
  JS.truthy_opt JS.truthy_string lastKnownSha &&
  bool_decide (Some latestSha = lastKnownSha).

(** A line terminator of a regular expression ends with the byte [c],
    [p2] and [p1] being the two bytes before it: a line feed, a carriage
    return, or the last byte of U+2028 or U+2029 (E2 80 A8, E2 80 A9). *)
Definition is_line_end (p2 p1 c : ascii) : bool :=
  Ascii.eqb c "010" || Ascii.eqb c "013" ||
  (Ascii.eqb p2 "226" && Ascii.eqb p1 "128" &&
   (Ascii.eqb c "168" || Ascii.eqb c "169")).

(** [(text.match(/^M[^M]/gm) || []).length] for a mark [M], on the UTF-8
    bytes of the text: the lines that open with one [M] followed by a
    character other than [M], a line break included. [at_start] tells
    whether the scan stands at the start of a line, that is at the start
    of the text or after a line terminator; [p2] and [p1] are the two
    bytes before the scan. *)
Fixpoint count_marked (mark : ascii) (p2 p1 : ascii) (at_start : bool) (text : string)
    : Z :=
  match text with
  | String a (String b rest as tail) =>
      if at_start && Ascii.eqb a mark && negb (Ascii.eqb b mark)
      then 1 + count_marked mark a b (is_line_end p1 a b) rest
      else count_marked mark p1 a (is_line_end p2 p1 a) tail
  | _ => 0
  end.

(** [text.split('\n').length] *)
Fixpoint count_lines (text : string) : Z :=
  match text with
  | EmptyString => 1
  | String c rest =>
      (if Ascii.eqb c "010" then 1 else 0) + count_lines rest
  end.

(** The callback of [diffs.map] *)
Definition file_of_diff (d : gitlab_diff) : file :=
  {| filename := if JS.truthy_string (new_path d) then new_path d else old_path d;
     additions := Some (from_option (count_marked "+" "000" "000" true) 0 (diff d));
     deletions := Some (from_option (count_marked "-" "000" "000" true) 0 (diff d));
     changes := Some (match diff d with
                      | Some text => if JS.truthy_string text then count_lines text else 0
                      | None => 0
                      end) |}.

(** [files.reduce((sum, f) => sum + f.additions, 0)] *)
Definition total (get : file -> option Z) (fs : list file) : Z :=
  fold_left (fun sum f => sum + JS.or_zero (get f)) fs 0.

Section Detector.

(** What a call of [fetchGitHub] or [fetchGitLab] on an endpoint comes
    to: a response, or an exception (no token, rate limit, network). *)
Variable fetchGitHub : string -> outcome response.
Variable fetchGitLab : string -> outcome response.

(** [encodeURIComponent] *)
Variable encodeURIComponent : string -> outcome string.

Definition json_commits (r : response) : outcome (list commit) :=
  await body <- json r;
  match body with Commits cs => Returned cs | _ => Threw BadBody end.

Definition json_commit (r : response) : outcome commit :=
  await body <- json r;
  match body with OneCommit c => Returned c | _ => Threw BadBody end.

Definition json_gitlab_commits (r : response) : outcome (list gitlab_commit) :=
  await body <- json r;
  match body with GitLabCommits cs => Returned cs | _ => Threw BadBody end.

Definition json_diffs (r : response) : outcome (list gitlab_diff) :=
  await body <- json r;
  match body with Diffs ds => Returned ds | _ => Threw BadBody end.

(** The endpoints of the two list requests. *)
Definition commits_endpoint (r : repo) : string :=
  "/repos/" +:+ full_name r +:+ "/commits?sha=" +:+ default_branch r +:+ "&per_page=1".

Definition gitlab_commits_endpoint (projectId : string) (r : repo) : string :=
  "/projects/" +:+ projectId +:+ "/repository/commits?ref_name=" +:+
  default_branch r +:+ "&per_page=1".

Definition fetchLatestGitHubCommit (r : repo) (lastKnownSha : option string)
    : outcome (option latest) :=
  catch
    (await listResponse <- fetchGitHub (commits_endpoint r);
     if negb (ok listResponse) then
       if status listResponse =? 409 then Returned None
       else Threw (Failed "Failed to fetch commits" (status listResponse))
     else
       await commits <- json_commits listResponse;
       match head commits with
       | None => Returned None
       | Some first =>
           let latestSha := sha first in
           if same_sha lastKnownSha latestSha
           then Returned (Some (mark_unchanged first))
           else
             await detailResponse <-
               fetchGitHub ("/repos/" +:+ full_name r +:+ "/commits/" +:+ latestSha);
             if negb (ok detailResponse) then Returned (Some (as_fetched first))
             else
               await detail <- json_commit detailResponse;
               Returned (Some (as_fetched detail))
       end)
    (fun _ => Returned None).

(** The inner [try] of [fetchLatestGitLabCommit]: [files] and [stats]
    from the diff, left at their initial values on any failure. *)
Definition gitlab_files (projectId latestSha : string) : list file * stats :=
  let nothing := ([], {| stats_additions := Some 0; stats_deletions := Some 0 |}) in
  match
    catch
      (await diffResponse <-
         fetchGitLab ("/projects/" +:+ projectId +:+ "/repository/commits/" +:+
                      latestSha +:+ "/diff");
       if ok diffResponse then
         await diffs <- json_diffs diffResponse;
         let files := map file_of_diff diffs in
         Returned (files, {| stats_additions := Some (total additions files);
                             stats_deletions := Some (total deletions files) |})
       else Returned nothing)
      (fun _ => Returned nothing)
  with
  | Returned fs => fs
  | Threw _ => nothing
  end.

Definition fetchLatestGitLabCommit (r : repo) (lastKnownSha : option string)
    : outcome (option latest) :=
  catch
    (await projectId <- encodeURIComponent (full_name r);
     await listResponse <- fetchGitLab (gitlab_commits_endpoint projectId r);
     if negb (ok listResponse) then
       if status listResponse =? 404 then Returned None
       else Threw (Failed "Failed to fetch GitLab commits" (status listResponse))
     else
       await commits <- json_gitlab_commits listResponse;
       match head commits with
       | None => Returned None
       | Some commit =>
           let latestSha := gl_id commit in
           if same_sha lastKnownSha latestSha
           then Returned (Some (only_sha latestSha))
           else
             let '(files, stats) := gitlab_files projectId latestSha in
             Returned (Some (as_fetched
               {| sha := gl_id commit;
                  message := gl_message commit;
                  author_name := gl_author_name commit;
                  author := Some {| login := gl_author_name commit |};
                  html_url := gl_web_url commit;
                  parents := Some (default [] (gl_parent_ids commit));
                  files := Some files;
                  commit_stats := Some stats |}))
       end)
    (fun _ => Returned None).

Definition is_gitlab (r : repo) : bool :=
  bool_decide (platform r = Some "gitlab").

Definition fetchLatestCommit (r : repo) (lastKnownSha : option string)
    : outcome (option latest) :=
  if is_gitlab r then fetchLatestGitLabCommit r lastKnownSha
  else fetchLatestGitHubCommit r lastKnownSha.

(** [`${repo.platform || 'github'}:${repo.full_name}`] *)
Definition key_of (r : repo) : string :=
  JS.or_default (platform r) "github" +:+ ":" +:+ full_name r.

(** [lastCommits[repoKey] || lastCommits[repo.full_name]] *)
Definition last_known (lastCommits : gmap string string) (r : repo) : option string :=
  JS.or_else JS.truthy_string (lastCommits !! key_of r) (lastCommits !! full_name r).

(** [settings.enabledRepos[repoKey] === false ||
     settings.enabledRepos[repo.full_name] === false] *)
Definition disabled (s : settings) (r : repo) : bool :=
  bool_decide (enabledRepos s !! key_of r = Some false) ||
  bool_decide (enabledRepos s !! full_name r = Some false).

(** [currentUser && authorLogin === currentUser.login] *)
Definition own_commit (latestCommit : commit) (currentUser : option user) : bool :=
  match currentUser with
  | Some u => JS.strict_eq (author latestCommit ≫= login) (login u)
  | None => false
  end.

Definition checkRepoForNewCommits (r : repo) (lastCommits : gmap string string)
    (s : settings) (userData gitlabUserData : option user)
    : outcome (option result) :=
  let repoKey := key_of r in
  if disabled s r then Returned None
  else
    let lastKnownSha := last_known lastCommits r in
    await latestCommit <- fetchLatestCommit r lastKnownSha;
    match latestCommit with
    | None => Returned None
    | Some {| fetched := latestCommit; unchanged := unchanged |} =>
        if unchanged then Returned None
        else if negb (JS.truthy_opt JS.truthy_string lastKnownSha)
        then Returned (Some {| res_repo := r; res_commit := latestCommit;
                               isNew := false; res_priority := None;
                               repoKey := repoKey |})
        else if negb (bool_decide (Some (sha latestCommit) = lastKnownSha))
        then
          let currentUser := if is_gitlab r then gitlabUserData else userData in
          if ignoreOwnCommits s && own_commit latestCommit currentUser
          then Returned (Some {| res_repo := r; res_commit := latestCommit;
                                 isNew := false; res_priority := None;
                                 repoKey := repoKey |})
          else
            let priority :=
              CommitAnalysis.classifyCommitPriority latestCommit r currentUser in
            Returned (Some {| res_repo := r; res_commit := latestCommit;
                              isNew := true; res_priority := Some priority;
                              repoKey := repoKey |})
        else Returned None
    end.

(** What the list request of a repository comes to, and when it counts
    as failed: an exception on the way, or a response that is not [ok]
    (404 and 409 among them). *)
Definition list_request (r : repo) : outcome response :=
  if is_gitlab r then
    await projectId <- encodeURIComponent (full_name r);
    fetchGitLab (gitlab_commits_endpoint projectId r)
  else fetchGitHub (commits_endpoint r).

Definition list_fails (r : repo) : Prop :=
  match list_request r with
  | Threw _ => True
  | Returned listResponse => ok listResponse = false
  end.

(** The server answers the requests of a check of [r] in type: when the
    list request is answered [ok] with a body that can be read, the body
    is a list of commits, and when the request for the details of its
    first commit is, the body is a commit; on GitLab a list of commits,
    and a list of diffs for the first of them. The code does not check
    this and goes on with whatever the body holds. *)
Definition typed_github (r : repo) : Prop :=
  forall listResponse body,
    fetchGitHub (commits_endpoint r) = Returned listResponse ->
    ok listResponse = true -> json listResponse = Returned body ->
    exists commits,
      body = Commits commits /\
      forall first detailResponse detail,
        head commits = Some first ->
        fetchGitHub ("/repos/" +:+ full_name r +:+ "/commits/" +:+ sha first)
        = Returned detailResponse ->
        ok detailResponse = true -> json detailResponse = Returned detail ->
        exists c, detail = OneCommit c.

Definition typed_gitlab (r : repo) : Prop :=
  forall projectId listResponse body,
    encodeURIComponent (full_name r) = Returned projectId ->
    fetchGitLab (gitlab_commits_endpoint projectId r) = Returned listResponse ->
    ok listResponse = true -> json listResponse = Returned body ->
    exists commits,
      body = GitLabCommits commits /\
      forall first diffResponse diffs,
        head commits = Some first ->
        fetchGitLab ("/projects/" +:+ projectId +:+ "/repository/commits/" +:+
                     gl_id first +:+ "/diff") = Returned diffResponse ->
        ok diffResponse = true -> json diffResponse = Returned diffs ->
        exists ds, diffs = Diffs ds.

Definition typed_answers (r : repo) : Prop :=
  if is_gitlab r then typed_gitlab r else typed_github r.

(** What a settled check contributes to the sweep. *)
Definition settled (o : outcome (option result)) : option result :=
  match o with
  | Returned res => res
  | Threw _ => None
  end.

(** *** The sweep *)

(** The keys of [chrome.storage] the sweep reads or writes. [getSettings]
    has already filled in the defaults of [settings]. *)
Record storage : Type :=
  { st_settings : settings;
    st_userData : option user;
    st_gitlabUserData : option user;
    st_lastCommits : option (gmap string string);
    st_unreadCount : option Z;
    st_lastCheckTime : option N;
    st_lastError : option error }.

(** [newCommits] and [updatedLastCommits] *)
Record progress : Type :=
  { newCommits : list result;
    updatedLastCommits : gmap string string }.

Definition batchSize : nat := 10.

(** The body of [for (const result of results)]. *)
Definition record_result (acc : progress) (res : option result) : progress :=
  match res with
  | Some result =>
      let key :=
        if JS.truthy_string (repoKey result) then repoKey result
        else full_name (res_repo result) in
      {| updatedLastCommits :=
           <[key := sha (res_commit result)]> (updatedLastCommits acc);
         newCommits :=
           if isNew result then newCommits acc ++ [result] else newCommits acc |}
  | None => acc
  end.

(** [for (let i = 0; i < repos.length; i += batchSize)], the delay
    between batches left out; [None] when the fuel runs out. *)
Fixpoint batches (fuel : nat) (repos : list repo) (lastCommits : gmap string string)
    (s : settings) (userData gitlabUserData : option user)
    (i : nat) (acc : progress) : option (outcome progress) :=
  if (i <? length repos)%nat then
    match fuel with
    | O => None
    | S fuel' =>
        let batch := JS.slice i (i + batchSize) repos in
        match
          Promise_all
            (map (fun r => checkRepoForNewCommits r lastCommits s userData gitlabUserData)
                 batch)
        with
        | Threw e => Some (Threw e)
        | Returned results =>
            batches fuel' repos lastCommits s userData gitlabUserData
                    (i + batchSize) (fold_left record_result results acc)
        end
    end
  else Some (Returned acc).

Definition set_lastError (st : storage) (e : error) : storage :=
  {| st_settings := st_settings st; st_userData := st_userData st;
     st_gitlabUserData := st_gitlabUserData st;
     st_lastCommits := st_lastCommits st; st_unreadCount := st_unreadCount st;
     st_lastCheckTime := st_lastCheckTime st; st_lastError := Some e |}.

(** The tail of the sweep: store the shas, count the notifications sent
    into the badge, store the time of the check. *)
Definition finish (st : storage) (now : N) (done : progress) : storage :=
  {| st_settings := st_settings st; st_userData := st_userData st;
     st_gitlabUserData := st_gitlabUserData st;
     st_lastCommits := Some (updatedLastCommits done);
     st_unreadCount :=
       if (0 <? length (newCommits done))%nat
       then Some (default 0 (st_unreadCount st) + Z.of_nat (length (newCommits done)))
       else st_unreadCount st;
     st_lastCheckTime := Some now;
     st_lastError := st_lastError st |}.

(** [checkAllRepositoriesForCommits()]: the storage it leaves and the
    results handed to [sendCommitNotification], in order. [getRepositories]
    is what the directory resolves to and [now] is [Date.now()]. Reading
    and writing the storage and sending a notification are taken not to
    throw. *)
Definition checkAllRepositoriesForCommits (fuel : nat)
    (getRepositories : outcome (list repo)) (now : N) (st : storage)
    : option (storage * list result) :=
  let settings := st_settings st in
  if negb (notificationsEnabled settings) then Some (st, [])
  else
    let userData := st_userData st in
    let gitlabUserData := st_gitlabUserData st in
    if negb (bool_decide (is_Some userData)) && negb (bool_decide (is_Some gitlabUserData))
    then Some (st, [])
    else
      match getRepositories with
      | Threw e => Some (set_lastError st e, [])
      | Returned repos =>
          let lastCommits := default ∅ (st_lastCommits st) in
          match
            batches fuel repos lastCommits settings userData gitlabUserData 0
                    {| newCommits := []; updatedLastCommits := lastCommits |}
          with
          | None => None
          | Some (Threw e) => Some (set_lastError st e, [])
          | Some (Returned done) => Some (finish st now done, newCommits done)
          end
      end.

End Detector.

End Monitoring.

(** ** Sample data *)

Module Samples.

Definition sample_file (name : string) (a d : Z) : file :=
  {| filename := name; additions := Some a; deletions := Some d; changes := None |}.

Definition sample_commit (id msg : string) (who : option string)
    (ps : list string) (fs : list file) : commit :=
  {| sha := id; message := msg; author_name := who;
     author := Some {| login := who |};
     html_url := None; parents := Some ps; files := Some fs;
     commit_stats := Some {| stats_additions := Some 12; stats_deletions := Some 4 |} |}.

Definition sample_repo : repo :=
  {| full_name := "octo/app"; default_branch := "main";
     platform := Some "github"; fork := false |}.

(** A two-parent commit that touches a security file. *)
Definition merge_commit : commit :=
  sample_commit "3f1c9e" "Merge branch 'auth'" (Some "mona") ["a1"; "b2"]
                [sample_file "src/auth/login.js" 40 2].

(** A code commit with one weight-1 critical file and a low-urgency word. *)
Definition refactor_commit : commit :=
  sample_commit "77ab10" "Refactor the route table" (Some "mona") ["a1"]
                [sample_file "src/routes/index.c" 10 3; sample_file "src/util.c" 2 1].

(** A security file alone, and a README alone. *)
Definition login_commit : commit :=
  sample_commit "c0ffee" "Tidy up" (Some "hubot") ["a1"]
                [sample_file "auth/login.go" 5 1].

Definition readme_commit : commit :=
  sample_commit "d0c5aa" "Fix typo" (Some "hubot") ["a1"]
                [sample_file "README.md" 1 1].

(** A message that spells BREAKING with the Kelvin sign U+212A (bytes
    E2 84 AA) for its K. *)
Definition kelvin_commit : commit :=
  sample_commit "ab12cd"
                ("BREA" +:+ String "226" (String "132" (String "170"
                   "ING change: refactor the route table")))
                (Some "hubot") ["a1"]
                [sample_file "src/routes/index.c" 10 3].

Definition sample_response (body : payload) : response :=
  {| ok := true; status := 200;
     response_headers := {| h_remaining := Some "4999"; h_reset := None;
                            h_limit := Some "5000" |};
     json := Returned body |}.

(** A GitHub on which [octo/broken] cannot be reached and every other
    repository has [refactor_commit] at its head. *)
Definition sample_github (endpoint : string) : outcome response :=
  if JS.includes endpoint "octo/broken" then Threw NetworkFailure
  else if JS.includes endpoint "per_page=1"
  then Returned (sample_response (Commits [refactor_commit]))
  else Returned (sample_response (OneCommit refactor_commit)).

Definition sample_gitlab (endpoint : string) : outcome response :=
  Threw NotAuthenticated.

Definition sample_encode (s : string) : outcome string := Returned s.

Definition github_repo (name : string) : repo :=
  {| full_name := name; default_branch := "main";
     platform := Some "github"; fork := false |}.

(** A batch of ten. *)
Definition sample_repos : list repo :=
  map github_repo
      ["octo/app"; "octo/broken"; "octo/api"; "octo/web"; "octo/cli";
       "octo/docs"; "octo/infra"; "octo/sdk"; "octo/site"; "octo/tools"].

Definition mona : user := {| login := Some "mona" |}.

Definition sample_settings : settings :=
  {| checkInterval := 5; ignoreForks := true; ignoreOwnCommits := true;
     enabledRepos := ∅; notificationsEnabled := true;
     releaseNotificationsEnabled := true |}.

(** [octo/app] was seen before, the other repositories were not. *)
Definition sample_storage : Monitoring.storage :=
  {| Monitoring.st_settings := sample_settings;
     Monitoring.st_userData := Some mona;
     Monitoring.st_gitlabUserData := None;
     Monitoring.st_lastCommits := Some {[ "github:octo/app" := "000000" ]};
     Monitoring.st_unreadCount := None;
     Monitoring.st_lastCheckTime := None;
     Monitoring.st_lastError := None |}.

(** A server that never runs out of full pages. *)
Definition full_pages (endpoint : string) : outcome response :=
  Returned (sample_response (Repos (repeat sample_repo 100))).

(** A server that ignores the page size and hands out 150 a page. *)
Definition oversized_pages (endpoint : string) : outcome response :=
  Returned (sample_response (Repos (repeat sample_repo 150))).

(** 101 insertions, one a second, into a history of one entry. *)
Definition sample_insertions : list (nat * N) :=
  map (fun k => (k, (1700000000000 + 1000 * N.of_nat k)%N)) (seq 1 101).

Definition sample_history : option (list (Notifications.entry nat)) :=
  Some [ {| Notifications.fields := 0%nat; Notifications.timestamp := 1690000000000%N |} ].

(** The same insertions, followed by one made after the clock was set
    back by a day. *)
Definition clock_set_back : list (nat * N) :=
  sample_insertions ++ [(102%nat, 1699913600000%N)].

(** A client out of budget, an hour before the reset. *)
Definition exhausted : Api.client :=
  {| Api.rateLimitRemaining := Some 5; Api.rateLimitReset := Some 1700003600;
     Api.stored := None; Api.calls := [] |}.

Definition sample_now : N := 1700000000000%N.

Definition sample_parseInt (s : string) : option Z := None.

End Samples.

(** ** Vocabulary for the properties of the classifier *)

Module Classifier.
Import Regex CommitAnalysis.

(** The counter of [categories] that a kind is counted in. *)
Definition counter (k : kind) (c : counts) : nat :=
  match k with
  | docs => n_docs c
  | config => n_config c
  | ci => n_ci c
  | tests => n_tests c
  | localization => n_localization c
  | merge | code => n_code c
  end.

(** The five families of [filePatterns]. *)
Definition families : list kind := [docs; config; ci; tests; localization].

(** [commit.files], no files when the property is missing. *)
Definition changed (c : commit) : list file := default [] (files c).

(** Some critical pattern matches the name of the file. *)
Definition critical (f : file) : bool :=
  existsb (fun cp => test (pat cp) (filename f)) criticalPatterns.

(** [details.additions + details.deletions] of a commit with files. *)
Definition total_changes (c : commit) : Z :=
  stat stats_additions c + stat stats_deletions c.

(** The priority the message alone gives. *)
Definition by_message (message : string) : priority :=
  if mentions HIGH_PRIORITY_KEYWORDS (JS.toLowerCase message) then high
  else if mentions lowKeywords (JS.toLowerCase message) then low
  else medium.

(** The first critical pattern that matches the file has weight 3. *)
Definition heavy (f : file) : bool :=
  match first_critical (filename f) with
  | Some cp => 3 <=? weight cp
  | None => false
  end.

(** The number of files matched by a critical pattern. *)
Definition critical_count (fs : list file) : nat :=
  length (filter (fun f => critical f = true) fs).

(** The decision list of [classifyCommitPriority] for a commit typed
    [code], in terms of the commit alone. *)
Definition code_verdict (c : commit) : priority :=
  let fs := changed c in
  let message := JS.toLowerCase (message c) in
  if existsb heavy fs || (2 <=? critical_count fs)%nat ||
     existsb large_deletion fs || mentions HIGH_PRIORITY_KEYWORDS message
  then high
  else if (0 <? critical_count fs)%nat ||
          (negb (bool_decide (fs = [])) && (500 <? total_changes c))
  then medium
  else if mentions lowKeywords message then low
  else medium.

End Classifier.

(** ** The cached fetch of [github-api.js] *)

Module Cache.

(** The url a client requests for an endpoint:
    [endpoint.startsWith('http') ? endpoint : `${BASE}${endpoint}`]. *)
Definition url_of (p : Api.platform_api) (endpoint : string) : string :=
  if String.prefix "http" endpoint then endpoint
  else Api.API_BASE p +:+ endpoint.

(** [{ data, timestamp }] under a cache key. *)
Record cached : Type := { data : payload; timestamp : N }.

Section Cached.

(** What a call of [fetchGitHub] on an endpoint comes to. *)
Variable fetchGitHub : string -> outcome response.

(** [fetchGitHubCached(endpoint, cacheKey, maxAge)]: what it resolves to,
    the storage it leaves and the endpoints it requested. [now] is the
    [Date.now()] of the freshness test and [later] the one of the write. *)
Definition fetchGitHubCached (endpoint cacheKey : string) (maxAge : Z)
    (now later : N) (store : gmap string cached)
    : outcome payload * gmap string cached * list string :=
  let fresh :=
    match store !! cacheKey with
    | Some {| data := data; timestamp := timestamp |} =>
        if Z.of_N now - Z.of_N timestamp <? maxAge then Some data else None
    | None => None
    end in
  match fresh with
  | Some data => (Returned data, store, [])
  | None =>
      match fetchGitHub endpoint with
      | Threw e => (Threw e, store, [endpoint])
      | Returned response =>
          if negb (ok response)
          then (Threw (Failed "GitHub API error" (status response)), store, [endpoint])
          else
            match json response with
            | Threw e => (Threw e, store, [endpoint])
            | Returned data =>
                (Returned data,
                 <[cacheKey := {| data := data; timestamp := later |}]> store,
                 [endpoint])
            end
      end
  end.

End Cached.

(** [5 * 60 * 1000], the default of [maxAge]. *)
Definition default_maxAge : Z := 5 * 60 * 1000.

End Cache.

(** ** The cached repository lists of [repositories.js] *)

Module Directory.
Import Repositories.

(** [repositories] and [repositoriesUpdated], or their GitLab
    counterparts, as stored. *)
Record listing : Type := { listed : option (list repo); listedAt : option N }.

(** [60 * 60 * 1000] *)
Definition hour : Z := 60 * 60 * 1000.

(** [!repositories || Date.now() - repositoriesUpdated > 60 * 60 * 1000];
    without a timestamp the difference is [NaN] and the test false. *)
Definition outdated (now : N) (l : listing) : bool :=
  match listed l with
  | None => true
  | Some _ =>
      match listedAt l with
      | Some updated => hour <? Z.of_N now - Z.of_N updated
      | None => false
      end
  end.

(** [repositories.map(repo => ({ ...repo, platform: repo.platform || name }))] *)
Definition with_platform (name : string) (rs : list repo) : list repo :=
  map (fun r => {| full_name := full_name r;
                   default_branch := default_branch r;
                   platform := Some (JS.or_default (platform r) name);
                   fork := fork r |}) rs.

(** A listing loop followed by its cache write
    [setStorage({ repositories: repos, repositoriesUpdated: Date.now() })],
    which an exception skips; [later] is the [Date.now()] of the write. *)
Definition refreshed (fetched : option (outcome (list repo) * list string))
    (later : N) (l : listing) : option (outcome (list repo) * listing * list string) :=
  match fetched with
  | None => None
  | Some (Returned rs, requested) =>
      Some (Returned rs, {| listed := Some rs; listedAt := Some later |}, requested)
  | Some (Threw e, requested) => Some (Threw e, l, requested)
  end.

Section Lists.

Variable fetchGitHub : string -> outcome response.
Variable fetchGitLab : string -> outcome response.

(** What the call resolves to, the listing it leaves in the storage and
    the endpoints it requested; [now] is the [Date.now()] of the test. *)
Definition getGitHubRepositories (fuel : nat) (s : settings) (now later : N) (l : listing)
    : option (outcome (list repo) * listing * list string) :=
  if outdated now l
  then refreshed (fetchUserRepositories fetchGitHub fuel s) later l
  else Some (Returned (with_platform "github" (default [] (listed l))), l, []).

Definition getGitLabRepositories (fuel : nat) (s : settings) (now later : N) (l : listing)
    : option (outcome (list repo) * listing * list string) :=
  if outdated now l
  then refreshed (fetchGitLabProjects fetchGitLab fuel s) later l
  else Some (Returned (with_platform "gitlab" (default [] (listed l))), l, []).

(** [promise.catch(err => [])] *)
Definition or_nothing (o : outcome (list repo)) : list repo :=
  match o with
  | Returned rs => rs
  | Threw _ => []
  end.

(** What [getRepositories] leaves behind for one platform. *)
Record platform_part : Type :=
  { part : list repo; listing_left : listing; asked : list string }.

(** One of the two promises pushed by [getRepositories], when the
    platform has a token. *)
Definition contribution (authenticated : bool)
    (get : option (outcome (list repo) * listing * list string)) (l : listing)
    : option platform_part :=
  if authenticated then
    match get with
    | None => None
    | Some (o, l', requested) =>
        Some {| part := or_nothing o; listing_left := l'; asked := requested |}
    end
  else Some {| part := []; listing_left := l; asked := [] |}.

(** [getRepositories()]: the merged list, and per platform the listing
    left in the storage and the endpoints requested. The tokens are what
    [getGitHubAccessToken] and [getGitLabAccessToken] resolve to; each
    platform reads the clock for itself, at its test and at its write. *)
Definition getRepositories (fuel : nat) (s : settings)
    (githubToken gitlabToken : option string) (githubClock gitlabClock : N * N)
    (github gitlab : listing) : option (list repo * platform_part * platform_part) :=
  let githubAuth := JS.truthy_opt JS.truthy_string githubToken in
  let gitlabAuth := JS.truthy_opt JS.truthy_string gitlabToken in
  match contribution githubAuth
          (getGitHubRepositories fuel s githubClock.1 githubClock.2 github) github,
        contribution gitlabAuth
          (getGitLabRepositories fuel s gitlabClock.1 gitlabClock.2 gitlab) gitlab with
  | Some gh, Some gl => Some (part gh ++ part gl, gh, gl)
  | _, _ => None
  end.

End Lists.

End Directory.

(** ** Vocabulary for the properties of the detector *)

Module Detector.
Import Monitoring.

(** The endpoint of the diff of a GitLab commit. *)
Definition diff_endpoint (projectId latestSha : string) : string :=
  "/projects/" +:+ projectId +:+ "/repository/commits/" +:+ latestSha +:+ "/diff".

(** A GitLab commit normalised without files, as when its diff cannot
    be had. *)
Definition without_diff (head : gitlab_commit) : commit :=
  {| sha := gl_id head;
     message := gl_message head;
     author_name := gl_author_name head;
     author := Some {| login := gl_author_name head |};
     html_url := gl_web_url head;
     parents := Some (default [] (gl_parent_ids head));
     files := Some [];
     commit_stats := Some {| stats_additions := Some 0; stats_deletions := Some 0 |} |}.

End Detector.

(** ** Utilities ([utils.js]) and the badge ([badge.js]) *)

Module Utils.

(** [str.slice(0, end)]; a negative [end] counts from the end of [str]. *)
Definition slice_to {A} (e : Z) (str : list A) : list A :=
  if e <? 0 then take (Z.to_nat (Z.of_nat (length str) + e)) str
  else take (Z.to_nat e) str.

(** [truncate(str, max)], on the code units of the string; [ellipsis] is
    the one unit of the ellipsis character. *)
Definition truncate {A} (ellipsis : A) (str : list A) (max : Z) : list A :=
  if max <? Z.of_nat (length str) then slice_to (max - 1) str ++ [ellipsis] else str.

(** [String(n)] of an integer. *)
Definition number (n : Z) : string := NilZero.string_of_int (Z.to_int n).

End Utils.

Module Badge.
Import Monitoring.

(** The text [updateBadge(count)] sets on the badge. *)
Definition updateBadge (count : Z) : string :=
  if 0 <? count then (if 99 <? count then "99+" else Utils.number count) else "".

Definition with_unreadCount (st : storage) (count : Z) : storage :=
  {| st_settings := st_settings st; st_userData := st_userData st;
     st_gitlabUserData := st_gitlabUserData st;
     st_lastCommits := st_lastCommits st; st_unreadCount := Some count;
     st_lastCheckTime := st_lastCheckTime st; st_lastError := st_lastError st |}.

(** The storage left and the text of the badge. *)
Definition incrementUnreadCount (increment : Z) (st : storage) : storage * string :=
  let unreadCount := default 0 (st_unreadCount st) in
  let newCount := unreadCount + increment in
  (with_unreadCount st newCount, updateBadge newCount).

End Badge.

(** ** Responses read at another type *)

(** A response of which the status and the body are read, the body as
    an [A]. *)
Record reply (A : Type) : Type :=
  { reply_ok : bool; reply_status : Z; reply_json : outcome A }.

Arguments reply_ok {A} _.
Arguments reply_status {A} _.
Arguments reply_json {A} _.

(** ** Release monitoring ([release-monitoring.js]) *)

Module Releases.
Import Monitoring.

(** The id of a release: GitHub numbers its releases, a tag goes by the
    sha of its commit and a GitLab release by its tag name. *)
Inductive release_id : Type :=
| Num (n : Z)
| Str (s : string).

Definition truthy_id (i : release_id) : bool :=
  match i with
  | Num n => JS.truthy_num n
  | Str s => JS.truthy_string s
  end.

(** [String(id)], [String(undefined)] when there is none. *)
Definition String_of (i : option release_id) : string :=
  match i with
  | Some (Num n) => Utils.number n
  | Some (Str s) => s
  | None => "undefined"
  end.

(** A release, or a tag in the format of one. *)
Record release : Type :=
  { id : release_id;
    tag_name : option string;
    release_name : option string;
    release_url : option string;
    prerelease : bool;
    isTag : bool;
    release_author : option user }.

(** What the APIs list: a GitHub tag, a GitLab release, a GitLab tag. *)
Record github_tag : Type := { tag : string; tag_commit_sha : string }.

Record gitlab_release : Type :=
  { glr_tag_name : string;
    glr_name : option string;
    glr_links_self : option string;
    glr_author : option (option string) }.

Record gitlab_tag : Type := { gl_tag : string; gl_tag_commit_id : string }.

(** The bodies of the four endpoints; [Null] is the JSON [null]. *)
Inductive body : Type :=
| OneRelease (r : release)
| Tags (ts : list github_tag)
| GitLabReleases (rs : list gitlab_release)
| GitLabTags (ts : list gitlab_tag)
| Null
| Unexpected.

(** [{ repo, release, isNew, repoKey }] *)
Record result : Type :=
  { rel_repo : repo; rel_release : release; rel_isNew : bool; rel_repoKey : string }.

Section Monitor.

Variable fetchGitHub : string -> outcome (reply body).
Variable fetchGitLab : string -> outcome (reply body).
Variable encodeURIComponent : string -> outcome string.

Definition fetchLatestGitHubRelease (r : repo) : outcome (option release) :=
  catch
    (await response <- fetchGitHub ("/repos/" +:+ full_name r +:+ "/releases/latest");
     if negb (reply_ok response) then
       if reply_status response =? 404 then Returned None
       else Threw (Failed "Failed to fetch releases" (reply_status response))
     else
       await json <- reply_json response;
       match json with
       | OneRelease latest => Returned (Some latest)
       | Null => Returned None
       | _ => Threw BadBody
       end)
    (fun _ => Returned None).

Definition fetchLatestGitHubTag (r : repo) : outcome (option release) :=
  catch
    (await response <- fetchGitHub ("/repos/" +:+ full_name r +:+ "/tags?per_page=1");
     if negb (reply_ok response) then
       if reply_status response =? 404 then Returned None
       else Threw (Failed "Failed to fetch tags" (reply_status response))
     else
       await tags <- reply_json response;
       match tags with
       | Null | Tags [] => Returned None
       | Tags (t :: _) =>
           Returned (Some
             {| id := Str (tag_commit_sha t);
                tag_name := Some (tag t);
                release_name := Some (tag t);
                release_url :=
                  Some ("https://github.com/" +:+ full_name r +:+ "/releases/tag/" +:+ tag t);
                prerelease := false;
                isTag := true;
                release_author := None |})
       | _ => Threw BadBody
       end)
    (fun _ => Returned None).

Definition fetchLatestGitLabRelease (r : repo) : outcome (option release) :=
  catch
    (await projectId <- encodeURIComponent (full_name r);
     await response <- fetchGitLab ("/projects/" +:+ projectId +:+ "/releases?per_page=1");
     if negb (reply_ok response) then
       if reply_status response =? 404 then Returned None
       else Threw (Failed "Failed to fetch GitLab releases" (reply_status response))
     else
       await releases <- reply_json response;
       match releases with
       | Null | GitLabReleases [] => Returned None
       | GitLabReleases (latest :: _) =>
           Returned (Some
             {| id := Str (glr_tag_name latest);
                tag_name := Some (glr_tag_name latest);
                release_name := Some (JS.or_default (glr_name latest) (glr_tag_name latest));
                release_url :=
                  Some (JS.or_default (glr_links_self latest)
                          ("https://gitlab.com/" +:+ full_name r +:+ "/-/releases/" +:+
                           glr_tag_name latest));
                prerelease := false;
                isTag := false;
                release_author :=
                  match glr_author latest with
                  | Some username => Some {| login := username |}
                  | None => None
                  end |})
       | _ => Threw BadBody
       end)
    (fun _ => Returned None).

Definition fetchLatestGitLabTag (r : repo) : outcome (option release) :=
  catch
    (await projectId <- encodeURIComponent (full_name r);
     await response <-
       fetchGitLab ("/projects/" +:+ projectId +:+ "/repository/tags?per_page=1");
     if negb (reply_ok response) then
       if reply_status response =? 404 then Returned None
       else Threw (Failed "Failed to fetch GitLab tags" (reply_status response))
     else
       await tags <- reply_json response;
       match tags with
       | Null | GitLabTags [] => Returned None
       | GitLabTags (t :: _) =>
           Returned (Some
             {| id := Str (gl_tag_commit_id t);
                tag_name := Some (gl_tag t);
                release_name := Some (gl_tag t);
                release_url :=
                  Some ("https://gitlab.com/" +:+ full_name r +:+ "/-/tags/" +:+ gl_tag t);
                prerelease := false;
                isTag := true;
                release_author := None |})
       | _ => Threw BadBody
       end)
    (fun _ => Returned None).

Definition fetchLatestRelease (r : repo) : outcome (option release) :=
  if is_gitlab r then fetchLatestGitLabRelease r else fetchLatestGitHubRelease r.

Definition fetchLatestTag (r : repo) : outcome (option release) :=
  if is_gitlab r then fetchLatestGitLabTag r else fetchLatestGitHubTag r.

(** [lastReleases[repoKey] || lastReleases[repo.full_name]] *)
Definition last_known_id (lastReleases : gmap string release_id) (r : repo)
    : option release_id :=
  JS.or_else truthy_id (lastReleases !! key_of r) (lastReleases !! full_name r).

Definition checkRepoForNewReleases (r : repo) (lastReleases : gmap string release_id)
    (s : settings) : outcome (option result) :=
  let repoKey := key_of r in
  if disabled s r then Returned None
  else
    await latestRelease <- fetchLatestRelease r;
    await latestRelease <-
      match latestRelease with
      | Some _ => Returned latestRelease
      | None => fetchLatestTag r
      end;
    match latestRelease with
    | None => Returned None
    | Some latestRelease =>
        let lastKnownId := last_known_id lastReleases r in
        if negb (JS.truthy_opt truthy_id lastKnownId)
        then Returned (Some {| rel_repo := r; rel_release := latestRelease;
                               rel_isNew := false; rel_repoKey := repoKey |})
        else if negb (String.eqb (String_of (Some (id latestRelease)))
                                 (String_of lastKnownId))
        then Returned (Some {| rel_repo := r; rel_release := latestRelease;
                               rel_isNew := true; rel_repoKey := repoKey |})
        else Returned None
    end.

(** What a settled check contributes to the sweep. *)
Definition settled (o : outcome (option result)) : option result :=
  match o with
  | Returned res => res
  | Threw _ => None
  end.

(** The storage of the commit sweep, and [lastReleases] beside it. *)
Record storage : Type :=
  { monitor : Monitoring.storage;
    lastReleases : option (gmap string release_id) }.

(** [newReleases] and [updatedLastReleases] *)
Record progress : Type :=
  { newReleases : list result;
    updatedLastReleases : gmap string release_id }.

(** The body of [for (const result of results)]. *)
Definition record_result (acc : progress) (res : option result) : progress :=
  match res with
  | Some result =>
      let key :=
        if JS.truthy_string (rel_repoKey result) then rel_repoKey result
        else full_name (rel_repo result) in
      {| updatedLastReleases :=
           <[key := id (rel_release result)]> (updatedLastReleases acc);
         newReleases :=
           if rel_isNew result then newReleases acc ++ [result] else newReleases acc |}
  | None => acc
  end.

(** [for (let i = 0; i < repos.length; i += batchSize)], the delay
    between batches left out; [None] when the fuel runs out. *)
Fixpoint batches (fuel : nat) (repos : list repo) (lastReleases : gmap string release_id)
    (s : settings) (i : nat) (acc : progress) : option (outcome progress) :=
  if (i <? length repos)%nat then
    match fuel with
    | O => None
    | S fuel' =>
        let batch := JS.slice i (i + batchSize) repos in
        match
          Promise_all (map (fun r => checkRepoForNewReleases r lastReleases s) batch)
        with
        | Threw e => Some (Threw e)
        | Returned results =>
            batches fuel' repos lastReleases s (i + batchSize)
                    (fold_left record_result results acc)
        end
    end
  else Some (Returned acc).

(** The tail of the sweep: store the ids and count the notifications
    sent into the badge. *)
Definition finish (st : storage) (done : progress) : storage :=
  {| monitor :=
       if (0 <? length (newReleases done))%nat
       then (Badge.incrementUnreadCount (Z.of_nat (length (newReleases done)))
                                        (monitor st)).1
       else monitor st;
     lastReleases := Some (updatedLastReleases done) |}.

(** [checkAllRepositoriesForReleases()]: the storage it leaves and the
    results handed to [sendReleaseNotification], in order.
    [getRepositories] is what the directory resolves to. Reading and
    writing the storage and sending a notification are taken not to
    throw. *)
Definition checkAllRepositoriesForReleases (fuel : nat)
    (getRepositories : outcome (list repo)) (st : storage)
    : option (storage * list result) :=
  let settings := st_settings (monitor st) in
  if negb (notificationsEnabled settings) || negb (releaseNotificationsEnabled settings)
  then Some (st, [])
  else
    match getRepositories with
    | Threw _ => Some (st, [])
    | Returned repos =>
        let lastReleases := default ∅ (lastReleases st) in
        match
          batches fuel repos lastReleases settings 0
                  {| newReleases := []; updatedLastReleases := lastReleases |}
        with
        | None => None
        | Some (Threw _) => Some (st, [])
        | Some (Returned done) => Some (finish st done, newReleases done)
        end
    end.

End Monitor.

End Releases.

(** ** The GitHub inbox ([checkGitHubNotifications] of [notifications.js]) *)

Module Inbox.

(** What the check reads of a GitHub notification. *)
Record notification : Type :=
  { id : string; subject_type : string; reason : string }.

(** A [Set] of strings, in insertion order. *)
Definition add (x : string) (s : list string) : list string :=
  if bool_decide (x ∈ s) then s else s ++ [x].

(** [new Set(ids)] *)
Definition Set_of (ids : list string) : list string :=
  fold_left (fun s x => add x s) ids [].

(** [l.slice(-n)] *)
Definition last_of {A} (n : nat) (l : list A) : list A :=
  drop (length l - n) l.

Definition importantTypes : list string := ["PullRequest"; "Issue"; "CheckSuite"].

Definition importantReasons : list string :=
  ["review_requested"; "mention"; "ci_activity"; "security_alert"].

(** The test of [notifications.filter]. *)
Definition is_new (seenSet : list string) (n : notification) : bool :=
  if bool_decide (id n ∈ seenSet) then false
  else bool_decide (subject_type n ∈ importantTypes) ||
       bool_decide (reason n ∈ importantReasons).

Section Check.

Variable fetchGitHub : string -> outcome (reply (list notification)).

(** [checkGitHubNotifications()]: the [seenNotifications] it leaves in
    the storage and the notifications handed to [sendGitHubNotification],
    in order. Reading and writing the storage and sending a notification
    are taken not to throw. *)
Definition checkGitHubNotifications (seenNotifications : option (list string))
    : option (list string) * list notification :=
  match
    await response <- fetchGitHub "/notifications?all=false&per_page=50";
    if negb (reply_ok response)
    then Threw (Failed "Failed to fetch notifications" (reply_status response))
    else
      await notifications <- reply_json response;
      let seenSet := Set_of (default [] seenNotifications) in
      let newNotifications := filter (fun n => is_new seenSet n = true) notifications in
      let sent := take 5 newNotifications in
      let seenSet := fold_left (fun s n => add (id n) s) sent seenSet in
      let updatedSeen := last_of 1000 seenSet in
      Returned (Some updatedSeen, sent)
  with
  | Returned done => done
  | Threw _ => (seenNotifications, [])
  end.

End Check.

End Inbox.

(** ** Messages from the popup ([message-handler.js], [auth.js]) *)

Module Handler.
Import Monitoring.

(** What [chrome.storage.local.remove] and [setStorage] of these actions
    leave of the keys in [Releases.storage]; the tokens and the cached
    repository lists they remove as well are not among them, and nothing
    writes the keys [gitlabLastCommits] and [gitlabLastReleases]. *)
Definition logoutGitHub (st : Releases.storage) : Releases.storage :=
  let m := Releases.monitor st in
  {| Releases.monitor :=
       {| st_settings := st_settings m; st_userData := None;
          st_gitlabUserData := st_gitlabUserData m;
          st_lastCommits := None; st_unreadCount := st_unreadCount m;
          st_lastCheckTime := st_lastCheckTime m; st_lastError := st_lastError m |};
     Releases.lastReleases := Releases.lastReleases st |}.

Definition logoutGitLab (st : Releases.storage) : Releases.storage :=
  let m := Releases.monitor st in
  {| Releases.monitor :=
       {| st_settings := st_settings m; st_userData := st_userData m;
          st_gitlabUserData := None;
          st_lastCommits := st_lastCommits m; st_unreadCount := st_unreadCount m;
          st_lastCheckTime := st_lastCheckTime m; st_lastError := st_lastError m |};
     Releases.lastReleases := Releases.lastReleases st |}.

(** [logout()] of [auth.js] *)
Definition logout (st : Releases.storage) : Releases.storage :=
  let m := Releases.monitor st in
  {| Releases.monitor :=
       {| st_settings := st_settings m; st_userData := None;
          st_gitlabUserData := None;
          st_lastCommits := None; st_unreadCount := st_unreadCount m;
          st_lastCheckTime := st_lastCheckTime m; st_lastError := st_lastError m |};
     Releases.lastReleases := None |}.

(** [setStorage({ lastReleases: {} })] *)
Definition resetReleaseCache (st : Releases.storage) : Releases.storage :=
  {| Releases.monitor := Releases.monitor st; Releases.lastReleases := Some ∅ |}.

End Handler.

(** ** More sample data *)

Module MoreSamples.
Import Samples.

(** A plain code commit with a low-urgency message. *)
Definition chore_commit : commit :=
  sample_commit "0a1b2c3d4e" "chore: rename helpers" (Some "hubot") ["a1"]
                [sample_file "src/util.c" 10 3].

(** A commit that comes without file information. *)
Definition bare_commit : commit :=
  {| sha := "9f8e7d6c5b"; message := "Hotfix the build"; author_name := Some "hubot";
     author := None; html_url := None; parents := Some ["a1"];
     files := None; commit_stats := None |}.

(** A [parseInt] that reads the two numbers the client falls back on. *)
Definition fallback_parseInt (s : string) : option Z :=
  if String.eqb s "0" then Some 0
  else if String.eqb s "5000" then Some 5000
  else None.

(** A server that answers every request without rate-limit headers. *)
Definition bare_response : response :=
  {| ok := true; status := 200;
     response_headers := {| h_remaining := None; h_reset := None; h_limit := None |};
     json := Returned Other |}.

Definition bare_server (url : string) : outcome response := Returned bare_response.

(** A server that reports an empty budget and no reset time. *)
Definition drained_response : response :=
  {| ok := true; status := 200;
     response_headers := {| h_remaining := Some "0"; h_reset := None; h_limit := None |};
     json := Returned Other |}.

Definition drained_server (url : string) : outcome response := Returned drained_response.

Definition hubot : user := {| login := Some "hubot" |}.

(** The sample storage with another user signed in. *)
Definition hubot_storage : Monitoring.storage :=
  {| Monitoring.st_settings := sample_settings;
     Monitoring.st_userData := Some hubot;
     Monitoring.st_gitlabUserData := None;
     Monitoring.st_lastCommits := Some {[ "github:octo/app" := "000000" ]};
     Monitoring.st_unreadCount := Some 2;
     Monitoring.st_lastCheckTime := None;
     Monitoring.st_lastError := None |}.

Definition gitlab_repo (name : string) : repo :=
  {| full_name := name; default_branch := "main";
     platform := Some "gitlab"; fork := false |}.

Definition gitlab_head : gitlab_commit :=
  {| gl_id := "5e6f7a8b9c"; gl_message := "chore: tidy the pipeline";
     gl_author_name := Some "Mona Lisa"; gl_web_url := None;
     gl_parent_ids := Some ["a1"] |}.

(** A GitLab that lists [gitlab_head] and refuses the diff. *)
Definition gitlab_without_diff (endpoint : string) : outcome response :=
  if JS.includes endpoint "/diff"
  then Returned {| ok := false; status := 500;
                   response_headers := {| h_remaining := None; h_reset := None;
                                          h_limit := None |};
                   json := Threw BadBody |}
  else Returned (sample_response (GitLabCommits [gitlab_head])).

(** A fork, as the API lists it. *)
Definition forked_repo : repo :=
  {| full_name := "mona/app"; default_branch := "main";
     platform := None; fork := true |}.

(** A GitHub whose repository list is one page of two. *)
Definition first_of_pages (i : nat) : list repo :=
  if (i =? 1)%nat then [sample_repo; forked_repo] else [].

Definition one_page (endpoint : string) : outcome response :=
  if String.eqb endpoint (Repositories.repos_endpoint 1)
  then Returned (sample_response (Repos (first_of_pages 1)))
  else Returned (sample_response (Repos [])).

(** A GitHub that cannot be reached after the first page. *)
Definition second_page_fails (endpoint : string) : outcome response :=
  if String.eqb endpoint (Repositories.repos_endpoint 1)
  then Returned (sample_response (Repos (first_of_pages 1)))
  else Threw NetworkFailure.

(** A repository name of 45 code units, and the unit of the ellipsis. *)
Definition long_name : list N := repeat 97%N 45.

Definition ellipsis : N := 8230%N.

(** An inbox of eight notifications, seven of them important. *)
Definition sample_notification (k : nat) : Inbox.notification :=
  {| Inbox.id := JS.decimal k;
     Inbox.subject_type := if (k =? 3)%nat then "Discussion" else "PullRequest";
     Inbox.reason := if (k =? 5)%nat then "mention" else "subscribed" |}.

Definition sample_inbox : list Inbox.notification := map sample_notification (seq 1 8).

Definition inbox_server (endpoint : string)
    : outcome (reply (list Inbox.notification)) :=
  Returned {| reply_ok := true; reply_status := 200; reply_json := Returned sample_inbox |}.

(** A GitHub on which [octo/app] has tags and no release, and every
    other repository the release 4711. *)
Definition sample_release : Releases.release :=
  {| Releases.id := Releases.Num 4711;
     Releases.tag_name := Some "v2.0.0";
     Releases.release_name := Some "Second edition";
     Releases.release_url := Some "https://github.com/octo/api/releases/tag/v2.0.0";
     Releases.prerelease := false;
     Releases.isTag := false;
     Releases.release_author := Some mona |}.

Definition sample_tag : Releases.github_tag :=
  {| Releases.tag := "v0.9.1"; Releases.tag_commit_sha := "9a8b7c6d" |}.

Definition release_github (endpoint : string) : outcome (reply Releases.body) :=
  if JS.includes endpoint "/releases/latest" then
    if JS.includes endpoint "octo/app"
    then Returned {| reply_ok := false; reply_status := 404; reply_json := Threw BadBody |}
    else Returned {| reply_ok := true; reply_status := 200;
                     reply_json := Returned (Releases.OneRelease sample_release) |}
  else Returned {| reply_ok := true; reply_status := 200;
                   reply_json := Returned (Releases.Tags [sample_tag]) |}.

Definition release_gitlab (endpoint : string) : outcome (reply Releases.body) :=
  Threw NotAuthenticated.

(** The tag 0000 of [octo/app] was seen before. *)
Definition release_storage : Releases.storage :=
  {| Releases.monitor := sample_storage;
     Releases.lastReleases := Some {[ "github:octo/app" := Releases.Str "0000" ]} |}.

(** Signed in to both platforms, with a commit known on each. *)
Definition both_storage : Releases.storage :=
  {| Releases.monitor :=
       {| Monitoring.st_settings := sample_settings;
          Monitoring.st_userData := Some mona;
          Monitoring.st_gitlabUserData := Some hubot;
          Monitoring.st_lastCommits :=
            Some {[ "github:octo/app" := "000000"; "gitlab:octo/app" := "111111" ]};
          Monitoring.st_unreadCount := None;
          Monitoring.st_lastCheckTime := None;
          Monitoring.st_lastError := None |};
     Releases.lastReleases := None |}.

(** Nothing listed yet. *)
Definition empty_listing : Directory.listing :=
  {| Directory.listed := None; Directory.listedAt := None |}.

End MoreSamples.

(** * Properties of the classifier *)

Section ClassifierFacts.
Import Regex CommitAnalysis.

Lemma merge_parents_ge2 (c : commit) (ps : list string) :
  parents c = Some ps -> (2 <= length ps)%nat ->
  merge_parents c = Some (length ps).
Proof.
  intros Hps Hlen. unfold merge_parents. rewrite Hps.
  destruct (Nat.leb_spec 2 (length ps)); [reflexivity | lia].
Qed.

(** The critical files only grow along the scan. *)
Lemma scan_grows (fs : list file) (acc : list critical_file * Z) :
  (length acc.1 <= length (fold_left scan_file fs acc).1)%nat.
Proof.
  revert acc. induction fs as [|f fs IH]; intros acc; simpl; [lia|].
  etransitivity; [|apply IH].
  unfold scan_file. destruct (first_critical (filename f)); simpl; [|lia].
  rewrite length_app. simpl. lia.
Qed.

Lemma scan_finds (fs : list file) (f : file) (acc : list critical_file * Z) :
  f ∈ fs -> first_critical (filename f) <> None ->
  (0 < length (fold_left scan_file fs acc).1)%nat.
Proof.
  revert acc. induction fs as [|g fs IH]; intros acc Hin Hcrit.
  - inversion Hin.
  - simpl. apply elem_of_cons in Hin as [->|Hin].
    + eapply Nat.lt_le_trans; [|apply scan_grows].
      unfold scan_file. destruct (first_critical (filename g)); [|congruence].
      simpl. rewrite length_app. simpl. lia.
    + now apply IH.
Qed.

Lemma first_critical_some (name : string) (cp : critical_pattern) :
  In cp criticalPatterns -> test (pat cp) name = true ->
  first_critical name <> None.
Proof.
  intros Hin Htest Hnone. unfold first_critical in Hnone.
  pose proof (find_none _ _ Hnone cp Hin) as Hno. simpl in Hno. congruence.
Qed.

Lemma first_family_head (fams : list (kind * list pattern)) (name : string) :
  first_family fams name =
  hd code (map fst (List.filter (fun fam => some_test fam.2 name) fams)).
Proof.
  induction fams as [|[k ps] fams IH]; simpl; [reflexivity|].
  destruct (some_test ps name); simpl; [reflexivity | exact IH].
Qed.

Lemma bump_counted (k : kind) (c : counts) : counted (bump k c) = S (counted c).
Proof. destruct k; unfold counted; simpl; lia. Qed.

Lemma count_files_from (fs : list file) (c : counts) :
  counted (fold_left (fun c f => bump (categorize (filename f)) c) fs c)
  = (counted c + length fs)%nat.
Proof.
  revert c. induction fs as [|f fs IH]; intros c; simpl; [lia|].
  rewrite IH, bump_counted. lia.
Qed.

Example login_file_is_high :
  classifyCommitPriority Samples.login_commit Samples.sample_repo None = high.
Proof. reflexivity. Qed.

Example readme_is_docs_and_low :
  type (analyzeCommitType Samples.readme_commit) = docs /\
  classifyCommitPriority Samples.readme_commit Samples.sample_repo None = low.
Proof. split; reflexivity. Qed.

Example requirements_file_counts_as_docs :
  matching_families "requirements.txt" = [docs; config] /\
  categorize "requirements.txt" = docs.
Proof. split; reflexivity. Qed.

(** C3. A commit with two or more parents is analysed as [merge] and
    classified [low], whatever its files, stats and message. *)
Theorem merge_commit_is_low (c : commit) (ps : list string) (r : repo) (u : option user) :
  parents c = Some ps -> (2 <= length ps)%nat ->
  type (analyzeCommitType c) = merge /\ classifyCommitPriority c r u = low.
Proof.
  intros Hps Hlen.
  pose proof (merge_parents_ge2 c ps Hps Hlen) as Hm.
  unfold classifyCommitPriority, analyzeCommitType. rewrite Hm. simpl.
  split; reflexivity.
Qed.


Lemma merge_commit_is_low_witness :
  type (analyzeCommitType Samples.merge_commit) = merge /\
  classifyCommitPriority Samples.merge_commit Samples.sample_repo None = low.
Proof.
  apply (merge_commit_is_low Samples.merge_commit ["a1"; "b2"]).
  - reflexivity.
  - simpl. lia.
Defined.

(** C6. On a code commit on which no high-priority rule fires, one
    changed file that matches a critical pattern makes the priority
    [medium], whatever low-urgency words the message holds. *)
Theorem critical_file_before_low_keywords (c : commit) (r : repo) (u : option user) :
  type (analyzeCommitType c) = code ->
  (forall w, maxWeight (analyzeCriticalFiles (files c)) = Some w -> w < 3) ->
  (length (criticalFiles (analyzeCriticalFiles (files c))) < 3)%nat ->
  (forall fs, files c = Some fs -> hasLargeDeletions fs = false) ->
  (length (criticalFiles (analyzeCriticalFiles (files c))) < 2)%nat ->
  mentions HIGH_PRIORITY_KEYWORDS (JS.toLowerCase (message c)) = false ->
  (exists fs f cp, files c = Some fs /\ f ∈ fs /\
                   In cp criticalPatterns /\ test (pat cp) (filename f) = true) ->
  classifyCommitPriority c r u = medium.
Proof.
  intros Htype Hweight Hthree Hdel Htwo Hkw (fs & f & cp & Hfs & Hin & Hcp & Htest).
  unfold classifyCommitPriority.
  destruct (analyzeCommitType c) as [ty det]. simpl in Htype. subst ty.
  change (bool_decide (code ∈ [merge; docs; config; ci; localization])) with false.
  change (bool_decide (code = tests)) with false.
  cbv iota beta.
  assert (Hsome : (0 < length (criticalFiles (analyzeCriticalFiles (files c))))%nat).
  { rewrite Hfs. destruct fs as [|g fs]; [inversion Hin|].
    unfold analyzeCriticalFiles.
    pose proof (scan_finds (g :: fs) f ([], 0) Hin
                  (first_critical_some _ cp Hcp Htest)) as Hpos.
    destruct (fold_left scan_file (g :: fs) ([], 0)) as [cfs mw]. exact Hpos. }
  specialize (Hdel fs Hfs).
  revert Hweight Hthree Htwo Hsome. rewrite Hfs.
  destruct fs as [|g fs]; [inversion Hin|].
  unfold analyzeCriticalFiles.
  destruct (fold_left scan_file (g :: fs) ([], 0)) as [cfs mw].
  cbn [hasCritical criticalFiles maxWeight isHighPriority JS.truthy_opt id].
  intros Hweight Hthree Htwo Hsome.
  specialize (Hweight mw eq_refl).
  destruct (Z.leb_spec 3 mw); [lia|].
  destruct (Nat.leb_spec 3 (length cfs)); [lia|].
  cbn [orb]. rewrite Hdel.
  destruct (Nat.leb_spec 2 (length cfs)); [lia|].
  rewrite andb_false_r. rewrite Hkw.
  destruct (Nat.ltb_spec 0 (length cfs)); [reflexivity | lia].
Qed.

Lemma critical_file_before_low_keywords_witness :
  mentions lowKeywords (JS.toLowerCase (message Samples.refactor_commit)) = true /\
  classifyCommitPriority Samples.refactor_commit Samples.sample_repo None = medium.
Proof.
  split; [reflexivity|].
  apply critical_file_before_low_keywords.
  - reflexivity.
  - intros w Hw. vm_compute in Hw. injection Hw as <-. lia.
  - vm_compute. lia.
  - intros fs Hfs. injection Hfs as <-. reflexivity.
  - vm_compute. lia.
  - reflexivity.
  - exists [Samples.sample_file "src/routes/index.c" 10 3; Samples.sample_file "src/util.c" 2 1],
           (Samples.sample_file "src/routes/index.c" 10 3),
           (crit (Contains (plural_dir "route")) api 1).
    split; [reflexivity|]. split; [left|].
    split; [|reflexivity].
    unfold criticalPatterns. do 19 right. left. reflexivity.
Defined.

(** [toLowerCase] turns the Kelvin sign into the letter k: the message
    of [kelvin_commit] does hold a high-priority keyword, and the commit
    is [high]. *)
Example kelvin_sign_is_a_k :
  JS.toLowerCase (message Samples.kelvin_commit)
  = "breaking change: refactor the route table" /\
  mentions HIGH_PRIORITY_KEYWORDS (JS.toLowerCase (message Samples.kelvin_commit)) = true /\
  classifyCommitPriority Samples.kelvin_commit Samples.sample_repo None = high.
Proof. split; [|split]; reflexivity. Qed.



(** C10. The priority depends only on the parents, files, stats and
    message of the commit: not on the repository, not on the user. *)
Theorem priority_ignores_repo_and_user (c c' : commit) (r r' : repo) (u u' : option user) :
  parents c = parents c' -> files c = files c' ->
  commit_stats c = commit_stats c' -> message c = message c' ->
  classifyCommitPriority c r u = classifyCommitPriority c' r' u'.
Proof.
  intros Hp Hf Hs Hm.
  unfold classifyCommitPriority, analyzeCommitType, merge_parents, stat.
  rewrite Hp, Hf, Hs, Hm. reflexivity.
Qed.

Lemma priority_ignores_repo_and_user_witness :
  classifyCommitPriority Samples.refactor_commit Samples.sample_repo None =
  classifyCommitPriority Samples.refactor_commit
    {| full_name := "group/other"; default_branch := "trunk";
       platform := Some "gitlab"; fork := true |}
    (Some {| login := Some "mona" |}).
Proof.
  apply priority_ignores_repo_and_user; reflexivity.
Defined.

End ClassifierFacts.

(** * Properties of the API clients *)

Section ClientFacts.
Import Api.

Variable parseInt : string -> option Z.
Variable fetch : string -> outcome response.

Lemma before_reset (now : N) (reset : Z) :
  Z.of_N now < 1000 * reset ->
  JS.num_lt (inject_Z (Z.of_N now) / 1000) (inject_Z reset) = true.
Proof.
  intros Hlt. unfold JS.num_lt. apply negb_true_iff.
  destruct (Qle_bool (inject_Z reset) (inject_Z (Z.of_N now) / 1000)) eqn:E;
    [|reflexivity].
  apply Qle_bool_iff in E. unfold Qle in E. simpl in E. lia.
Qed.

(** The minutes to wait, the ceiling of the seconds left over 60, in
    terms of the milliseconds left. *)
Lemma wait_minutes (now : N) (reset : Z) :
  Qceiling ((inject_Z reset - inject_Z (Z.of_N now) / 1000) / 60)
  = (1000 * reset - Z.of_N now + 59999) / 60000.
Proof.
  unfold Qceiling, Qfloor.
  cbn [Qopp Qdiv Qmult Qinv Qminus Qplus inject_Z Qnum Qden Pos.mul].
  replace (- ((reset * 1000 + - (Z.of_N now * 1) * 1) * 1))
    with (- (1000 * reset - Z.of_N now)) by lia.
  Z.div_mod_to_equations. lia.
Qed.

Lemma wait_positive (now : N) (reset : Z) :
  Z.of_N now < 1000 * reset ->
  0 < (1000 * reset - Z.of_N now + 59999) / 60000.
Proof. intros Hlt. Z.div_mod_to_equations. lia. Qed.

Lemma fetchApi_limited (p : platform_api) (token : string) (now : N)
    (endpoint : string) (st : client) (rem reset : Z) :
  JS.truthy_string token = true ->
  rateLimitRemaining st = Some rem -> rem <= 10 ->
  rateLimitReset st = Some reset -> Z.of_N now < 1000 * reset ->
  fetchApi parseInt fetch p (Some token) now endpoint st
  = (Threw (RateLimited ((1000 * reset - Z.of_N now + 59999) / 60000)), st).
Proof.
  intros Htok Hrem Hle Hreset Hnow.
  unfold fetchApi. simpl. rewrite Htok, Hrem, Hreset. simpl.
  destruct (Z.leb_spec rem 10); [|lia].
  assert (Hnz : JS.truthy_num reset = true).
  { unfold JS.truthy_num. apply negb_true_iff, Z.eqb_neq. lia. }
  rewrite Hnz. simpl. rewrite (before_reset now reset Hnow).
  rewrite wait_minutes. reflexivity.
Qed.

Lemma fetchApi_no_token (p : platform_api) (token : option string) (now : N)
    (endpoint : string) (st : client) :
  JS.truthy_opt JS.truthy_string token = false ->
  fetchApi parseInt fetch p token now endpoint st = (Threw NotAuthenticated, st).
Proof. intros Htok. unfold fetchApi. rewrite Htok. reflexivity. Qed.


End ClientFacts.



Example an_hour_is_sixty_minutes :
  Api.fetchGitHub Samples.sample_parseInt Samples.sample_github
    (Some "ghp_token") Samples.sample_now "/user" Samples.exhausted
  = (Threw (RateLimited 60), Samples.exhausted).
Proof. reflexivity. Qed.

(** * Properties of the repository directory *)

Section PagingFacts.
Import Repositories.

Variable item : Type.
Variable fetchPage : string -> outcome response.
Variable endpoint_of : nat -> string.
Variable read : response -> outcome (list item).
Variable keep : list item -> list repo.
Variable failure : string.

Hypothesis keep_length : forall l, (length (keep l) <= length l)%nat.

Local Abbreviation loop := (paginate item fetchPage endpoint_of read keep failure).

Lemma requested_next (p : nat) :
  map endpoint_of (seq 1 p) ++ [endpoint_of (S p)] = map endpoint_of (seq 1 (S p)).
Proof. rewrite seq_S, map_app. reflexivity. Qed.

(** The loop from any of its states: it stops within the fuel left for
    the pages up to 50, has then requested the pages 1 to [k] in order,
    and has gathered at most [100 * k] repositories. *)
Lemma paginate_bounded (fuel : nat) (st : paging) :
  hasMore st = true -> (1 <= page st <= 50)%nat ->
  (51 - page st <= fuel)%nat ->
  requested st = map endpoint_of (seq 1 (page st - 1)) ->
  exists out k,
    loop fuel st = Some (out, map endpoint_of (seq 1 k)) /\
    (k <= 50)%nat /\
    (pages_within item fetchPage endpoint_of read 100 ->
     (length (repos st) <= 100 * (page st - 1))%nat ->
     forall rs, out = Returned rs -> (length rs <= 100 * k)%nat).
Proof.
  revert st. induction fuel as [|fuel IH]; intros st Hmore Hpage Hfuel Hreq; [lia|].
  simpl. rewrite Hmore. simpl.
  assert (Hnext : requested st ++ [endpoint_of (page st)]
                  = map endpoint_of (seq 1 (page st))).
  { rewrite Hreq. destruct (page st) as [|p]; [lia|].
    replace (S p - 1)%nat with p by lia. apply requested_next. }
  rewrite Hnext.
  destruct (fetchPage (endpoint_of (page st))) as [resp|e] eqn:Hfetch.
  2:{ exists (Threw e), (page st). split; [reflexivity|]. split; [lia|]. discriminate. }
  destruct (ok resp) eqn:Hok; simpl.
  2:{ eexists _, (page st). split; [reflexivity|]. split; [lia|]. discriminate. }
  destruct (read resp) as [pageRepos|e] eqn:Hread.
  2:{ exists (Threw e), (page st). split; [reflexivity|]. split; [lia|]. discriminate. }
  destruct (Nat.eqb_spec (length pageRepos) 0) as [Hempty|Hsome]; simpl.
  - (* an empty page: hasMore = false *)
    destruct (Nat.ltb_spec 50 (page st)); [lia|].
    exists (Returned (repos st)), (page st).
    split; [destruct fuel; reflexivity|]. split; [lia|].
    intros _ Hlen rs [= <-]. lia.
  - destruct (Nat.ltb_spec 50 (S (page st))) as [Hlast|Hgo].
    + (* page 50 was the last one allowed *)
      exists (Returned (repos st ++ keep pageRepos)), (page st).
      split; [reflexivity|]. split; [lia|].
      intros Hsmall Hlen rs [= <-]. rewrite length_app.
      pose proof (keep_length pageRepos).
      pose proof (Hsmall _ _ _ Hfetch Hok Hread). lia.
    + destruct (IH {| repos := repos st ++ keep pageRepos; page := S (page st);
                      hasMore := true;
                      requested := map endpoint_of (seq 1 (page st)) |})
        as (out & k & Hrun & Hk & Hbound); simpl; try lia; try reflexivity.
      { replace (page st - 0)%nat with (page st) by lia. reflexivity. }
      exists out, k. split; [exact Hrun|]. split; [exact Hk|].
      intros Hsmall Hlen rs Hout. apply (Hbound Hsmall); [|exact Hout].
      simpl. rewrite length_app.
      pose proof (keep_length pageRepos).
      pose proof (Hsmall _ _ _ Hfetch Hok Hread). lia.
Qed.

Lemma paginate_capped (fuel : nat) :
  (50 <= fuel)%nat ->
  exists out pages,
    loop fuel first_page = Some (out, map endpoint_of (seq 1 pages)) /\
    (pages <= 50)%nat /\
    (pages_within item fetchPage endpoint_of read 100 ->
     forall rs, out = Returned rs -> (length rs <= 5000)%nat).
Proof.
  intros Hfuel.
  destruct (paginate_bounded fuel first_page)
    as (out & k & Hrun & Hk & Hbound); simpl; try lia; try reflexivity.
  exists out, k. split; [exact Hrun|]. split; [exact Hk|].
  intros Hsmall rs Hout.
  pose proof (Hbound Hsmall ltac:(simpl; lia) rs Hout). lia.
Qed.

End PagingFacts.

Section DirectoryFacts.
Import Repositories.

Variable fetchGitHub : string -> outcome response.
Variable fetchGitLab : string -> outcome response.

Lemma keep_repos_length (s : settings) (pageRepos : list repo) :
  (length (keep_repos s pageRepos) <= length pageRepos)%nat.
Proof. unfold keep_repos. rewrite length_map. apply length_filter. Qed.

Lemma keep_projects_length (s : settings) (pageProjects : list gitlab_project) :
  (length (keep_projects s pageProjects) <= length pageProjects)%nat.
Proof. unfold keep_projects. rewrite length_map. apply length_filter. Qed.

Lemma repository_pages_within (n : nat) :
  repository_pages fetchGitHub n -> pages_within repo fetchGitHub repos_endpoint json_repos n.
Proof.
  intros Htyped page resp items Hfetch Hok. unfold json_repos, bind.
  destruct (json resp) as [body|e] eqn:Hjson; [|discriminate].
  destruct (Htyped page resp body Hfetch Hok Hjson) as (rs & -> & Hlen).
  intros [= <-]. exact Hlen.
Qed.

Lemma project_pages_within (n : nat) :
  project_pages fetchGitLab n ->
  pages_within gitlab_project fetchGitLab projects_endpoint json_projects n.
Proof.
  intros Htyped page resp items Hfetch Hok. unfold json_projects, bind.
  destruct (json resp) as [body|e] eqn:Hjson; [|discriminate].
  destruct (Htyped page resp body Hfetch Hok Hjson) as (ps & -> & Hlen).
  intros [= <-]. exact Hlen.
Qed.

(** C9, amended. [fetchUserRepositories] asks for 100 items a page, for
    the pages 1, 2, ... in order and for 50 pages at most, whatever the
    server answers: with fuel for 50 turns the loop ends. When the
    server keeps to the page size, every page being a list of at most
    100 repositories, at most 5000 repositories are returned. The same
    holds of [fetchGitLabProjects]. *)
Theorem pagination_is_capped (fuel : nat) (s : settings) :
  (50 <= fuel)%nat ->
  (exists out pages,
     fetchUserRepositories fetchGitHub fuel s
     = Some (out, map repos_endpoint (seq 1 pages)) /\
     (pages <= 50)%nat /\
     (forall page, JS.includes (repos_endpoint page) "per_page=100" = true) /\
     (repository_pages fetchGitHub 100 ->
      forall rs, out = Returned rs -> (length rs <= 5000)%nat)) /\
  (exists out pages,
     fetchGitLabProjects fetchGitLab fuel s
     = Some (out, map projects_endpoint (seq 1 pages)) /\
     (pages <= 50)%nat /\
     (forall page, JS.includes (projects_endpoint page) "per_page=100" = true) /\
     (project_pages fetchGitLab 100 ->
      forall rs, out = Returned rs -> (length rs <= 5000)%nat)).
Proof.
  intros Hfuel. split.
  - destruct (paginate_capped repo fetchGitHub repos_endpoint json_repos (keep_repos s)
                "Failed to fetch repositories" (keep_repos_length s) fuel Hfuel)
      as (out & pages & Hrun & Hpages & Hcap).
    exists out, pages. split; [exact Hrun|]. split; [exact Hpages|].
    split; [intros page; reflexivity|].
    intros Htyped. apply Hcap, repository_pages_within, Htyped.
  - destruct (paginate_capped gitlab_project fetchGitLab projects_endpoint json_projects
                (keep_projects s) "Failed to fetch GitLab projects"
                (keep_projects_length s) fuel Hfuel)
      as (out & pages & Hrun & Hpages & Hcap).
    exists out, pages. split; [exact Hrun|]. split; [exact Hpages|].
    split; [intros page; reflexivity|].
    intros Htyped. apply Hcap, project_pages_within, Htyped.
Qed.

End DirectoryFacts.

(** C9, as the claim states it, fails: the loop caps the pages it
    requests, not the entries of a page. From a server that puts 150
    repositories on every page it returns 7500 of them after 50
    requests. *)
Lemma oversized_pages_exceed_the_bound :
  exists rs,
    Repositories.fetchUserRepositories Samples.oversized_pages 50 Samples.sample_settings
    = Some (Returned rs, map Repositories.repos_endpoint (seq 1 50)) /\
    length rs = (50 * 150)%nat /\ (5000 < length rs)%nat.
Proof.
  eexists. split; [vm_compute; reflexivity|].
  split; [vm_compute; reflexivity | apply Nat.ltb_lt; vm_compute; reflexivity].
Qed.

Lemma pagination_is_capped_witness :
  exists out pages,
    Repositories.fetchUserRepositories Samples.full_pages 50 Samples.sample_settings
    = Some (out, map Repositories.repos_endpoint (seq 1 pages)) /\
    (pages <= 50)%nat /\
    forall rs, out = Returned rs -> (length rs <= 5000)%nat.
Proof.
  destruct (pagination_is_capped Samples.full_pages Samples.sample_gitlab
              50 Samples.sample_settings)
    as [(out & pages & Hrun & Hpages & _ & Hcap) _]; [lia|].
  exists out, pages. split; [exact Hrun|]. split; [exact Hpages|].
  apply Hcap. intros page resp body [= <-] _ [= <-].
  eexists. split; [reflexivity|]. apply Nat.leb_le. reflexivity.
Defined.

(** The cap is reached by a server that keeps serving full pages. *)
Example fifty_full_pages :
  exists rs,
    Repositories.fetchUserRepositories Samples.full_pages 50 Samples.sample_settings
    = Some (Returned rs, map Repositories.repos_endpoint (seq 1 50)) /\
    length rs = 5000%nat.
Proof. eexists. split; vm_compute; reflexivity. Qed.

(** * Properties of the notification history *)

Section HistoryFacts.
Import Notifications.

Variable notification : Type.

Local Abbreviation entry := (Notifications.entry notification).

Lemma store_unfold (n : notification) (now : N) (history : option (list entry)) :
  storeNotificationHistory notification n now history
  = take 100 ({| fields := n; timestamp := now |} :: default [] history).
Proof. reflexivity. Qed.

(** Trimming before the next insertion loses nothing the trim after it
    would keep. *)
Lemma take_cons_take (e : entry) (h : list entry) :
  take 100 (e :: take 100 h) = take 100 (e :: h).
Proof.
  change (take 100 (e :: take 100 h)) with (e :: take 99 (take 100 h)).
  change (take 100 (e :: h)) with (e :: take 99 h).
  f_equal. rewrite take_take. reflexivity.
Qed.

Lemma storeAll_trimmed (ns : list (notification * N)) (h : list entry) :
  storeAll ns (Some (take 100 h))
  = Some (take 100 (reverse (map stamp ns) ++ h)).
Proof.
  revert h. induction ns as [|n ns IH]; intros h; [reflexivity|].
  unfold storeAll in *. simpl. rewrite store_unfold. simpl default.
  rewrite take_cons_take.
  change ({| fields := n.1; timestamp := n.2 |}) with (stamp n).
  rewrite IH. rewrite reverse_cons, <- app_assoc. reflexivity.
Qed.

Lemma storeAll_any (n : notification * N) (ns : list (notification * N))
    (history : option (list entry)) :
  storeAll (n :: ns) history
  = Some (take 100 (reverse (map stamp (n :: ns)) ++ default [] history)).
Proof.
  unfold storeAll. simpl. rewrite store_unfold.
  change ({| fields := n.1; timestamp := n.2 |}) with (stamp n).
  pose proof (storeAll_trimmed ns (stamp n :: default [] history)) as H.
  unfold storeAll in H. rewrite H.
  rewrite reverse_cons, <- app_assoc. reflexivity.
Qed.

Lemma descending_take (n : nat) (ts : list N) :
  Sorted N.le ts -> StronglySorted (flip N.le) (take n (reverse ts)).
Proof.
  intros Hup. apply Sorted_reverse in Hup.
  apply Sorted_StronglySorted in Hup.
  2:{ intros a b c Hab Hbc. unfold flip in *. lia. }
  rewrite <- (take_drop n (reverse ts)) in Hup.
  eapply StronglySorted_app_1_l. exact Hup.
Qed.

(** C5, amended. After more than 100 insertions the stored history
    holds exactly 100 entries: the 100 inserted last, the newest first.
    Their timestamps descend when the clock read at each insertion never
    went back. *)
Theorem history_holds_last_hundred (ns : list (notification * N))
    (history : option (list entry)) :
  (100 < length ns)%nat ->
  exists kept,
    storeAll ns history = Some kept /\
    length kept = 100%nat /\
    kept = take 100 (reverse (map stamp ns)) /\
    (Sorted N.le (map snd ns) ->
     StronglySorted (flip N.le) (map timestamp kept)).
Proof.
  intros Hlen. destruct ns as [|n ns]; [simpl in Hlen; lia|].
  exists (take 100 (reverse (map stamp (n :: ns)))).
  assert (Hlong : (100 <= length (reverse (map stamp (n :: ns))))%nat).
  { rewrite length_reverse, length_map. lia. }
  split.
  { rewrite storeAll_any. rewrite take_app_le by exact Hlong. reflexivity. }
  split; [apply length_take_le, Hlong|].
  split; [reflexivity|].
  intros Hclock.
  change (map timestamp) with (fmap (M:=list) (@timestamp notification)).
  rewrite fmap_take, fmap_reverse.
  replace (timestamp <$> map stamp (n :: ns)) with (map snd (n :: ns)).
  - now apply descending_take.
  - clear. induction (n :: ns) as [|[a t] l IH]; [reflexivity|].
    simpl. f_equal. exact IH.
Qed.

End HistoryFacts.

(** C5, as the claim states it, fails: the history is ordered by
    insertion, not by timestamp. After 102 insertions, the last of them
    made with the clock set back, the newest entry comes first and bears
    an older timestamp than the entry behind it. *)
Lemma clock_set_back_breaks_the_order :
  (100 < length Samples.clock_set_back)%nat /\
  exists newest second rest,
    Notifications.storeAll Samples.clock_set_back Samples.sample_history
    = Some (newest :: second :: rest) /\
    length (newest :: second :: rest) = 100%nat /\
    Notifications.fields newest = 102%nat /\
    (Notifications.timestamp newest < Notifications.timestamp second)%N /\
    ~ StronglySorted (flip N.le)
        (map Notifications.timestamp (newest :: second :: rest)).
Proof.
  split; [apply Nat.ltb_lt; reflexivity|].
  eexists _, _, _. split; [vm_compute; reflexivity|].
  split; [reflexivity|]. split; [reflexivity|]. split; [reflexivity|].
  intros Hsorted. cbn [map] in Hsorted.
  apply StronglySorted_inv in Hsorted as [_ Hall].
  apply Forall_inv in Hall. unfold flip in Hall. vm_compute in Hall.
  apply Hall. reflexivity.
Qed.

Lemma history_holds_last_hundred_witness :
  exists kept,
    Notifications.storeAll Samples.sample_insertions Samples.sample_history = Some kept /\
    length kept = 100%nat /\
    kept = take 100 (reverse (map Notifications.stamp Samples.sample_insertions)) /\
    StronglySorted (flip N.le) (map Notifications.timestamp kept).
Proof.
  destruct (history_holds_last_hundred nat Samples.sample_insertions Samples.sample_history)
    as (kept & Hrun & Hlen & Hkept & Hsorted).
  - apply Nat.ltb_lt. reflexivity.
  - exists kept. split; [exact Hrun|]. split; [exact Hlen|]. split; [exact Hkept|].
    apply Hsorted. apply (bool_decide_unpack _). vm_compute. exact I.
Defined.

(** * Properties of the change detector and of the sweep *)

Section MonitoringFacts.
Import Monitoring.

Variable fetchGitHub : string -> outcome response.
Variable fetchGitLab : string -> outcome response.
Variable encodeURIComponent : string -> outcome string.

Local Abbreviation fetchLatestCommit :=
  (Monitoring.fetchLatestCommit fetchGitHub fetchGitLab encodeURIComponent).
Local Abbreviation check :=
  (checkRepoForNewCommits fetchGitHub fetchGitLab encodeURIComponent).
Local Abbreviation sweep :=
  (checkAllRepositoriesForCommits fetchGitHub fetchGitLab encodeURIComponent).

(** *** No exception leaves a check *)

Lemma catch_returns {A} (m : outcome A) (a0 : A) :
  exists a, catch m (fun _ => Returned a0) = Returned a.
Proof. destruct m; simpl; eauto. Qed.

Lemma fetchLatestCommit_returns (r : repo) (lastKnownSha : option string) :
  exists latest, fetchLatestCommit r lastKnownSha = Returned latest.
Proof.
  unfold Monitoring.fetchLatestCommit, fetchLatestGitLabCommit, fetchLatestGitHubCommit.
  destruct (is_gitlab r); apply catch_returns.
Qed.

Lemma check_returns (r : repo) (lastCommits : gmap string string) (s : settings)
    (u g : option user) :
  exists res, check r lastCommits s u g = Returned res.
Proof.
  unfold checkRepoForNewCommits.
  destruct (fetchLatestCommit_returns r (last_known lastCommits r)) as [latest ->].
  simpl. repeat case_match; eauto.
Qed.

Lemma check_settled (r : repo) (lastCommits : gmap string string) (s : settings)
    (u g : option user) :
  check r lastCommits s u g = Returned (settled (check r lastCommits s u g)).
Proof. destruct (check_returns r lastCommits s u g) as [res ->]. reflexivity. Qed.

(** A result carries the repository checked and its key. *)
Lemma check_key (r : repo) (lastCommits : gmap string string) (s : settings)
    (u g : option user) (res : result) :
  check r lastCommits s u g = Returned (Some res) ->
  repoKey res = key_of r /\ res_repo res = r.
Proof.
  unfold checkRepoForNewCommits.
  destruct (fetchLatestCommit_returns r (last_known lastCommits r)) as [latest ->].
  simpl. repeat case_match; intros [= <-]; split; reflexivity.
Qed.

Lemma key_of_truthy (r : repo) : JS.truthy_string (key_of r) = true.
Proof.
  unfold key_of, JS.or_default.
  destruct (platform r) as [[|c p]|]; reflexivity.
Qed.

(** A failed list request leaves nothing to report. *)
Lemma failed_fetch_is_none (r : repo) (lastKnownSha : option string) :
  list_fails fetchGitHub fetchGitLab encodeURIComponent r ->
  fetchLatestCommit r lastKnownSha = Returned None.
Proof.
  unfold list_fails, list_request, Monitoring.fetchLatestCommit,
    fetchLatestGitLabCommit, fetchLatestGitHubCommit.
  destruct (is_gitlab r).
  - destruct (encodeURIComponent (full_name r)) as [projectId|e]; simpl; [|reflexivity].
    destruct (fetchGitLab _) as [resp|e]; simpl; [|reflexivity].
    intros ->. simpl. destruct (status resp =? 404); reflexivity.
  - destruct (fetchGitHub _) as [resp|e]; simpl; [|reflexivity].
    intros ->. simpl. destruct (status resp =? 409); reflexivity.
Qed.

(** The fetchers flag a commit [unchanged] only when its sha is the last
    known one. *)
Lemma flagged_is_last_known (r : repo) (lastKnownSha : option string) (l : latest) :
  fetchLatestCommit r lastKnownSha = Returned (Some l) ->
  unchanged l = true ->
  same_sha lastKnownSha (sha (fetched l)) = true.
Proof.
  unfold Monitoring.fetchLatestCommit, fetchLatestGitLabCommit, fetchLatestGitHubCommit,
    json_commits, json_commit, json_gitlab_commits, catch, bind.
  intros Hfetch Hflag.
  repeat case_match; simplify_eq; simpl in *; try discriminate; assumption.
Qed.

Lemma same_sha_eq (lastKnownSha : option string) (latestSha : string) :
  same_sha lastKnownSha latestSha = true -> lastKnownSha = Some latestSha.
Proof.
  unfold same_sha. intros H. apply andb_true_iff in H as [_ H].
  apply bool_decide_eq_true in H. congruence.
Qed.

(** *** The batches *)

Lemma Promise_all_settled (lastCommits : gmap string string) (s : settings)
    (u g : option user) (batch : list repo) :
  Promise_all (map (fun r => check r lastCommits s u g) batch)
  = Returned (map (fun r => settled (check r lastCommits s u g)) batch).
Proof.
  induction batch as [|r batch IH]; [reflexivity|].
  simpl. rewrite IH. rewrite (check_settled r) at 1. reflexivity.
Qed.

(** The loop over the batches applies the results of all repositories,
    in the order of the list. *)
Lemma batches_flat (fuel : nat) (repos : list repo) (lastCommits : gmap string string)
    (s : settings) (u g : option user) (i : nat) (acc : progress) :
  (length repos - i <= fuel)%nat ->
  batches fetchGitHub fetchGitLab encodeURIComponent fuel repos lastCommits s u g i acc
  = Some (Returned
      (fold_left record_result
         (map (fun r => settled (check r lastCommits s u g)) (drop i repos)) acc)).
Proof.
  revert i acc. induction fuel as [|fuel IH]; intros i acc Hfuel.
  - simpl. destruct (Nat.ltb_spec i (length repos)); [lia|].
    rewrite drop_ge by lia. reflexivity.
  - simpl. destruct (Nat.ltb_spec i (length repos)).
    + rewrite Promise_all_settled. rewrite IH by (unfold batchSize; lia).
      rewrite <- fold_left_app, <- map_app.
      unfold JS.slice. replace (i + batchSize - i)%nat with batchSize by lia.
      rewrite <- drop_drop, take_drop. reflexivity.
    + rewrite drop_ge by lia. reflexivity.
Qed.

(** *** The stored shas *)

Lemma record_other (res : option result) (acc : progress) (k : string) :
  (forall x, res = Some x -> repoKey x <> k) ->
  (forall x, res = Some x -> JS.truthy_string (repoKey x) = true) ->
  updatedLastCommits (record_result acc res) !! k = updatedLastCommits acc !! k.
Proof.
  intros Hk Ht. destruct res as [x|]; [|reflexivity]. simpl.
  rewrite (Ht x eq_refl). apply lookup_insert_ne. exact (Hk x eq_refl).
Qed.

Lemma fold_other (lastCommits : gmap string string) (s : settings) (u g : option user)
    (rs : list repo) (acc : progress) (k : string) :
  k ∉ map key_of rs ->
  updatedLastCommits
    (fold_left record_result
       (map (fun r => settled (check r lastCommits s u g)) rs) acc) !! k
  = updatedLastCommits acc !! k.
Proof.
  revert acc. induction rs as [|r rs IH]; intros acc Hk; [reflexivity|].
  simpl in *. apply not_elem_of_cons in Hk as [Hr Hrs].
  rewrite IH by exact Hrs.
  apply record_other; intros x Hx;
    pose proof (check_settled r lastCommits s u g) as Hc;
    rewrite Hx in Hc; apply check_key in Hc as [Hkey _]; rewrite Hkey.
  - intros <-. contradiction.
  - apply key_of_truthy.
Qed.

Lemma fold_stores (lastCommits : gmap string string) (s : settings) (u g : option user)
    (rs : list repo) (acc : progress) (r : repo) (res : result) :
  NoDup (map key_of rs) -> r ∈ rs ->
  check r lastCommits s u g = Returned (Some res) ->
  updatedLastCommits
    (fold_left record_result
       (map (fun r => settled (check r lastCommits s u g)) rs) acc) !! key_of r
  = Some (sha (res_commit res)).
Proof.
  intros Hnodup Hin Hres.
  apply list_elem_of_split in Hin as (before & after & ->).
  rewrite map_app in Hnodup. simpl in Hnodup.
  apply NoDup_app in Hnodup as (_ & _ & Hafter).
  apply NoDup_cons in Hafter as [Hafter _].
  rewrite map_app, fold_left_app. simpl.
  rewrite fold_other by exact Hafter.
  rewrite Hres. simpl.
  destruct (check_key _ _ _ _ _ _ Hres) as [-> _].
  rewrite key_of_truthy. apply lookup_insert_eq.
Qed.

Lemma fold_new (lastCommits : gmap string string) (s : settings) (u g : option user)
    (rs : list repo) (acc : progress) :
  newCommits
    (fold_left record_result
       (map (fun r => settled (check r lastCommits s u g)) rs) acc)
  = newCommits acc ++
    filter (fun x => isNew x = true)
           (omap (fun r => settled (check r lastCommits s u g)) rs).
Proof.
  revert acc. induction rs as [|r rs IH]; intros acc; simpl.
  - rewrite app_nil_r. reflexivity.
  - rewrite IH. destruct (settled (check r lastCommits s u g)) as [x|]; simpl;
      [|reflexivity].
    rewrite filter_cons. destruct (isNew x) eqn:Hx.
    + rewrite decide_True by reflexivity. rewrite <- app_assoc. reflexivity.
    + rewrite decide_False by discriminate. reflexivity.
Qed.

(** A sweep that passes its two gates ends without an error and stores
    what the checks of all repositories gave. *)
Lemma sweep_runs (fuel : nat) (repos : list repo) (now : N) (st : storage) :
  notificationsEnabled (st_settings st) = true ->
  is_Some (st_userData st) \/ is_Some (st_gitlabUserData st) ->
  (length repos <= fuel)%nat ->
  let lastCommits := default ∅ (st_lastCommits st) in
  let done :=
    fold_left record_result
      (map (fun r => settled (check r lastCommits (st_settings st)
                                    (st_userData st) (st_gitlabUserData st))) repos)
      {| newCommits := []; updatedLastCommits := lastCommits |} in
  sweep fuel (Returned repos) now st = Some (finish st now done, newCommits done).
Proof.
  intros Hon Hid Hfuel. unfold checkAllRepositoriesForCommits.
  rewrite Hon. simpl negb. cbv iota.
  assert (Hgate : negb (bool_decide (is_Some (st_userData st))) &&
                  negb (bool_decide (is_Some (st_gitlabUserData st))) = false).
  { destruct Hid as [H|H].
    - rewrite (bool_decide_eq_true_2 _ H). reflexivity.
    - rewrite (bool_decide_eq_true_2 _ H). apply andb_false_r. }
  rewrite Hgate. rewrite batches_flat by lia. reflexivity.
Qed.

(** The sweep leaves alone the keys no result is recorded under. *)
Lemma fold_frame (lastCommits : gmap string string) (s : settings) (u g : option user)
    (rs : list repo) (acc : progress) (k : string) :
  (forall r, r ∈ rs -> key_of r = k -> check r lastCommits s u g = Returned None) ->
  updatedLastCommits
    (fold_left record_result
       (map (fun r => settled (check r lastCommits s u g)) rs) acc) !! k
  = updatedLastCommits acc !! k.
Proof.
  revert acc. induction rs as [|r rs IH]; intros acc Hk; [reflexivity|].
  simpl. rewrite IH by (intros r' Hr'; apply Hk; now right).
  apply record_other; intros x Hx;
    pose proof (check_settled r lastCommits s u g) as Hc;
    rewrite Hx in Hc;
    destruct (check_key _ _ _ _ _ _ Hc) as [Hkey _]; rewrite Hkey.
  - intros Heq. rewrite (Hk r ltac:(left) Heq) in Hc. discriminate.
  - apply key_of_truthy.
Qed.

(** A fetched commit with a sha other than the last known one gives a
    result, new unless it is a first observation or an own commit that
    is ignored. *)
Lemma check_reports (r : repo) (lastCommits : gmap string string) (s : settings)
    (u g : option user) (l : latest) :
  disabled s r = false ->
  fetchLatestCommit r (last_known lastCommits r) = Returned (Some l) ->
  unchanged l = false ->
  last_known lastCommits r <> Some (sha (fetched l)) ->
  exists x,
    check r lastCommits s u g = Returned (Some x) /\
    res_repo x = r /\ res_commit x = fetched l /\
    isNew x
    = JS.truthy_opt JS.truthy_string (last_known lastCommits r) &&
      negb (ignoreOwnCommits s &&
            own_commit (fetched l) (if is_gitlab r then g else u)).
Proof.
  intros Hen Hfetch Hflag Hdiff. unfold checkRepoForNewCommits.
  rewrite Hen, Hfetch. destruct l as [c flag]. simpl in *. subst flag.
  destruct (JS.truthy_opt JS.truthy_string (last_known lastCommits r)); simpl.
  - rewrite bool_decide_eq_false_2 by congruence. simpl.
    destruct (ignoreOwnCommits s && own_commit c (if is_gitlab r then g else u));
      eexists; (split; [reflexivity|]); auto.
  - eexists. split; [reflexivity|]. auto.
Qed.

Lemma same_key_same_repo (rs : list repo) (a b : repo) :
  NoDup (map key_of rs) -> a ∈ rs -> b ∈ rs -> key_of a = key_of b -> a = b.
Proof.
  induction rs as [|r rs IH]; intros Hnodup Ha Hb Hkey; [inversion Ha|].
  simpl in Hnodup. apply NoDup_cons in Hnodup as [Hfresh Hnodup].
  apply elem_of_cons in Ha as [->|Ha]; apply elem_of_cons in Hb as [->|Hb].
  - reflexivity.
  - exfalso. apply Hfresh. rewrite Hkey.
    change (map key_of rs) with (key_of <$> rs). now apply list_elem_of_fmap_2.
  - exfalso. apply Hfresh. rewrite <- Hkey.
    change (map key_of rs) with (key_of <$> rs). now apply list_elem_of_fmap_2.
  - now apply IH.
Qed.


(** C4. With [ignoreOwnCommits] on, a fetched commit whose sha differs
    from the last known one and whose author is the signed-in user of the
    repository's platform is returned with [isNew = false]; the sweep,
    over repositories that are answered in type, stores its sha under
    the repository's key and sends no notification for it. *)
Theorem own_commit_is_suppressed (fuel : nat) (repos : list repo) (now : N)
    (st : storage) (r : repo) (l : latest) (me : user) :
  let s := st_settings st in
  let lastCommits := default ∅ (st_lastCommits st) in
  ignoreOwnCommits s = true ->
  disabled s r = false ->
  fetchLatestCommit r (last_known lastCommits r) = Returned (Some l) ->
  last_known lastCommits r <> Some (sha (fetched l)) ->
  (if is_gitlab r then st_gitlabUserData st else st_userData st) = Some me ->
  author (fetched l) ≫= login = login me ->
  notificationsEnabled s = true ->
  r ∈ repos -> NoDup (map key_of repos) -> (length repos <= fuel)%nat ->
  let own := {| res_repo := r; res_commit := fetched l; isNew := false;
                res_priority := None; repoKey := key_of r |} in
  check r lastCommits s (st_userData st) (st_gitlabUserData st)
  = Returned (Some own) /\
  (forall acc,
     updatedLastCommits (record_result acc (Some own)) !! key_of r
     = Some (sha (fetched l)) /\
     newCommits (record_result acc (Some own)) = newCommits acc) /\
  ((forall r', r' ∈ repos ->
      typed_answers fetchGitHub fetchGitLab encodeURIComponent r') ->
   exists st' sent m,
     sweep fuel (Returned repos) now st = Some (st', sent) /\
     st_lastCommits st' = Some m /\
     m !! key_of r = Some (sha (fetched l)) /\
     (forall x, x ∈ sent -> repoKey x <> key_of r)).
Proof.
  intros s lastCommits Hignore Henabled Hfetch Hdiff Hme Hlogin Hon Hin Hnodup Hfuel.
  assert (Hcheck :
    check r lastCommits s (st_userData st) (st_gitlabUserData st)
    = Returned (Some {| res_repo := r; res_commit := fetched l; isNew := false;
                        res_priority := None; repoKey := key_of r |})).
  { unfold checkRepoForNewCommits. rewrite Henabled, Hfetch. simpl.
    destruct l as [c flag]. simpl in *. destruct flag.
    { apply flagged_is_last_known in Hfetch; [|reflexivity].
      apply same_sha_eq in Hfetch. contradiction. }
    destruct (JS.truthy_opt JS.truthy_string (last_known lastCommits r)); simpl;
      [|reflexivity].
    rewrite bool_decide_eq_false_2 by congruence. simpl.
    rewrite Hignore, Hme. unfold own_commit, JS.strict_eq.
    rewrite bool_decide_eq_true_2 by exact Hlogin. reflexivity. }
  split; [exact Hcheck|]. split.
  { intros acc. simpl. rewrite key_of_truthy.
    split; [apply lookup_insert_eq | reflexivity]. }
  intros _.
  assert (Hid : is_Some (st_userData st) \/ is_Some (st_gitlabUserData st)).
  { destruct (is_gitlab r); [right|left]; rewrite Hme; eauto. }
  eexists _, _, _. split; [apply (sweep_runs fuel repos now st Hon Hid Hfuel)|].
  split; [reflexivity|]. split.
  - apply (fold_stores _ _ _ _ _ _ r _ Hnodup Hin Hcheck).
  - intros x Hx Hkey. rewrite fold_new in Hx. simpl in Hx.
    apply list_elem_of_filter in Hx as [Hnew Hx].
    apply list_elem_of_omap in Hx as (r' & Hr' & Hres).
    pose proof (check_settled r' lastCommits s (st_userData st) (st_gitlabUserData st)) as Hc.
    fold s lastCommits in Hres. rewrite Hres in Hc.
    destruct (check_key _ _ _ _ _ _ Hc) as [Hk _].
    assert (r' = r) as -> by (eapply same_key_same_repo; eauto; congruence).
    rewrite Hcheck in Hc. injection Hc as <-. discriminate.
Qed.

(** C8. A failed list request (an exception, or a response that is not
    [ok], 404 and 409 among them) makes the check of that repository
    return [null]. Over repositories that are answered in type no check
    throws, so the sweep ends without an error: it leaves the entry of a
    repository whose list request failed as it was, stores the sha of
    every other repository whose fetched commit is not the last known
    one, and notifies those of them that are new. *)
Theorem fetch_failure_is_isolated (fuel : nat) (repos : list repo) (now : N)
    (st : storage) :
  let s := st_settings st in
  let lastCommits := default ∅ (st_lastCommits st) in
  let check_of r := check r lastCommits s (st_userData st) (st_gitlabUserData st) in
  notificationsEnabled s = true ->
  is_Some (st_userData st) \/ is_Some (st_gitlabUserData st) ->
  NoDup (map key_of repos) -> (length repos <= fuel)%nat ->
  (forall r, list_fails fetchGitHub fetchGitLab encodeURIComponent r ->
             check_of r = Returned None) /\
  ((forall r, r ∈ repos -> typed_answers fetchGitHub fetchGitLab encodeURIComponent r) ->
   (forall r, r ∈ repos -> exists res, check_of r = Returned res) /\
   exists st' sent m,
     sweep fuel (Returned repos) now st = Some (st', sent) /\
     st_lastError st' = st_lastError st /\
     st_lastCommits st' = Some m /\
     (forall r, r ∈ repos ->
        list_fails fetchGitHub fetchGitLab encodeURIComponent r ->
        m !! key_of r = lastCommits !! key_of r) /\
     (forall r l, r ∈ repos -> disabled s r = false ->
        fetchLatestCommit r (last_known lastCommits r) = Returned (Some l) ->
        unchanged l = false ->
        last_known lastCommits r <> Some (sha (fetched l)) ->
        m !! key_of r = Some (sha (fetched l)) /\
        (JS.truthy_opt JS.truthy_string (last_known lastCommits r) = true ->
         ignoreOwnCommits s &&
         own_commit (fetched l)
                    (if is_gitlab r then st_gitlabUserData st else st_userData st)
         = false ->
         exists x, x ∈ sent /\ res_repo x = r /\ res_commit x = fetched l /\
                   isNew x = true))).
Proof.
  intros s lastCommits check_of Hon Hid Hnodup Hfuel.
  assert (Hfails : forall r, list_fails fetchGitHub fetchGitLab encodeURIComponent r ->
                             check_of r = Returned None).
  { intros r Hfail. unfold check_of, checkRepoForNewCommits.
    destruct (disabled s r); [reflexivity|].
    rewrite (failed_fetch_is_none r _ Hfail). reflexivity. }
  split; [exact Hfails|]. intros _. split.
  { intros r _. apply check_returns. }
  eexists _, _, _. split; [apply (sweep_runs fuel repos now st Hon Hid Hfuel)|].
  split; [reflexivity|]. split; [reflexivity|]. split.
  - intros r Hin Hfail. simpl. fold s lastCommits.
    rewrite fold_frame; [reflexivity|].
    intros r' Hr' Hkey.
    assert (r' = r) as -> by (eapply same_key_same_repo; eauto).
    apply Hfails, Hfail.
  - intros r l Hin Hen Hfetch Hflag Hdiff.
    destruct (check_reports r lastCommits s (st_userData st) (st_gitlabUserData st) l
                Hen Hfetch Hflag Hdiff) as (x & Hres & Hrepo & Hcommit & Hnew).
    split.
    + simpl. fold s lastCommits.
      rewrite (fold_stores _ _ _ _ _ _ r x Hnodup Hin Hres). congruence.
    + intros Hknown Hnotown. exists x.
      rewrite Hknown, Hnotown in Hnew. simpl in Hnew.
      split; [|auto]. rewrite fold_new. simpl.
      apply list_elem_of_filter. split; [exact Hnew|].
      apply list_elem_of_omap. exists r. split; [exact Hin|].
      fold s lastCommits. fold (check_of r). unfold check_of. rewrite Hres. reflexivity.
Qed.

End MonitoringFacts.

Section MonitoringWitnesses.
Import Monitoring Samples.

Local Abbreviation sample_check :=
  (checkRepoForNewCommits sample_github sample_gitlab sample_encode).
Local Abbreviation sample_sweep :=
  (checkAllRepositoriesForCommits sample_github sample_gitlab sample_encode).

Lemma sample_keys_differ : NoDup (map key_of sample_repos).
Proof. apply (bool_decide_unpack _). vm_compute. exact I. Qed.

(** The sample GitHub answers the repositories of the batch in type. *)
Lemma sample_answers_typed (r : repo) :
  r ∈ sample_repos -> typed_answers sample_github sample_gitlab sample_encode r.
Proof.
  intros Hr. apply list_elem_of_In in Hr. simpl in Hr.
  repeat (destruct Hr as [<-|Hr];
    [unfold typed_answers, is_gitlab;
     rewrite bool_decide_eq_false_2 by discriminate;
     intros listResponse body Hlist _ Hjson;
     vm_compute in Hlist;
     first
       [ discriminate
       | injection Hlist as <-; vm_compute in Hjson; injection Hjson as <-;
         eexists; split; [reflexivity|];
         intros first detailResponse detail Hhead Hdetail _ Hbody;
         injection Hhead as <-; vm_compute in Hdetail; injection Hdetail as <-;
         vm_compute in Hbody; injection Hbody as <-; eexists; reflexivity ]|]).
  contradiction.
Qed.


Example first_observation_of_api :
  sample_check (github_repo "octo/api") {[ "github:octo/app" := "000000" ]}
               sample_settings (Some mona) None
  = Returned (Some {| res_repo := github_repo "octo/api";
                      res_commit := refactor_commit; isNew := false;
                      res_priority := None; repoKey := "github:octo/api" |}).
Proof. reflexivity. Qed.

Lemma own_commit_is_suppressed_witness :
  let own := {| res_repo := github_repo "octo/app";
                res_commit := refactor_commit; isNew := false;
                res_priority := None; repoKey := "github:octo/app" |} in
  sample_check (github_repo "octo/app") {[ "github:octo/app" := "000000" ]}
               sample_settings (Some mona) None
  = Returned (Some own) /\
  (forall acc,
     updatedLastCommits (record_result acc (Some own)) !! "github:octo/app"
     = Some "77ab10" /\
     newCommits (record_result acc (Some own)) = newCommits acc) /\
  exists st' sent m,
    sample_sweep 10%nat (Returned sample_repos) sample_now sample_storage
    = Some (st', sent) /\
    st_lastCommits st' = Some m /\
    m !! "github:octo/app" = Some "77ab10" /\
    (forall x, x ∈ sent -> repoKey x <> "github:octo/app").
Proof.
  destruct (own_commit_is_suppressed sample_github sample_gitlab sample_encode
              10 sample_repos sample_now sample_storage
              (github_repo "octo/app") (as_fetched refactor_commit) mona)
    as (Hcheck & Hrecorded & Hsweep).
  - reflexivity.
  - reflexivity.
  - reflexivity.
  - vm_compute. discriminate.
  - reflexivity.
  - reflexivity.
  - reflexivity.
  - left.
  - exact sample_keys_differ.
  - simpl. lia.
  - split; [exact Hcheck|]. split; [exact Hrecorded|].
    apply Hsweep. exact sample_answers_typed.
Defined.

(** The same commit by somebody else is new. *)
Example other_author_is_new :
  exists p,
    sample_check (github_repo "octo/app") {[ "github:octo/app" := "000000" ]}
                 sample_settings (Some {| login := Some "hubot" |}) None
    = Returned (Some {| res_repo := github_repo "octo/app";
                        res_commit := refactor_commit; isNew := true;
                        res_priority := Some p; repoKey := "github:octo/app" |}).
Proof. eexists. reflexivity. Qed.

Lemma fetch_failure_is_isolated_witness :
  let check_of r :=
    sample_check r {[ "github:octo/app" := "000000" ]} sample_settings (Some mona) None in
  list_fails sample_github sample_gitlab sample_encode (github_repo "octo/broken") /\
  check_of (github_repo "octo/broken") = Returned None /\
  (forall r, r ∈ sample_repos -> exists res, check_of r = Returned res) /\
  exists st' sent m,
    sample_sweep 10%nat (Returned sample_repos) sample_now sample_storage
    = Some (st', sent) /\
    st_lastError st' = None /\
    st_lastCommits st' = Some m /\
    m !! "github:octo/broken" = None /\
    Forall (fun r => m !! key_of r = Some "77ab10")
           (filter (fun r => full_name r <> "octo/broken") sample_repos).
Proof.
  intros check_of.
  assert (Hbroken : list_fails sample_github sample_gitlab sample_encode
                      (github_repo "octo/broken")) by exact I.
  destruct (fetch_failure_is_isolated sample_github sample_gitlab sample_encode
              10 sample_repos sample_now sample_storage)
    as (Hfails & Hrest).
  - reflexivity.
  - left. eexists. reflexivity.
  - exact sample_keys_differ.
  - simpl. lia.
  - destruct (Hrest sample_answers_typed)
      as (Hreturns & st' & sent & m & Hrun & Herror & Hm & Hfailed & Hstored).
    split; [exact Hbroken|]. split; [exact (Hfails _ Hbroken)|].
    split; [exact Hreturns|].
    exists st', sent, m. split; [exact Hrun|]. split; [exact Herror|].
    split; [exact Hm|]. split.
    + assert (Hin : github_repo "octo/broken" ∈ sample_repos)
        by (apply list_elem_of_In; simpl; tauto).
      etrans; [exact (Hfailed _ Hin Hbroken) | reflexivity].
    + apply Forall_forall. intros r Hr.
      apply list_elem_of_filter in Hr as [Hne Hr].
      assert (Hin := Hr). apply list_elem_of_In in Hr. simpl in Hr.
      repeat (destruct Hr as [<-|Hr];
        [first
           [ exfalso; apply Hne; reflexivity
           | apply (Hstored _ (as_fetched refactor_commit) Hin);
             [reflexivity | vm_compute; reflexivity | reflexivity
             | vm_compute; discriminate] ]|]).
      contradiction.
Defined.

(** The sweep over the sample batch sends no notification, the head
    commits being the user's own or seen for the first time. *)
Example sample_sweep_is_silent :
  exists st',
    sample_sweep 10%nat (Returned sample_repos) sample_now sample_storage = Some (st', []).
Proof. eexists. vm_compute. reflexivity. Qed.

End MonitoringWitnesses.

(** * Further properties of the classifier *)

Section ClassifierMore.
Import Regex CommitAnalysis Classifier.

Ltac in_families := apply list_elem_of_In; simpl; tauto.

Lemma counter_bump (k k' : kind) (c : counts) :
  k ∈ families ->
  counter k (bump k' c) = (counter k c + if decide (k' = k) then 1 else 0)%nat.
Proof.
  intros Hk. unfold families in Hk.
  repeat (apply elem_of_cons in Hk as [->|Hk]); [..|inversion Hk];
    destruct k'; simpl; lia.
Qed.

Lemma counter_fold (k : kind) (fs : list file) (c : counts) :
  k ∈ families ->
  counter k (fold_left (fun c f => bump (categorize (filename f)) c) fs c)
  = (counter k c
     + length (filter (fun f => categorize (filename f) = k) fs))%nat.
Proof.
  intros Hk. revert c. induction fs as [|f fs IH]; intros c; simpl; [lia|].
  rewrite IH, counter_bump by exact Hk. rewrite filter_cons.
  destruct (decide (categorize (filename f) = k)); simpl; lia.
Qed.

Lemma filter_all {A} (P : A -> Prop) `{forall x, Decision (P x)} (l : list A) :
  length (filter P l) = length l <-> Forall P l.
Proof.
  induction l as [|x l IH]; simpl.
  - split; [constructor | reflexivity].
  - rewrite filter_cons. pose proof (length_filter P l) as Hle.
    destruct (decide (P x)); simpl.
    + rewrite Forall_cons. split.
      * intros [= Hlen]. split; [assumption | now apply IH].
      * intros [_ Hall]. f_equal. now apply IH.
    + split; [lia|]. intros Hall. apply Forall_cons in Hall as [? _]. contradiction.
Qed.

Lemma counter_full (k : kind) (fs : list file) :
  k ∈ families ->
  counter k (count_files fs) = length fs <->
  Forall (fun f => categorize (filename f) = k) fs.
Proof.
  intros Hk. unfold count_files. rewrite counter_fold by exact Hk.
  replace (counter k no_counts) with 0%nat by (destruct k; reflexivity).
  simpl. apply filter_all.
Qed.

Lemma families_cases (k : kind) :
  k ∈ families ->
  k = docs \/ k = config \/ k = ci \/ k = tests \/ k = localization.
Proof.
  unfold families. intros Hk.
  repeat (apply elem_of_cons in Hk as [->|Hk]); [tauto..|inversion Hk].
Qed.

Lemma family_type_iff (c : commit) (k : kind) :
  k ∈ families ->
  type (analyzeCommitType c) = k <->
  merge_parents c = None /\ changed c <> [] /\
  Forall (fun f => categorize (filename f) = k) (changed c).
Proof.
  intros Hk. unfold analyzeCommitType, changed.
  destruct (merge_parents c) as [n|].
  { simpl. split; [|intros [[=] _]].
    intros <-. apply families_cases in Hk. intuition discriminate. }
  destruct (files c) as [[|f fs]|]; simpl.
  1,3: split; [|intros (_ & Hne & _); contradiction];
       intros <-; apply families_cases in Hk; intuition discriminate.
  set (all := f :: fs).
  assert (Hfull : forall j, j ∈ families ->
            counter j (count_files all) = length all <->
            Forall (fun f => categorize (filename f) = j) all)
    by (intros j Hj; now apply counter_full).
  assert (Hone : forall i j,
            Forall (fun f => categorize (filename f) = i) all ->
            Forall (fun f => categorize (filename f) = j) all -> i = j).
  { intros i j Hi Hj. apply Forall_cons in Hi as [Hi _].
    apply Forall_cons in Hj as [Hj _]. congruence. }
  pose proof (Hfull docs ltac:(in_families)) as Hd.
  pose proof (Hfull config ltac:(in_families)) as Hc.
  pose proof (Hfull ci ltac:(in_families)) as Hi.
  pose proof (Hfull tests ltac:(in_families)) as Ht.
  pose proof (Hfull localization ltac:(in_families)) as Hl.
  simpl counter in Hd, Hc, Hi, Ht, Hl.
  change (length all) with (S (length fs)) in *.
  assert (Hk' : counter k (count_files all) = S (length fs) <->
                Forall (fun f => categorize (filename f) = k) all)
    by now apply Hfull.
  destruct (Nat.eqb_spec (n_docs (count_files all)) (S (length fs))) as [Ed|Ed];
  [|destruct (Nat.eqb_spec (n_config (count_files all)) (S (length fs))) as [Ec|Ec];
  [|destruct (Nat.eqb_spec (n_ci (count_files all)) (S (length fs))) as [Ei|Ei];
  [|destruct (Nat.eqb_spec (n_tests (count_files all)) (S (length fs))) as [Et|Et];
  [|destruct (Nat.eqb_spec (n_localization (count_files all)) (S (length fs))) as [El|El]]]]];
    simpl.
  1-5: split;
       [ intros <-; split; [reflexivity|]; split; [discriminate|]; tauto
       | intros (_ & _ & Hall); eapply Hone; [|exact Hall]; tauto ].
  split.
  - intros <-. apply families_cases in Hk. intuition discriminate.
  - intros (_ & _ & Hall). apply Hk' in Hall.
    apply families_cases in Hk as [->|[->|[->|[->| ->]]]]; simpl in Hall; contradiction.
Qed.

(** X1. A commit is typed by one of the five families exactly when it
    is no merge, has files, and every file falls into that family. *)
Theorem typed_by_a_family_iff (c : commit) (k : kind) :
  k ∈ families ->
  type (analyzeCommitType c) = k <->
  merge_parents c = None /\ changed c <> [] /\
  Forall (fun f => categorize (filename f) = k) (changed c).
Proof. apply family_type_iff. Qed.

(** X2. A commit whose files all fall into one family is [low], and
    [medium] when the family is the tests, whatever its message, its size
    and the names of its files. *)
Theorem one_family_decides (c : commit) (r : repo) (u : option user) (k : kind) :
  k ∈ families ->
  merge_parents c = None -> changed c <> [] ->
  Forall (fun f => categorize (filename f) = k) (changed c) ->
  classifyCommitPriority c r u = if decide (k = tests) then medium else low.
Proof.
  intros Hk Hm Hne Hall.
  assert (Htype : type (analyzeCommitType c) = k)
    by (apply family_type_iff; auto).
  unfold classifyCommitPriority.
  destruct (analyzeCommitType c) as [ty det]. simpl in Htype. subst ty.
  apply families_cases in Hk as [->|[->|[->|[->| ->]]]]; reflexivity.
Qed.

(** *** The scan for critical files *)

Lemma critical_first (f : file) :
  critical f = true <-> first_critical (filename f) <> None.
Proof.
  unfold critical, first_critical. split.
  - intros Hex Hnone. apply existsb_exists in Hex as (cp & Hin & Htest).
    pose proof (find_none _ _ Hnone cp Hin) as Hno. simpl in Hno. congruence.
  - intros Hsome. destruct (List.find _ criticalPatterns) as [cp|] eqn:Hfind;
      [|contradiction].
    apply find_some in Hfind as [Hin Htest].
    apply existsb_exists. eauto.
Qed.

Lemma scan_names (fs : list file) (acc : list critical_file * Z) :
  map cf_filename (fold_left scan_file fs acc).1
  = map cf_filename acc.1 ++ map filename (filter (fun f => critical f = true) fs).
Proof.
  revert acc. induction fs as [|f fs IH]; intros acc; simpl.
  - rewrite app_nil_r. reflexivity.
  - rewrite IH, filter_cons. unfold scan_file.
    destruct (first_critical (filename f)) as [cp|] eqn:Hfirst; simpl.
    + rewrite decide_True by (apply critical_first; congruence).
      rewrite map_app, <- app_assoc. reflexivity.
    + rewrite decide_False; [reflexivity|].
      rewrite critical_first. congruence.
Qed.

Lemma weights_bounded :
  Forall (fun cp => 1 <= weight cp <= 3) criticalPatterns.
Proof. unfold criticalPatterns. repeat constructor; simpl; lia. Qed.

Lemma first_critical_weight (name : string) (cp : critical_pattern) :
  first_critical name = Some cp -> 1 <= weight cp <= 3.
Proof.
  intros Hfind. apply find_some in Hfind as [Hin _].
  pose proof weights_bounded as Hall. rewrite Forall_forall in Hall.
  apply Hall, list_elem_of_In, Hin.
Qed.

Lemma scan_weights (fs : list file) (acc : list critical_file * Z) :
  Forall (fun cf => 1 <= cf_weight cf <= 3) acc.1 -> 0 <= acc.2 <= 3 ->
  Forall (fun cf => 1 <= cf_weight cf <= 3) (fold_left scan_file fs acc).1 /\
  0 <= (fold_left scan_file fs acc).2 <= 3.
Proof.
  revert acc. induction fs as [|f fs IH]; intros acc Hall Hmax; simpl; [auto|].
  apply IH; unfold scan_file;
    destruct (first_critical (filename f)) as [cp|] eqn:Hfirst; simpl; auto;
    pose proof (first_critical_weight _ _ Hfirst).
  - apply Forall_app. split; [exact Hall|]. repeat constructor; simpl; lia.
  - lia.
Qed.

Lemma scan_max_grows (fs : list file) (acc : list critical_file * Z) :
  acc.2 <= (fold_left scan_file fs acc).2.
Proof.
  revert acc. induction fs as [|f fs IH]; intros acc; simpl; [lia|].
  etransitivity; [|apply IH].
  unfold scan_file. destruct (first_critical (filename f)); simpl; lia.
Qed.

Lemma scan_max_covers (fs : list file) (acc : list critical_file * Z)
    (f : file) (cp : critical_pattern) :
  f ∈ fs -> first_critical (filename f) = Some cp ->
  weight cp <= (fold_left scan_file fs acc).2.
Proof.
  revert acc. induction fs as [|g fs IH]; intros acc Hin Hfirst; [inversion Hin|].
  simpl. apply elem_of_cons in Hin as [->|Hin]; [|now apply IH].
  etransitivity; [|apply scan_max_grows].
  unfold scan_file. rewrite Hfirst. simpl. lia.
Qed.

(** X6. [analyzeCriticalFiles] lists, in the order of the files and once
    each, exactly the files whose name some critical pattern matches;
    [hasCritical] tells whether there is one; every weight recorded lies
    between 1 and 3 and [maxWeight], when defined, between 0 and 3. *)
Theorem critical_files_are_the_matching_ones (fs : list file) :
  let found := analyzeCriticalFiles (Some fs) in
  map cf_filename (criticalFiles found)
  = map filename (filter (fun f => critical f = true) fs) /\
  hasCritical found = existsb critical fs /\
  Forall (fun cf => 1 <= cf_weight cf <= 3) (criticalFiles found) /\
  (forall w, maxWeight found = Some w -> 0 <= w <= 3).
Proof.
  cbv zeta. destruct fs as [|f fs].
  { simpl. split; [reflexivity|]. split; [reflexivity|].
    split; [constructor|]. intros w Hw. discriminate. }
  unfold analyzeCriticalFiles.
  pose proof (scan_names (f :: fs) ([], 0)) as Hnames.
  destruct (scan_weights (f :: fs) ([], 0)) as [Hweights Hmax];
    [constructor | simpl; lia |].
  destruct (fold_left scan_file (f :: fs) ([], 0)) as [cfs mw] eqn:Hscan.
  cbn [fst snd hasCritical criticalFiles maxWeight map app] in *.
  split; [exact Hnames|]. split; [|split; [exact Hweights|]].
  - apply (f_equal (@length string)) in Hnames.
    rewrite !length_map in Hnames.
    change (filter (fun f0 => critical f0 = true) (f :: fs))
      with (filter (fun f0 => critical f0 = true) ([f] ++ fs)) in Hnames.
    destruct (existsb critical (f :: fs)) eqn:Hex.
    + apply existsb_exists in Hex as (g & Hg & Hcrit).
      apply Nat.ltb_lt. rewrite Hnames.
      assert (g ∈ filter (fun f0 => critical f0 = true) ([f] ++ fs)) as Hin
        by (apply list_elem_of_filter; split; [exact Hcrit | now apply list_elem_of_In]).
      destruct (filter _ _); [inversion Hin | simpl; lia].
    + apply Nat.ltb_ge. rewrite Hnames.
      destruct (filter _ _) as [|g gs] eqn:Hfilter; [simpl; lia|].
      assert (g ∈ filter (fun f0 => critical f0 = true) ([f] ++ fs)) as Hin
        by (rewrite Hfilter; left).
      apply list_elem_of_filter in Hin as [Hcrit Hg].
      assert (existsb critical (f :: fs) = true) as Habs
        by (apply existsb_exists; exists g; split; [now apply list_elem_of_In | exact Hcrit]).
      congruence.
  - intros w [= <-]. exact Hmax.
Qed.

Lemma scan_count (fs : list file) :
  length (fold_left scan_file fs ([], 0)).1 = critical_count fs.
Proof.
  pose proof (scan_names fs ([], 0)) as Hnames.
  apply (f_equal (@length string)) in Hnames.
  rewrite length_app, !length_map in Hnames. exact Hnames.
Qed.

Lemma scan_heavy (fs : list file) (acc : list critical_file * Z) :
  (3 <=? (fold_left scan_file fs acc).2) = (3 <=? acc.2) || existsb heavy fs.
Proof.
  revert acc. induction fs as [|f fs IH]; intros acc; simpl.
  - rewrite orb_false_r. reflexivity.
  - rewrite IH. unfold scan_file, heavy.
    destruct (first_critical (filename f)) as [cp|]; simpl; [|reflexivity].
    rewrite orb_assoc. f_equal.
    destruct (Z.leb_spec 3 (Z.max acc.2 (weight cp))),
             (Z.leb_spec 3 acc.2), (Z.leb_spec 3 (weight cp)); simpl; lia.
Qed.

(** What [analyzeCommitType] hands on about a commit typed [code]. *)
Lemma code_details (c : commit) :
  type (analyzeCommitType c) = code ->
  merge_parents c = None /\
  info (analyzeCommitType c)
  = match changed c with
    | [] => NoDetails
    | fs => CodeDetails (length fs) (count_files fs)
                        (stat stats_additions c) (stat stats_deletions c)
    end.
Proof.
  unfold analyzeCommitType, changed.
  destruct (merge_parents c); [discriminate|].
  destruct (files c) as [[|f fs]|]; simpl; auto.
  repeat (match goal with |- context [if ?b then _ else _] => destruct b end;
          simpl; try discriminate).
  auto.
Qed.

(** For a commit typed [code] the decision list comes down to
    [code_verdict]. *)
Lemma code_priority (c : commit) (r : repo) (u : option user) :
  type (analyzeCommitType c) = code ->
  classifyCommitPriority c r u = code_verdict c.
Proof.
  intros Htype. destruct (code_details c Htype) as [_ Hinfo].
  unfold classifyCommitPriority, code_verdict.
  destruct (analyzeCommitType c) as [ty det]. simpl in Htype, Hinfo. subst ty det.
  change (bool_decide (code ∈ [merge; docs; config; ci; localization])) with false.
  change (bool_decide (code = tests)) with false. cbv iota.
  unfold changed, total_changes.
  set (msg := JS.toLowerCase (message c)).
  destruct (files c) as [[|f fs]|]; simpl default.
  1,3: simpl; destruct (mentions HIGH_PRIORITY_KEYWORDS msg); [reflexivity|];
       destruct (mentions lowKeywords msg); reflexivity.
  unfold analyzeCriticalFiles.
  pose proof (scan_count (f :: fs)) as Hcount.
  pose proof (scan_heavy (f :: fs) ([], 0)) as Hheavy.
  destruct (fold_left scan_file (f :: fs) ([], 0)) as [cfs mw].
  cbn [fst snd] in Hcount, Hheavy. change (3 <=? 0) with false in Hheavy.
  rewrite orb_false_l in Hheavy.
  cbn [hasCritical criticalFiles maxWeight isHighPriority JS.truthy_opt id
       details_additions details_deletions JS.or_zero].
  rewrite Hheavy, Hcount. clear Hheavy Hcount.
  change (hasLargeDeletions (f :: fs)) with (existsb large_deletion (f :: fs)).
  rewrite bool_decide_eq_false_2 by discriminate.
  unfold JS.truthy_num.
  destruct (existsb heavy (f :: fs)); [reflexivity|].
  destruct (existsb large_deletion (f :: fs));
    destruct (mentions HIGH_PRIORITY_KEYWORDS msg);
    destruct (mentions lowKeywords msg);
    destruct (Nat.leb_spec 3 (critical_count (f :: fs)));
    destruct (Nat.leb_spec 2 (critical_count (f :: fs)));
    destruct (Nat.ltb_spec 0 (critical_count (f :: fs)));
    try lia; simpl; try reflexivity;
    destruct (Z.eqb_spec (stat stats_additions c) 0);
    destruct (Z.eqb_spec (stat stats_deletions c) 0);
    destruct (Z.ltb_spec 500 (stat stats_additions c + stat stats_deletions c));
    destruct (Z.ltb_spec 2000 (stat stats_additions c + stat stats_deletions c));
    simpl; try reflexivity; lia.
Qed.

(** X3. A commit typed [code] is [high] exactly when the first critical
    pattern matching one of its files has weight 3, or two or more of its
    files match a critical pattern, or one of its files is a large
    deletion, or its message holds a high-priority keyword. *)
Theorem code_is_high_iff (c : commit) (r : repo) (u : option user) :
  type (analyzeCommitType c) = code ->
  classifyCommitPriority c r u = high <->
  (exists f, f ∈ changed c /\ heavy f = true) \/
  (2 <= critical_count (changed c))%nat \/
  (exists f, f ∈ changed c /\ large_deletion f = true) \/
  mentions HIGH_PRIORITY_KEYWORDS (JS.toLowerCase (message c)) = true.
Proof.
  intros Htype. rewrite (code_priority c r u Htype). unfold code_verdict.
  set (fs := changed c). set (msg := JS.toLowerCase (message c)).
  assert (Hheavy : existsb heavy fs = true <-> exists f, f ∈ fs /\ heavy f = true).
  { rewrite existsb_exists. setoid_rewrite list_elem_of_In. reflexivity. }
  assert (Hdel : existsb large_deletion fs = true <->
                 exists f, f ∈ fs /\ large_deletion f = true).
  { rewrite existsb_exists. setoid_rewrite list_elem_of_In. reflexivity. }
  rewrite <- Hheavy, <- Hdel.
  destruct (existsb heavy fs), (existsb large_deletion fs),
    (mentions HIGH_PRIORITY_KEYWORDS msg),
    (Nat.leb_spec 2 (critical_count fs)); simpl; try tauto;
    (split; [|intros [?|[?|[?|?]]]; first [discriminate | lia]]);
    repeat match goal with |- context [if ?b then _ else _] => destruct b end;
    discriminate.
Qed.

(** X4. A commit typed [code] is [low] exactly when none of its files
    matches a critical pattern or is a large deletion, its message holds
    no high-priority keyword but a low-priority one, and it has no files
    or at most 500 changed lines. *)
Theorem code_is_low_iff (c : commit) (r : repo) (u : option user) :
  type (analyzeCommitType c) = code ->
  classifyCommitPriority c r u = low <->
  critical_count (changed c) = 0%nat /\
  (forall f, f ∈ changed c -> large_deletion f = false) /\
  mentions HIGH_PRIORITY_KEYWORDS (JS.toLowerCase (message c)) = false /\
  mentions lowKeywords (JS.toLowerCase (message c)) = true /\
  (changed c = [] \/ total_changes c <= 500).
Proof.
  intros Htype. rewrite (code_priority c r u Htype). unfold code_verdict.
  set (fs := changed c). set (msg := JS.toLowerCase (message c)).
  assert (Hdel : existsb large_deletion fs = false <->
                 forall f, f ∈ fs -> large_deletion f = false).
  { rewrite <- not_true_iff_false, existsb_exists. split.
    - intros Hno f Hf. apply not_true_iff_false. intros Hlarge.
      apply Hno. exists f. split; [now apply list_elem_of_In | exact Hlarge].
    - intros Hall (f & Hf & Hlarge). apply list_elem_of_In in Hf.
      rewrite (Hall f Hf) in Hlarge. discriminate. }
  rewrite <- Hdel.
  assert (Hnone : critical_count fs = 0%nat -> existsb heavy fs = false).
  { intros Hzero. apply not_true_iff_false. intros Hex.
    apply existsb_exists in Hex as (f & Hf & Hheavy).
    assert (f ∈ filter (fun f => critical f = true) fs) as Hin.
    { apply list_elem_of_filter. split; [|now apply list_elem_of_In].
      apply critical_first. unfold heavy in Hheavy.
      destruct (first_critical (filename f)); [discriminate | discriminate]. }
    unfold critical_count in Hzero.
    destruct (filter _ fs); [inversion Hin | discriminate]. }
  remember (critical_count fs) as n eqn:Hn.
  remember (existsb large_deletion fs) as d eqn:Hd.
  remember (mentions HIGH_PRIORITY_KEYWORDS msg) as h eqn:Hh.
  remember (mentions lowKeywords msg) as l eqn:Hl.
  remember (total_changes c) as t eqn:Ht.
  clear Hn Hd Hh Hl Ht Hdel.
  destruct (existsb heavy fs).
  { cbn [orb]. split; [discriminate|]. intros (Hzero & _).
    specialize (Hnone Hzero). discriminate. }
  clear Hnone.
  destruct d, h, l, (Nat.leb_spec 2 n), (Nat.ltb_spec 0 n),
    (decide (fs = [])) as [Hnil|Hnil], (Z.ltb_spec 500 t);
    rewrite ?(bool_decide_eq_true_2 _ Hnil), ?(bool_decide_eq_false_2 _ Hnil);
    cbn [orb andb negb];
    intuition (try discriminate; try lia; try congruence).
Qed.

Lemma without_files_the_message_decides_core (c : commit) (r : repo) (u : option user) :
  merge_parents c = None -> changed c = [] ->
  classifyCommitPriority c r u = by_message (message c).
Proof.
  intros Hm Hnone.
  assert (Htype : type (analyzeCommitType c) = code).
  { unfold analyzeCommitType. rewrite Hm. unfold changed in Hnone.
    destruct (files c) as [[|f fs]|]; try reflexivity. discriminate. }
  rewrite (code_priority c r u Htype). unfold code_verdict, by_message.
  rewrite Hnone. cbn [existsb critical_count filter length orb andb negb].
  set (msg := JS.toLowerCase (message c)).
  destruct (mentions HIGH_PRIORITY_KEYWORDS msg); [reflexivity|].
  destruct (mentions lowKeywords msg); reflexivity.
Qed.

(** X5. A commit with fewer than two parents and no file information is
    classified by its message alone: [high] on a high-priority keyword,
    else [low] on a low-priority keyword, else [medium]. *)
Theorem without_files_the_message_decides (c : commit) (r : repo) (u : option user) :
  merge_parents c = None -> changed c = [] ->
  classifyCommitPriority c r u = by_message (message c).
Proof. apply without_files_the_message_decides_core. Qed.

End ClassifierMore.

Lemma typed_by_a_family_iff_witness :
  CommitAnalysis.type (CommitAnalysis.analyzeCommitType Samples.readme_commit)
  = CommitAnalysis.docs <->
  CommitAnalysis.merge_parents Samples.readme_commit = None /\
  Classifier.changed Samples.readme_commit <> [] /\
  Forall (fun f => CommitAnalysis.categorize (filename f) = CommitAnalysis.docs)
         (Classifier.changed Samples.readme_commit).
Proof.
  apply (typed_by_a_family_iff Samples.readme_commit CommitAnalysis.docs).
  apply list_elem_of_In. simpl. tauto.
Defined.

Lemma one_family_decides_witness :
  CommitAnalysis.mentions CommitAnalysis.HIGH_PRIORITY_KEYWORDS
    (JS.toLowerCase (message Samples.readme_commit)) = true /\
  CommitAnalysis.classifyCommitPriority Samples.readme_commit Samples.sample_repo None
  = low.
Proof.
  split; [reflexivity|].
  apply (one_family_decides Samples.readme_commit Samples.sample_repo None
           CommitAnalysis.docs).
  - apply list_elem_of_In. simpl. tauto.
  - reflexivity.
  - discriminate.
  - repeat constructor.
Defined.

Lemma code_is_high_iff_witness :
  CommitAnalysis.classifyCommitPriority Samples.login_commit Samples.sample_repo None
  = high <->
  (exists f, f ∈ Classifier.changed Samples.login_commit /\ Classifier.heavy f = true) \/
  (2 <= Classifier.critical_count (Classifier.changed Samples.login_commit))%nat \/
  (exists f, f ∈ Classifier.changed Samples.login_commit /\
             CommitAnalysis.large_deletion f = true) \/
  CommitAnalysis.mentions CommitAnalysis.HIGH_PRIORITY_KEYWORDS
    (JS.toLowerCase (message Samples.login_commit)) = true.
Proof.
  apply (code_is_high_iff Samples.login_commit Samples.sample_repo None).
  reflexivity.
Defined.

Lemma code_is_low_iff_witness :
  CommitAnalysis.classifyCommitPriority MoreSamples.chore_commit Samples.sample_repo None
  = low <->
  Classifier.critical_count (Classifier.changed MoreSamples.chore_commit) = 0%nat /\
  (forall f, f ∈ Classifier.changed MoreSamples.chore_commit ->
             CommitAnalysis.large_deletion f = false) /\
  CommitAnalysis.mentions CommitAnalysis.HIGH_PRIORITY_KEYWORDS
    (JS.toLowerCase (message MoreSamples.chore_commit)) = false /\
  CommitAnalysis.mentions CommitAnalysis.lowKeywords
    (JS.toLowerCase (message MoreSamples.chore_commit)) = true /\
  (Classifier.changed MoreSamples.chore_commit = [] \/
   Classifier.total_changes MoreSamples.chore_commit <= 500).
Proof.
  apply (code_is_low_iff MoreSamples.chore_commit Samples.sample_repo None).
  reflexivity.
Defined.

Example chore_commit_is_low :
  CommitAnalysis.classifyCommitPriority MoreSamples.chore_commit Samples.sample_repo None
  = low.
Proof. reflexivity. Qed.

Lemma without_files_the_message_decides_witness :
  CommitAnalysis.classifyCommitPriority MoreSamples.bare_commit Samples.sample_repo None
  = high.
Proof.
  apply (without_files_the_message_decides MoreSamples.bare_commit
           Samples.sample_repo None); reflexivity.
Defined.

(** * Further properties of the API clients *)

Section ClientMore.
Import Api Cache.

Variable parseInt : string -> option Z.
Variable fetch : string -> outcome response.

Lemma fetchApi_goes_out (p : platform_api) (token : string) (now : N)
    (endpoint : string) (st : client) :
  JS.truthy_string token = true ->
  (forall rem, rateLimitRemaining st = Some rem -> 10 < rem) \/
  (forall reset, rateLimitReset st = Some reset -> reset = 0) \/
  (exists reset, rateLimitReset st = Some reset /\ 1000 * reset <= Z.of_N now) ->
  (fetchApi parseInt fetch p (Some token) now endpoint st).1 = fetch (url_of p endpoint) /\
  calls (fetchApi parseInt fetch p (Some token) now endpoint st).2
  = calls st ++ [url_of p endpoint].
Proof.
  intros Htok Hfree. unfold fetchApi. simpl. rewrite Htok. cbn [negb].
  assert (Hnot :
    (if num_le (rateLimitRemaining st) 10 &&
        JS.truthy_opt JS.truthy_num (rateLimitReset st)
     then
       if JS.num_lt (inject_Z (Z.of_N now) / 1000)
                    (inject_Z (JS.or_zero (rateLimitReset st)))
       then Some (Qceiling ((inject_Z (JS.or_zero (rateLimitReset st))
                             - inject_Z (Z.of_N now) / 1000) / 60))
       else None
     else None) = None).
  { destruct Hfree as [Hrem|[Hzero|(reset & Hreset & Hpast)]].
    - destruct (rateLimitRemaining st) as [rem|]; simpl; [|reflexivity].
      specialize (Hrem rem eq_refl).
      destruct (Z.leb_spec rem 10); [lia | reflexivity].
    - destruct (rateLimitReset st) as [reset|]; simpl.
      + rewrite (Hzero reset eq_refl). rewrite andb_false_r. reflexivity.
      + rewrite andb_false_r. reflexivity.
    - rewrite Hreset. simpl.
      destruct (_ && _); [|reflexivity].
      assert (JS.num_lt (inject_Z (Z.of_N now) / 1000) (inject_Z reset) = false) as ->;
        [|reflexivity].
      unfold JS.num_lt. apply negb_false_iff, Qle_bool_iff.
      unfold Qle. simpl. lia. }
  rewrite Hnot. unfold url_of.
  destruct (fetch _); simpl; split; reflexivity.
Qed.

(** X7. With a token, the client hands exactly one url to [fetch], the
    endpoint itself when it starts with http and the API base followed by
    the endpoint otherwise, and resolves to what [fetch] gives, whenever
    more than 10 requests remain, or no reset time is known, or the reset
    time is reached. *)
Theorem request_goes_out (token : string) (now : N) (endpoint : string) (st : client) :
  JS.truthy_string token = true ->
  (forall rem, rateLimitRemaining st = Some rem -> 10 < rem) \/
  (forall reset, rateLimitReset st = Some reset -> reset = 0) \/
  (exists reset, rateLimitReset st = Some reset /\ 1000 * reset <= Z.of_N now) ->
  (fetchGitHub parseInt fetch (Some token) now endpoint st).1
  = fetch (url_of github endpoint) /\
  calls (fetchGitHub parseInt fetch (Some token) now endpoint st).2
  = calls st ++ [url_of github endpoint] /\
  (fetchGitLab parseInt fetch (Some token) now endpoint st).1
  = fetch (url_of gitlab endpoint) /\
  calls (fetchGitLab parseInt fetch (Some token) now endpoint st).2
  = calls st ++ [url_of gitlab endpoint].
Proof.
  intros Htok Hfree.
  destruct (fetchApi_goes_out github token now endpoint st Htok Hfree).
  destruct (fetchApi_goes_out gitlab token now endpoint st Htok Hfree).
  auto.
Qed.

(** X8. A response that carries no reset header lifts the limit: when
    [parseInt] reads "0" as 0, the call that follows goes out to the
    network whatever budget the response left. *)
Theorem missing_reset_header_lifts_the_limit (p : platform_api) (token : string)
    (now later : N) (endpoint next : string) (st st' : client) (resp : response) :
  parseInt "0" = Some 0 ->
  JS.truthy_string token = true ->
  fetchApi parseInt fetch p (Some token) now endpoint st = (Returned resp, st') ->
  h_reset (response_headers resp) = None ->
  rateLimitReset st' = Some 0 /\
  calls (fetchApi parseInt fetch p (Some token) later next st').2
  = calls st' ++ [url_of p next].
Proof.
  intros Hzero Htok Hcall Hnone.
  assert (Hreset : rateLimitReset st' = Some 0).
  { revert Hcall. unfold fetchApi. simpl. rewrite Htok. cbn [negb].
    destruct (if num_le _ _ && _ then _ else None) as [w|]; [discriminate|].
    destruct (fetch _) as [resp'|e]; [|discriminate].
    intros [= -> <-]. simpl. unfold header_int. rewrite Hnone. exact Hzero. }
  split; [exact Hreset|].
  apply fetchApi_goes_out; [exact Htok|].
  right. left. intros reset Hr. congruence.
Qed.

End ClientMore.

Section CacheFacts.
Import Cache.

Variable fetchGitHub : string -> outcome response.

Local Abbreviation cachedFetch := (fetchGitHubCached fetchGitHub).

(** The entry under the key, if any, is older than [maxAge]. *)
Local Abbreviation stale store cacheKey maxAge now :=
  (forall entry : cached, store !! cacheKey = Some entry ->
     maxAge <= Z.of_N now - Z.of_N (timestamp entry)).

Lemma stale_is_not_served (endpoint cacheKey : string) (maxAge : Z) (now later : N)
    (store : gmap string cached) :
  stale store cacheKey maxAge now ->
  cachedFetch endpoint cacheKey maxAge now later store
  = match fetchGitHub endpoint with
    | Threw e => (Threw e, store, [endpoint])
    | Returned response =>
        if negb (ok response)
        then (Threw (Failed "GitHub API error" (status response)), store, [endpoint])
        else match json response with
             | Threw e => (Threw e, store, [endpoint])
             | Returned data =>
                 (Returned data,
                  <[cacheKey := {| data := data; timestamp := later |}]> store,
                  [endpoint])
             end
    end.
Proof.
  intros Hstale. unfold fetchGitHubCached.
  destruct (store !! cacheKey) as [[d ts]|] eqn:Hlook; [|reflexivity].
  specialize (Hstale _ eq_refl). simpl in Hstale.
  destruct (Z.ltb_spec (Z.of_N now - Z.of_N ts) maxAge); [lia | reflexivity].
Qed.

(** X9. What a successful refresh stores is served to the calls that
    follow within [maxAge], for any endpoint they name, without a request
    and without touching the cache. *)
Theorem refreshed_entry_is_served (endpoint cacheKey : string) (maxAge : Z)
    (now later : N) (store : gmap string cached) (resp : response) (d : payload) :
  stale store cacheKey maxAge now ->
  fetchGitHub endpoint = Returned resp -> ok resp = true -> json resp = Returned d ->
  exists store',
    cachedFetch endpoint cacheKey maxAge now later store
    = (Returned d, store', [endpoint]) /\
    forall (again : string) (now' later' : N),
      Z.of_N now' - Z.of_N later < maxAge ->
      cachedFetch again cacheKey maxAge now' later' store' = (Returned d, store', []).
Proof.
  intros Hstale Hfetch Hok Hjson. eexists. split.
  - rewrite stale_is_not_served by exact Hstale.
    rewrite Hfetch, Hok, Hjson. reflexivity.
  - intros again now' later' Hfresh. unfold fetchGitHubCached.
    rewrite lookup_insert_eq.
    destruct (Z.ltb_spec (Z.of_N now' - Z.of_N later) maxAge); [reflexivity | lia].
Qed.

(** X10. A refresh that fails, by an exception, a response that is not
    [ok] or a body that cannot be read, throws after one request: the
    stale entry is not served and the cache stays as it was. *)
Theorem failed_refresh_keeps_the_cache (endpoint cacheKey : string) (maxAge : Z)
    (now later : N) (store : gmap string cached) :
  stale store cacheKey maxAge now ->
  (forall resp d, fetchGitHub endpoint = Returned resp ->
                  ok resp = true -> json resp <> Returned d) ->
  exists e,
    cachedFetch endpoint cacheKey maxAge now later store = (Threw e, store, [endpoint]).
Proof.
  intros Hstale Hfails. rewrite stale_is_not_served by exact Hstale.
  destruct (fetchGitHub endpoint) as [resp|e]; [|eauto].
  destruct (ok resp) eqn:Hok; simpl; [|eauto].
  destruct (json resp) as [d|e] eqn:Hjson; [|eauto].
  exfalso. exact (Hfails resp d eq_refl Hok Hjson).
Qed.

End CacheFacts.

(** * Further properties of the repository directory *)

Section PagingMore.
Import Repositories.

Variable item : Type.
Variable fetchPage : string -> outcome response.
Variable endpoint_of : nat -> string.
Variable read : response -> outcome (list item).
Variable keep : list item -> list repo.
Variable failure : string.

Local Abbreviation loop := (paginate item fetchPage endpoint_of read keep failure).

(** Page [i] is served: the request is answered [ok] with [items]. *)
Local Abbreviation serves i items :=
  (exists resp, fetchPage (endpoint_of i) = Returned resp /\
                ok resp = true /\ read resp = Returned items).

(** What the loop returns has passed through [keep]. *)
Lemma paginate_kept (P : repo -> Prop) (fuel : nat) (st : paging)
    (out : list repo) (reqs : list string) :
  (forall items, Forall P (keep items)) ->
  Forall P (repos st) ->
  loop fuel st = Some (Returned out, reqs) -> Forall P out.
Proof.
  intros Hkeep. revert st. induction fuel as [|fuel IH]; intros st Hst; simpl.
  - destruct (hasMore st); simpl; [discriminate|]. intros [= <- _]. exact Hst.
  - destruct (hasMore st); simpl; [|intros [= <- _]; exact Hst].
    destruct (fetchPage _) as [resp|e]; [|discriminate].
    destruct (ok resp); simpl; [|discriminate].
    destruct (read resp) as [items|e]; [|discriminate].
    destruct (length items =? 0)%nat; simpl.
    + destruct (50 <? page st)%nat; [intros [= <- _]; exact Hst|].
      intros Hrun. apply IH in Hrun; [exact Hrun | exact Hst].
    + assert (Forall P (repos st ++ keep items)) as Hnext
        by (apply Forall_app; auto).
      destruct (50 <? S (page st))%nat; [intros [= <- _]; exact Hnext|].
      intros Hrun. apply IH in Hrun; [exact Hrun | exact Hnext].
Qed.

(** The loop runs through [n] pages that are served and not empty. *)
Lemma paginate_through (served : nat -> list item) (n fuel : nat) (st : paging) :
  hasMore st = true -> (page st + n <= 50)%nat ->
  (forall i, (page st <= i < page st + n)%nat -> serves i (served i) /\ served i <> []) ->
  loop (n + fuel) st
  = loop fuel
      {| repos := repos st ++ concat (map (fun i => keep (served i)) (seq (page st) n));
         page := page st + n;
         hasMore := true;
         requested := requested st ++ map endpoint_of (seq (page st) n) |}.
Proof.
  revert st. induction n as [|n IH]; intros st Hmore Hcap Hserved.
  - simpl. rewrite !app_nil_r, Nat.add_0_r. destruct st; simpl in *. subst. reflexivity.
  - destruct (Hserved (page st) ltac:(lia)) as [(resp & Hfetch & Hok & Hread) Hne].
    change (S n + fuel)%nat with (S (n + fuel)). cbn [paginate].
    rewrite Hmore, Hfetch, Hok, Hread. cbn [negb].
    destruct (Nat.eqb_spec (length (served (page st))) 0) as [Hzero|_].
    { destruct (served (page st)); [contradiction | discriminate]. }
    cbn [page repos]. destruct (Nat.ltb_spec 50 (S (page st))); [lia|].
    rewrite IH; cbn [page repos hasMore requested]; [|reflexivity|lia|].
    + f_equal. f_equal.
      * rewrite <- app_assoc. reflexivity.
      * lia.
      * rewrite <- app_assoc. reflexivity.
    + intros i Hi. apply Hserved. lia.
Qed.

(** The loop from its first state, over [k] pages that are served, the
    last of which is empty or the fiftieth. *)
Lemma paginate_complete (served : nat -> list item) (k fuel : nat) :
  keep [] = [] ->
  (1 <= k <= 50)%nat -> (k <= fuel)%nat ->
  (forall i, (1 <= i <= k)%nat -> serves i (served i)) ->
  (forall i, (1 <= i < k)%nat -> served i <> []) ->
  served k = [] \/ k = 50%nat ->
  loop fuel first_page
  = Some (Returned (concat (map (fun i => keep (served i)) (seq 1 k))),
          map endpoint_of (seq 1 k)).
Proof.
  intros Hnil Hk Hfuel Hserved Hfull Hlast.
  replace fuel with ((k - 1) + S (fuel - k))%nat by lia.
  rewrite (paginate_through served (k - 1)); cbn [first_page page repos hasMore requested];
    [|reflexivity|lia|intros i Hi; split; [apply Hserved | apply Hfull]; lia].
  replace (1 + (k - 1))%nat with k by lia.
  destruct (Hserved k ltac:(lia)) as (resp & Hfetch & Hok & Hread).
  cbn [paginate hasMore page negb app]. rewrite Hfetch, Hok, Hread. cbn [negb].
  assert (Hseq : seq 1 k = seq 1 (k - 1) ++ [k]).
  { replace k with (S (k - 1)) at 1 by lia. rewrite seq_S. f_equal. f_equal. lia. }
  rewrite Hseq, !map_app, concat_app. cbn [map concat]. rewrite app_nil_r.
  destruct (Nat.eqb_spec (length (served k)) 0) as [Hzero|Hsome]; cbn [page repos].
  - assert (served k = []) as -> by (destruct (served k); [reflexivity | discriminate]).
    rewrite Hnil, app_nil_r.
    destruct (Nat.ltb_spec 50 k); [lia|].
    destruct (fuel - k)%nat; reflexivity.
  - destruct Hlast as [Hempty| ->]; [rewrite Hempty in Hsome; simpl in Hsome; lia|].
    reflexivity.
Qed.

(** The loop from its first state, when page [j] fails after [j - 1]
    pages that are served and not empty. *)
Lemma paginate_fails (served : nat -> list item) (j fuel : nat) :
  (1 <= j <= 50)%nat -> (j <= fuel)%nat ->
  (forall i, (1 <= i < j)%nat -> serves i (served i) /\ served i <> []) ->
  (forall resp items, fetchPage (endpoint_of j) = Returned resp ->
                      ok resp = true -> read resp <> Returned items) ->
  exists e, loop fuel first_page = Some (Threw e, map endpoint_of (seq 1 j)).
Proof.
  intros Hj Hfuel Hserved Hfails.
  replace fuel with ((j - 1) + S (fuel - j))%nat by lia.
  rewrite (paginate_through served (j - 1)); cbn [first_page page repos hasMore requested];
    [|reflexivity|lia|intros i Hi; apply Hserved; lia].
  replace (1 + (j - 1))%nat with j by lia.
  assert (Hseq : seq 1 j = seq 1 (j - 1) ++ [j]).
  { replace j with (S (j - 1)) at 1 by lia. rewrite seq_S. f_equal. f_equal. lia. }
  rewrite Hseq, map_app. cbn [paginate hasMore page negb app map].
  destruct (fetchPage (endpoint_of j)) as [resp|e]; [|eauto].
  destruct (ok resp) eqn:Hok; cbn [negb]; [|eauto].
  destruct (read resp) as [items|e] eqn:Hread; [|eauto].
  exfalso. exact (Hfails resp items eq_refl Hok Hread).
Qed.

End PagingMore.

Section DirectoryMore.
Import Repositories.

Variable fetchGitHub : string -> outcome response.
Variable fetchGitLab : string -> outcome response.

Lemma keep_repos_kept (s : settings) (pageRepos : list repo) :
  Forall (fun r => platform r = Some "github" /\ (ignoreForks s = true -> fork r = false))
         (keep_repos s pageRepos).
Proof.
  unfold keep_repos. apply Forall_forall. intros r Hr.
  change (map ?f ?l) with (f <$> l) in Hr.
  apply list_elem_of_fmap in Hr as (r0 & -> & Hr0).
  apply list_elem_of_filter in Hr0 as [Hkeep _]. simpl.
  split; [reflexivity|]. intros Hign. rewrite Hign in Hkeep. simpl in Hkeep.
  destruct (fork r0); [discriminate | reflexivity].
Qed.

Lemma keep_projects_kept (s : settings) (pageProjects : list gitlab_project) :
  Forall (fun r => platform r = Some "gitlab" /\ (ignoreForks s = true -> fork r = false))
         (keep_projects s pageProjects).
Proof.
  unfold keep_projects. apply Forall_forall. intros r Hr.
  change (map ?f ?l) with (f <$> l) in Hr.
  apply list_elem_of_fmap in Hr as (p & -> & Hp).
  apply list_elem_of_filter in Hp as [Hkeep _]. simpl.
  split; [reflexivity|]. intros Hign. rewrite Hign in Hkeep. simpl in Hkeep.
  destruct (forked_from_project p); [discriminate | reflexivity].
Qed.

Lemma fetched_repos_kept (fuel : nat) (s : settings) (rs : list repo) (reqs : list string) :
  fetchUserRepositories fetchGitHub fuel s = Some (Returned rs, reqs) ->
  Forall (fun r => platform r = Some "github" /\ (ignoreForks s = true -> fork r = false)) rs.
Proof.
  unfold fetchUserRepositories. apply paginate_kept.
  - apply keep_repos_kept.
  - constructor.
Qed.

(** X11. Every repository that [fetchUserRepositories] returns carries
    the platform github, every project that [fetchGitLabProjects] returns
    the platform gitlab, and none of them is a fork when [ignoreForks] is
    set. *)
Theorem fetched_repositories_are_tagged (fuel : nat) (s : settings)
    (rs : list repo) (reqs : list string) :
  (fetchUserRepositories fetchGitHub fuel s = Some (Returned rs, reqs) ->
   Forall (fun r => platform r = Some "github" /\
                    (ignoreForks s = true -> fork r = false)) rs) /\
  (fetchGitLabProjects fetchGitLab fuel s = Some (Returned rs, reqs) ->
   Forall (fun r => platform r = Some "gitlab" /\
                    (ignoreForks s = true -> fork r = false)) rs).
Proof.
  split.
  - apply fetched_repos_kept.
  - unfold fetchGitLabProjects. apply paginate_kept.
    + apply keep_projects_kept.
    + constructor.
Qed.

(** X12. When the server answers the pages 1 to [k] of the repository
    list, all but the last with repositories and the last with none (or
    the last being page 50), [fetchUserRepositories] requests exactly
    these [k] pages and returns what it keeps of them, page after page. *)
Theorem all_pages_are_gathered (served : nat -> list repo) (k fuel : nat) (s : settings) :
  (1 <= k <= 50)%nat -> (k <= fuel)%nat ->
  (forall i, (1 <= i <= k)%nat ->
     exists resp, fetchGitHub (repos_endpoint i) = Returned resp /\
                  ok resp = true /\ json resp = Returned (Repos (served i))) ->
  (forall i, (1 <= i < k)%nat -> served i <> []) ->
  served k = [] \/ k = 50%nat ->
  fetchUserRepositories fetchGitHub fuel s
  = Some (Returned (concat (map (fun i => keep_repos s (served i)) (seq 1 k))),
          map repos_endpoint (seq 1 k)).
Proof.
  intros Hk Hfuel Hserved Hfull Hlast. unfold fetchUserRepositories.
  apply (paginate_complete repo fetchGitHub repos_endpoint json_repos (keep_repos s)
           "Failed to fetch repositories" served k fuel); auto.
  intros i Hi. destruct (Hserved i Hi) as (resp & Hfetch & Hok & Hjson).
  exists resp. split; [exact Hfetch|]. split; [exact Hok|].
  unfold json_repos. rewrite Hjson. reflexivity.
Qed.

(** X13. When a page of the repository list fails, by an exception, a
    response that is not [ok] or a body that cannot be read,
    [fetchUserRepositories] throws: the repositories of the pages before
    are not returned, and no further page is requested. *)
Theorem a_failed_page_fails_the_listing (served : nat -> list repo) (j fuel : nat)
    (s : settings) :
  (1 <= j <= 50)%nat -> (j <= fuel)%nat ->
  (forall i, (1 <= i < j)%nat ->
     (exists resp, fetchGitHub (repos_endpoint i) = Returned resp /\
                   ok resp = true /\ json resp = Returned (Repos (served i))) /\
     served i <> []) ->
  (forall resp, fetchGitHub (repos_endpoint j) = Returned resp ->
                ok resp = true -> exists e, json resp = Threw e) ->
  exists e,
    fetchUserRepositories fetchGitHub fuel s
    = Some (Threw e, map repos_endpoint (seq 1 j)).
Proof.
  intros Hj Hfuel Hserved Hfails. unfold fetchUserRepositories.
  apply (paginate_fails repo fetchGitHub repos_endpoint json_repos (keep_repos s)
           "Failed to fetch repositories" served j fuel); auto.
  - intros i Hi. destruct (Hserved i Hi) as [(resp & Hfetch & Hok & Hjson) Hne].
    split; [|exact Hne]. exists resp. split; [exact Hfetch|]. split; [exact Hok|].
    unfold json_repos. rewrite Hjson. reflexivity.
  - intros resp items Hfetch Hok. unfold json_repos, bind.
    destruct (Hfails resp Hfetch Hok) as [e ->]. discriminate.
Qed.

End DirectoryMore.

Section ListsFacts.
Import Repositories Directory.

Variable fetchGitHub : string -> outcome response.
Variable fetchGitLab : string -> outcome response.

Lemma with_platform_same (name : string) (rs : list repo) :
  Forall (fun r => platform r = Some name) rs ->
  JS.truthy_string name = true ->
  with_platform name rs = rs.
Proof.
  intros Hall Hname. unfold with_platform.
  induction Hall as [|r rs Hr _ IH]; [reflexivity|].
  simpl. rewrite IH. f_equal. destruct r as [fn db pl fk]. simpl in *. subst pl.
  simpl. rewrite Hname. reflexivity.
Qed.

Lemma with_platform_truthy (name : string) (rs : list repo) :
  JS.truthy_string name = true ->
  Forall (fun r => JS.truthy_opt JS.truthy_string (platform r) = true)
         (with_platform name rs).
Proof.
  intros Hname. unfold with_platform. apply Forall_forall. intros r Hr.
  change (map ?f ?l) with (f <$> l) in Hr.
  apply list_elem_of_fmap in Hr as (r0 & -> & _). simpl.
  unfold JS.or_default. destruct (platform r0) as [p|]; [|exact Hname].
  destruct (JS.truthy_string p) eqn:Hp; [exact Hp | exact Hname].
Qed.

(** X14. The list a refresh of the GitHub repositories returns is what
    the calls of the following hour return, without a request and
    whatever the settings have become by then. *)
Theorem refreshed_list_is_served_for_an_hour (fuel : nat) (s : settings)
    (now later : N) (l l' : listing) (rs : list repo) (reqs : list string) :
  outdated now l = true ->
  getGitHubRepositories fetchGitHub fuel s now later l = Some (Returned rs, l', reqs) ->
  forall (fuel' : nat) (s' : settings) (now' later' : N),
    Z.of_N now' - Z.of_N later <= hour ->
    getGitHubRepositories fetchGitHub fuel' s' now' later' l' = Some (Returned rs, l', []).
Proof.
  intros Hold Hget fuel' s' now' later' Hsoon.
  unfold getGitHubRepositories in Hget. rewrite Hold in Hget.
  unfold refreshed in Hget.
  destruct (fetchUserRepositories fetchGitHub fuel s) as [[[rs0|e] reqs0]|] eqn:Hfetch;
    [|discriminate..].
  injection Hget as <- <- <-.
  unfold getGitHubRepositories, outdated. simpl.
  destruct (Z.ltb_spec hour (Z.of_N now' - Z.of_N later)); [lia|].
  rewrite with_platform_same; [reflexivity| |reflexivity].
  eapply Forall_impl; [eapply fetched_repos_kept; exact Hfetch|].
  intros r [Hp _]. exact Hp.
Qed.

Lemma listing_ends (fuel : nat) (s : settings) :
  (50 <= fuel)%nat ->
  (exists o reqs, fetchUserRepositories fetchGitHub fuel s = Some (o, reqs)) /\
  (exists o reqs, fetchGitLabProjects fetchGitLab fuel s = Some (o, reqs)).
Proof.
  intros Hfuel. split.
  - destruct (paginate_capped repo fetchGitHub repos_endpoint json_repos (keep_repos s)
                "Failed to fetch repositories" (keep_repos_length s) fuel Hfuel)
      as (o & k & Hrun & _). eauto.
  - destruct (paginate_capped gitlab_project fetchGitLab projects_endpoint json_projects
                (keep_projects s) "Failed to fetch GitLab projects"
                (keep_projects_length s) fuel Hfuel)
      as (o & k & Hrun & _). eauto.
Qed.

Lemma github_part_platform (fuel : nat) (s : settings) (now later : N) (l l' : listing)
    (o : outcome (list repo)) (reqs : list string) :
  getGitHubRepositories fetchGitHub fuel s now later l = Some (o, l', reqs) ->
  Forall (fun r => JS.truthy_opt JS.truthy_string (platform r) = true) (or_nothing o).
Proof.
  unfold getGitHubRepositories. destruct (outdated now l).
  - unfold refreshed.
    destruct (fetchUserRepositories fetchGitHub fuel s) as [[[rs|e] reqs0]|] eqn:Hfetch;
      [| |discriminate].
    + intros [= <- _ _]. simpl.
      eapply Forall_impl; [eapply fetched_repos_kept; exact Hfetch|].
      intros r [-> _]. reflexivity.
    + intros [= <- _ _]. constructor.
  - intros [= <- _ _]. simpl. now apply with_platform_truthy.
Qed.

Lemma gitlab_part_platform (fuel : nat) (s : settings) (now later : N) (l l' : listing)
    (o : outcome (list repo)) (reqs : list string) :
  getGitLabRepositories fetchGitLab fuel s now later l = Some (o, l', reqs) ->
  Forall (fun r => JS.truthy_opt JS.truthy_string (platform r) = true) (or_nothing o).
Proof.
  unfold getGitLabRepositories. destruct (outdated now l).
  - unfold refreshed, fetchGitLabProjects.
    destruct (paginate _ _ _ _ _ _ _ _) as [[[rs|e] reqs0]|] eqn:Hfetch;
      [| |discriminate].
    + intros [= <- _ _]. simpl.
      eapply Forall_impl;
        [refine (paginate_kept _ _ _ _ _ _ _ fuel first_page rs reqs0
                   (keep_projects_kept s) _ Hfetch); constructor|].
      intros r [-> _]. reflexivity.
    + intros [= <- _ _]. constructor.
  - intros [= <- _ _]. simpl. now apply with_platform_truthy.
Qed.

(** A listing that throws leaves the stored listing as it was. *)
Lemma github_throw_keeps (fuel : nat) (s : settings) (now later : N) (l l' : listing)
    (e : error) (reqs : list string) :
  getGitHubRepositories fetchGitHub fuel s now later l = Some (Threw e, l', reqs) ->
  l' = l.
Proof.
  unfold getGitHubRepositories. destruct (outdated now l); [|discriminate].
  unfold refreshed.
  destruct (fetchUserRepositories fetchGitHub fuel s) as [[[rs|e0] reqs0]|];
    [discriminate | | discriminate].
  intros [= _ <- _]. reflexivity.
Qed.

Lemma gitlab_throw_keeps (fuel : nat) (s : settings) (now later : N) (l l' : listing)
    (e : error) (reqs : list string) :
  getGitLabRepositories fetchGitLab fuel s now later l = Some (Threw e, l', reqs) ->
  l' = l.
Proof.
  unfold getGitLabRepositories. destruct (outdated now l); [|discriminate].
  unfold refreshed.
  destruct (fetchGitLabProjects fetchGitLab fuel s) as [[[rs|e0] reqs0]|];
    [discriminate | | discriminate].
  intros [= _ <- _]. reflexivity.
Qed.

(** X15. With fuel for 50 pages a platform [getRepositories] always
    resolves to a list: a platform without a token contributes nothing,
    is sent no request and keeps its stored listing, a platform whose
    listing throws, GitHub or GitLab, contributes nothing either and
    keeps its stored listing, and every repository of the list names its
    platform. *)
Theorem getRepositories_never_fails (fuel : nat) (s : settings)
    (githubToken gitlabToken : option string) (githubClock gitlabClock : N * N)
    (github gitlab : listing) :
  (50 <= fuel)%nat ->
  exists rs gh gl,
    getRepositories fetchGitHub fetchGitLab fuel s githubToken gitlabToken
                    githubClock gitlabClock github gitlab
    = Some (rs, gh, gl) /\
    rs = part gh ++ part gl /\
    Forall (fun r => JS.truthy_opt JS.truthy_string (platform r) = true) rs /\
    (JS.truthy_opt JS.truthy_string githubToken = false ->
     part gh = [] /\ asked gh = [] /\ listing_left gh = github) /\
    (JS.truthy_opt JS.truthy_string gitlabToken = false ->
     part gl = [] /\ asked gl = [] /\ listing_left gl = gitlab) /\
    (forall e l' reqs,
       JS.truthy_opt JS.truthy_string githubToken = true ->
       getGitHubRepositories fetchGitHub fuel s githubClock.1 githubClock.2 github
       = Some (Threw e, l', reqs) ->
       part gh = [] /\ rs = part gl /\ listing_left gh = github /\ asked gh = reqs) /\
    (forall e l' reqs,
       JS.truthy_opt JS.truthy_string gitlabToken = true ->
       getGitLabRepositories fetchGitLab fuel s gitlabClock.1 gitlabClock.2 gitlab
       = Some (Threw e, l', reqs) ->
       part gl = [] /\ rs = part gh /\ listing_left gl = gitlab /\ asked gl = reqs).
Proof.
  intros Hfuel. destruct (listing_ends fuel s Hfuel) as [(o1 & q1 & H1) (o2 & q2 & H2)].
  assert (Hgh : exists o l' reqs,
            getGitHubRepositories fetchGitHub fuel s githubClock.1 githubClock.2 github
            = Some (o, l', reqs)).
  { unfold getGitHubRepositories. destruct (outdated _ _); [|eauto].
    rewrite H1. unfold refreshed. destruct o1; eauto. }
  assert (Hgl : exists o l' reqs,
            getGitLabRepositories fetchGitLab fuel s gitlabClock.1 gitlabClock.2 gitlab
            = Some (o, l', reqs)).
  { unfold getGitLabRepositories. destruct (outdated _ _); [|eauto].
    rewrite H2. unfold refreshed. destruct o2; eauto. }
  destruct Hgh as (og & lg & qg & Hgh). destruct Hgl as (ol & ll & ql & Hgl).
  pose proof (github_part_platform _ _ _ _ _ _ _ _ Hgh) as Pg.
  pose proof (gitlab_part_platform _ _ _ _ _ _ _ _ Hgl) as Pl.
  assert (Pnil : Forall (fun r : repo =>
                   JS.truthy_opt JS.truthy_string (platform r) = true) [])
    by constructor.
  unfold getRepositories, contribution. rewrite Hgh, Hgl.
  destruct (JS.truthy_opt JS.truthy_string githubToken),
           (JS.truthy_opt JS.truthy_string gitlabToken);
    eexists _, _, _; (split; [reflexivity|]); cbn [part asked listing_left];
    (split; [reflexivity|]);
    (split; [apply Forall_app; split; assumption|]);
    (split; [intros Hno; first [discriminate | auto]|]);
    (split; [intros Hno; first [discriminate | auto]|]);
    (split; intros e l' reqs Htok Hthrew; try discriminate);
    [ pose proof (github_throw_keeps _ _ _ _ _ _ _ _ (eq_trans Hgh Hthrew)) as Hkept;
      assert (og = Threw e /\ lg = l' /\ qg = reqs) as (-> & -> & ->)
        by (repeat split; congruence)
    | pose proof (gitlab_throw_keeps _ _ _ _ _ _ _ _ (eq_trans Hgl Hthrew)) as Hkept;
      assert (ol = Threw e /\ ll = l' /\ ql = reqs) as (-> & -> & ->)
        by (repeat split; congruence)
    | pose proof (github_throw_keeps _ _ _ _ _ _ _ _ (eq_trans Hgh Hthrew)) as Hkept;
      assert (og = Threw e /\ lg = l' /\ qg = reqs) as (-> & -> & ->)
        by (repeat split; congruence)
    | pose proof (gitlab_throw_keeps _ _ _ _ _ _ _ _ (eq_trans Hgl Hthrew)) as Hkept;
      assert (ol = Threw e /\ ll = l' /\ ql = reqs) as (-> & -> & ->)
        by (repeat split; congruence) ];
    simpl; rewrite ?app_nil_r; auto.
Qed.

End ListsFacts.

(** * Further properties of the change detector and of the sweep *)

Section MonitoringMore.
Import Monitoring.

Variable fetchGitHub : string -> outcome response.
Variable fetchGitLab : string -> outcome response.
Variable encodeURIComponent : string -> outcome string.

Local Abbreviation fetchLatestCommit :=
  (Monitoring.fetchLatestCommit fetchGitHub fetchGitLab encodeURIComponent).
Local Abbreviation check :=
  (checkRepoForNewCommits fetchGitHub fetchGitLab encodeURIComponent).
Local Abbreviation sweep :=
  (checkAllRepositoriesForCommits fetchGitHub fetchGitLab encodeURIComponent).

(** What a fetch gives does not depend on the last known sha, but for
    the [unchanged] flag. *)
Lemma refetch (r : repo) (last last' : option string) (l : latest) :
  fetchLatestCommit r last = Returned (Some l) -> unchanged l = false ->
  exists l', fetchLatestCommit r last' = Returned (Some l') /\
             (unchanged l' = true \/ l' = l).
Proof.
  unfold Monitoring.fetchLatestCommit, fetchLatestGitLabCommit, fetchLatestGitHubCommit,
    json_commits, json_commit, json_gitlab_commits, catch, bind.
  intros Hfetch Hflag.
  destruct (is_gitlab r).
  - destruct (encodeURIComponent _) as [pid|]; [|discriminate].
    destruct (fetchGitLab (gitlab_commits_endpoint pid r)) as [resp|]; [|discriminate].
    destruct (ok resp); simpl in *;
      [|destruct (status resp =? 404); discriminate].
    destruct (json resp) as [[]|]; try discriminate.
    destruct (head cs) as [gc|]; [|discriminate].
    destruct (same_sha last (gl_id gc)).
    { injection Hfetch as <-. discriminate. }
    destruct (same_sha last' (gl_id gc)); [eexists; split; [reflexivity|]; left; reflexivity|].
    destruct (gitlab_files _ _ _) as [fs st]. eexists. split; [reflexivity|].
    right. congruence.
  - destruct (fetchGitHub (commits_endpoint r)) as [resp|]; [|discriminate].
    destruct (ok resp); simpl in *;
      [|destruct (status resp =? 409); discriminate].
    destruct (json resp) as [[]|]; try discriminate.
    destruct (head cs) as [first|]; [|discriminate].
    destruct (same_sha last (sha first)).
    { injection Hfetch as <-. discriminate. }
    destruct (same_sha last' (sha first)); [eexists; split; [reflexivity|]; left; reflexivity|].
    destruct (fetchGitHub _) as [detail|]; [|discriminate].
    destruct (ok detail); simpl in *; [|eexists; split; [reflexivity|]; right; congruence].
    destruct (json detail) as [[]|]; try discriminate.
    eexists. split; [reflexivity|]. right. congruence.
Qed.

(** What stands behind a result of the check. *)
Lemma check_result (r : repo) (lastCommits : gmap string string) (s : settings)
    (u g : option user) (x : result) :
  check r lastCommits s u g = Returned (Some x) ->
  disabled s r = false /\
  exists l, fetchLatestCommit r (last_known lastCommits r) = Returned (Some l) /\
            unchanged l = false /\ res_commit x = fetched l.
Proof.
  unfold checkRepoForNewCommits. intros Hres.
  destruct (disabled s r); [discriminate|]. split; [reflexivity|].
  destruct (fetchLatestCommit r (last_known lastCommits r)) as [[[c flag]|]|];
    simpl in Hres; try discriminate.
  destruct flag; [discriminate|].
  exists {| fetched := c; unchanged := false |}.
  split; [reflexivity|]. split; [reflexivity|].
  repeat case_match; simplify_eq; reflexivity.
Qed.

Lemma last_known_stored (lastCommits : gmap string string) (r : repo) (id : string) :
  lastCommits !! key_of r = Some id -> id <> "" ->
  last_known lastCommits r = Some id.
Proof.
  intros Hlook Hne. unfold last_known, JS.or_else. rewrite Hlook. simpl.
  destruct id; [contradiction | reflexivity].
Qed.

(** Once the sha of a result is the stored one, the check has nothing
    to report. *)
Lemma recheck_is_silent (r : repo) (lastCommits lastCommits' : gmap string string)
    (s s' : settings) (u g u' g' : option user) (x : result) :
  check r lastCommits s u g = Returned (Some x) ->
  sha (res_commit x) <> "" ->
  lastCommits' !! key_of r = Some (sha (res_commit x)) ->
  check r lastCommits' s' u' g' = Returned None.
Proof.
  intros Hres Hne Hstored.
  destruct (check_result _ _ _ _ _ _ Hres) as (_ & l & Hfetch & Hflag & Hcommit).
  pose proof (last_known_stored _ _ _ Hstored Hne) as Hlast.
  unfold checkRepoForNewCommits. rewrite Hlast.
  destruct (disabled s' r); [reflexivity|].
  destruct (refetch r _ (Some (sha (res_commit x))) l Hfetch Hflag)
    as (l' & Hfetch' & [Hflag'| ->]); rewrite Hfetch'; simpl.
  - destruct l' as [c' flag']. simpl in Hflag'. subst flag'. reflexivity.
  - destruct l as [c flag]. simpl in *. subst flag c.
    destruct (sha (res_commit x)) eqn:Hsha; [contradiction|]. simpl.
    rewrite bool_decide_eq_true_2 by reflexivity. reflexivity.
Qed.

(** X16. A commit is reported once: after a sweep over repositories
    that are answered in type has stored the sha of a result, the check
    of that repository reports nothing as long as the head stays the
    same, whatever the settings and the users are by then. *)
Theorem a_commit_is_reported_once (fuel : nat) (repos : list repo) (now : N)
    (st : storage) (r : repo) (x : result)
    (s' : settings) (u' g' : option user) :
  notificationsEnabled (st_settings st) = true ->
  is_Some (st_userData st) \/ is_Some (st_gitlabUserData st) ->
  NoDup (map key_of repos) -> (length repos <= fuel)%nat -> r ∈ repos ->
  (forall r', r' ∈ repos ->
     typed_answers fetchGitHub fetchGitLab encodeURIComponent r') ->
  check r (default ∅ (st_lastCommits st)) (st_settings st)
        (st_userData st) (st_gitlabUserData st) = Returned (Some x) ->
  sha (res_commit x) <> "" ->
  exists st1 sent,
    sweep fuel (Returned repos) now st = Some (st1, sent) /\
    check r (default ∅ (st_lastCommits st1)) s' u' g' = Returned None.
Proof.
  intros Hon Hid Hnodup Hfuel Hin _ Hres Hne.
  eexists _, _. split.
  - apply (sweep_runs fetchGitHub fetchGitLab encodeURIComponent fuel repos now st
             Hon Hid Hfuel).
  - eapply recheck_is_silent; [exact Hres | exact Hne |].
    simpl. apply (fold_stores fetchGitHub fetchGitLab encodeURIComponent
                    _ _ _ _ _ _ r x Hnodup Hin Hres).
Qed.

(** X17. A sweep that passes its gates, over repositories that are
    answered in type, sends one notification for each new result, in the
    order of the repository list, adds their number to the unread count,
    stores the time of the check and leaves alone every key of
    [lastCommits] under which no repository reported a result. *)
Theorem what_a_sweep_leaves (fuel : nat) (repos : list repo) (now : N) (st : storage) :
  let s := st_settings st in
  let lastCommits := default ∅ (st_lastCommits st) in
  let check_of r := check r lastCommits s (st_userData st) (st_gitlabUserData st) in
  notificationsEnabled s = true ->
  is_Some (st_userData st) \/ is_Some (st_gitlabUserData st) ->
  (length repos <= fuel)%nat ->
  (forall r, r ∈ repos -> typed_answers fetchGitHub fetchGitLab encodeURIComponent r) ->
  exists st' sent m,
    sweep fuel (Returned repos) now st = Some (st', sent) /\
    sent = filter (fun x => isNew x = true) (omap (fun r => settled (check_of r)) repos) /\
    st_unreadCount st'
    = (if decide (sent = []) then st_unreadCount st
       else Some (default 0 (st_unreadCount st) + Z.of_nat (length sent))) /\
    st_lastCheckTime st' = Some now /\
    st_lastCommits st' = Some m /\
    (forall k, (forall r, r ∈ repos -> key_of r = k -> check_of r = Returned None) ->
               m !! k = lastCommits !! k).
Proof.
  intros s lastCommits check_of Hon Hid Hfuel _.
  eexists _, _, _. split.
  { apply (sweep_runs fetchGitHub fetchGitLab encodeURIComponent fuel repos now st
             Hon Hid Hfuel). }
  pose proof (fold_new fetchGitHub fetchGitLab encodeURIComponent lastCommits s
                (st_userData st) (st_gitlabUserData st) repos
                {| newCommits := []; updatedLastCommits := lastCommits |}) as Hnew.
  simpl in Hnew. fold s lastCommits. rewrite Hnew.
  split; [reflexivity|]. split.
  - simpl. rewrite Hnew.
    destruct (filter _ _) as [|x xs]; reflexivity.
  - split; [reflexivity|]. split; [reflexivity|].
    intros k Hk. simpl. rewrite fold_frame by exact Hk. reflexivity.
Qed.

(** X18. With a last known sha, a fetched commit with another sha is
    reported as new, with the priority of the classifier, unless
    [ignoreOwnCommits] is set and the author is the user of the platform:
    own commits are reported when the setting is off, and all commits
    when no user of the platform is stored. *)
Theorem another_commit_is_new (r : repo) (lastCommits : gmap string string)
    (s : settings) (u g : option user) (l : latest) (last : string) :
  let currentUser := if is_gitlab r then g else u in
  disabled s r = false ->
  last_known lastCommits r = Some last -> last <> "" ->
  fetchLatestCommit r (Some last) = Returned (Some l) ->
  sha (fetched l) <> last ->
  ignoreOwnCommits s = false \/ own_commit (fetched l) currentUser = false ->
  check r lastCommits s u g
  = Returned (Some {| res_repo := r; res_commit := fetched l; isNew := true;
                      res_priority :=
                        Some (CommitAnalysis.classifyCommitPriority
                                (fetched l) r currentUser);
                      repoKey := key_of r |}).
Proof.
  intros currentUser Hen Hlast Hne Hfetch Hdiff Hnotown.
  unfold checkRepoForNewCommits. rewrite Hen, Hlast, Hfetch. simpl.
  destruct l as [c flag]. simpl in *. destruct flag.
  { apply (flagged_is_last_known fetchGitHub fetchGitLab encodeURIComponent) in Hfetch;
      [|reflexivity].
    apply same_sha_eq in Hfetch. simpl in Hfetch. congruence. }
  destruct last; [contradiction|]. simpl.
  rewrite bool_decide_eq_false_2 by congruence. simpl.
  fold currentUser.
  destruct Hnotown as [-> | ->]; [reflexivity|].
  rewrite andb_false_r. reflexivity.
Qed.

(** X19. When the diff of the head commit of a GitLab project cannot be
    had, by an exception, a response that is not [ok] or a body that
    cannot be read, the commit is fetched all the same, without files
    and with zero stats; with fewer than two parents its priority is then
    the one its message gives. *)
Theorem gitlab_commit_without_diff (r : repo) (last : option string)
    (projectId : string) (resp : response) (head : gitlab_commit)
    (rest : list gitlab_commit) (u : option user) :
  is_gitlab r = true ->
  encodeURIComponent (full_name r) = Returned projectId ->
  fetchGitLab (gitlab_commits_endpoint projectId r) = Returned resp ->
  ok resp = true -> json resp = Returned (GitLabCommits (head :: rest)) ->
  same_sha last (gl_id head) = false ->
  (forall diffResponse,
     fetchGitLab (Detector.diff_endpoint projectId (gl_id head)) = Returned diffResponse ->
     ok diffResponse = true -> exists e, json diffResponse = Threw e) ->
  fetchLatestCommit r last = Returned (Some (as_fetched (Detector.without_diff head))) /\
  ((length (default [] (gl_parent_ids head)) < 2)%nat ->
   CommitAnalysis.classifyCommitPriority (Detector.without_diff head) r u
   = Classifier.by_message (gl_message head)).
Proof.
  intros Hgl Henc Hlist Hok Hjson Hsame Hdiff. split.
  - unfold Monitoring.fetchLatestCommit, fetchLatestGitLabCommit. rewrite Hgl, Henc.
    simpl. rewrite Hlist. simpl. rewrite Hok. simpl.
    unfold json_gitlab_commits. rewrite Hjson. simpl. rewrite Hsame.
    unfold gitlab_files, Detector.diff_endpoint in *.
    destruct (fetchGitLab ("/projects/" +:+ projectId +:+ "/repository/commits/" +:+
                           gl_id head +:+ "/diff"))
      as [diffResponse|e] eqn:Hfetch; simpl; [|reflexivity].
    destruct (ok diffResponse) eqn:Hdok; simpl; [|reflexivity].
    unfold json_diffs. destruct (Hdiff diffResponse eq_refl Hdok) as [e ->].
    reflexivity.
  - intros Hparents.
    apply without_files_the_message_decides_core; [|reflexivity].
    unfold CommitAnalysis.merge_parents, Detector.without_diff. simpl.
    destruct (length (default [] (gl_parent_ids head))) as [|[|n]];
      [reflexivity | reflexivity | lia].
Qed.

End MonitoringMore.

(** * Properties of the utilities and of the badge *)

Section UtilsFacts.
Import Utils Badge.

(** X20. With a limit of at least one unit [truncate] returns at most
    [max] units that agree with the string on the first [max - 1], and
    it returns the string itself exactly when the string has at most
    [max] units. *)
Theorem truncate_fits {A} (ellipsis : A) (str : list A) (max : Z) :
  1 <= max ->
  Z.of_nat (length (truncate ellipsis str max)) <= max /\
  take (Z.to_nat (max - 1)) (truncate ellipsis str max) = take (Z.to_nat (max - 1)) str /\
  (truncate ellipsis str max = str <-> Z.of_nat (length str) <= max).
Proof.
  intros Hmax. unfold truncate, slice_to.
  destruct (Z.ltb_spec max (Z.of_nat (length str))) as [Hlong|Hshort].
  - destruct (Z.ltb_spec (max - 1) 0); [lia|].
    assert (Hlen : length (take (Z.to_nat (max - 1)) str) = Z.to_nat (max - 1))
      by (rewrite length_take; lia).
    split; [|split].
    + rewrite length_app, Hlen. simpl. lia.
    + rewrite take_app_le by lia. rewrite take_take. f_equal. lia.
    + split; [|lia]. intros Heq. apply (f_equal length) in Heq.
      rewrite length_app, Hlen in Heq. simpl in Heq. lia.
  - split; [exact Hshort|]. split; [reflexivity|]. split; [intros _; exact Hshort | reflexivity].
Qed.

Lemma small_numbers :
  Forall (fun k => (String.length (number (Z.of_nat k)) <=? 3)%nat &&
                   negb (String.eqb (number (Z.of_nat k)) "") = true)
         (seq 1 99).
Proof. apply (bool_decide_unpack _). vm_compute. exact I. Qed.

(** X21. The text of the badge has at most three characters, and it is
    empty exactly when the count is not positive. *)
Theorem badge_is_short (count : Z) :
  (String.length (updateBadge count) <= 3)%nat /\
  (updateBadge count = "" <-> count <= 0).
Proof.
  unfold updateBadge.
  destruct (Z.ltb_spec 0 count) as [Hpos|Hnot].
  - destruct (Z.ltb_spec 99 count) as [Hbig|Hsmall].
    + split; [simpl; lia|]. split; [discriminate | lia].
    + pose proof small_numbers as Hall. rewrite Forall_forall in Hall.
      assert (Hin : Z.to_nat count ∈ seq 1 99) by (apply elem_of_seq; lia).
      apply Hall in Hin. rewrite Z2Nat.id in Hin by lia.
      apply andb_true_iff in Hin as [Hlen Hne].
      apply Nat.leb_le in Hlen. apply negb_true_iff, String.eqb_neq in Hne.
      split; [exact Hlen|]. split; [contradiction | lia].
  - split; [simpl; lia|]. split; [intros _; exact Hnot | reflexivity].
Qed.

End UtilsFacts.

(** * Properties of the inbox check *)

Section InboxFacts.
Import Inbox.

Lemma elem_of_add (x y : string) (s : list string) :
  y ∈ add x s <-> y = x \/ y ∈ s.
Proof.
  unfold add. case_bool_decide as Hx.
  - split; [auto | intros [->|Hy]; assumption].
  - rewrite elem_of_app, list_elem_of_singleton. tauto.
Qed.

Lemma add_NoDup (x : string) (s : list string) : NoDup s -> NoDup (add x s).
Proof.
  unfold add. case_bool_decide as Hx; [auto|]. intros Hs.
  apply NoDup_app. split; [exact Hs|]. split; [|apply NoDup_singleton].
  intros y Hy Hyx. apply list_elem_of_singleton in Hyx. subst. contradiction.
Qed.

(** What a run of [add] over a list leaves. *)
Lemma fold_add {B} (f : B -> string) (l : list B) (s : list string) :
  exists extra,
    fold_left (fun s n => add (f n) s) l s = s ++ extra /\
    (length extra <= length l)%nat /\
    (forall y, y ∈ extra <-> y ∈ map f l /\ y ∉ s) /\
    (NoDup s -> NoDup (s ++ extra)).
Proof.
  revert s. induction l as [|n l IH]; intros s; simpl.
  - exists []. rewrite app_nil_r. split; [reflexivity|]. split; [simpl; lia|].
    split; [|auto]. intros y. split; [inversion 1 | intros [Hy _]; inversion Hy].
  - destruct (IH (add (f n) s)) as (extra & -> & Hlen & Hin & Hnodup).
    unfold add in *. case_bool_decide as Hn.
    + exists extra. split; [reflexivity|]. split; [lia|]. split; [|exact Hnodup].
      intros y. rewrite Hin, elem_of_cons. split; [tauto|].
      intros [[->|Hy] Hs]; [contradiction | tauto].
    + exists (f n :: extra). rewrite <- app_assoc. split; [reflexivity|].
      split; [simpl; lia|]. split.
      * intros y. rewrite !elem_of_cons, Hin, elem_of_app, list_elem_of_singleton.
        destruct (decide (y = f n)) as [->|Hne]; tauto.
      * intros Hs.
        replace (s ++ f n :: extra) with ((s ++ [f n]) ++ extra)
          by (rewrite <- app_assoc; reflexivity).
        apply Hnodup. apply NoDup_app.
        split; [exact Hs|]. split; [|apply NoDup_singleton].
        intros y Hy Hyn. apply list_elem_of_singleton in Hyn. subst. contradiction.
Qed.

Lemma Set_of_spec (ids : list string) :
  NoDup (Set_of ids) /\ forall y, y ∈ Set_of ids <-> y ∈ ids.
Proof.
  unfold Set_of. destruct (fold_add (fun x => x) ids []) as (extra & Heq & _ & Hin & Hnodup).
  simpl in Heq. rewrite Heq. split; [apply Hnodup; constructor|].
  intros y. rewrite Hin, map_id. split; [tauto|]. intros Hy. split; [exact Hy | inversion 1].
Qed.

Lemma last_of_all {A} (n : nat) (l : list A) : (length l <= n)%nat -> last_of n l = l.
Proof. intros Hl. unfold last_of. replace (length l - n)%nat with 0%nat by lia. reflexivity. Qed.

Lemma last_of_length {A} (n : nat) (l : list A) : (length (last_of n l) <= n)%nat.
Proof. unfold last_of. rewrite length_drop. lia. Qed.

Lemma last_of_keeps {A} (n : nat) (s extra : list A) (y : A) :
  (length extra <= n)%nat -> y ∈ extra -> y ∈ last_of n (s ++ extra).
Proof.
  intros Hlen Hy. unfold last_of. rewrite length_app, drop_app_le by lia.
  apply elem_of_app. now right.
Qed.

Lemma last_of_NoDup {A} (n : nat) (l : list A) : NoDup l -> NoDup (last_of n l).
Proof.
  intros Hl. unfold last_of. rewrite <- (take_drop (length l - n) l) in Hl.
  apply NoDup_app in Hl as (_ & _ & Hl). exact Hl.
Qed.

Lemma elem_of_take_l {A} (k : nat) (l : list A) (x : A) : x ∈ take k l -> x ∈ l.
Proof. intros Hx. rewrite <- (take_drop k l). apply elem_of_app. now left. Qed.

Lemma is_new_spec (seenSet : list string) (n : notification) :
  is_new seenSet n = true <->
  (id n ∉ seenSet) /\
  (subject_type n ∈ importantTypes \/ reason n ∈ importantReasons).
Proof.
  unfold is_new. case_bool_decide as Hseen.
  - split; [discriminate | tauto].
  - rewrite orb_true_iff, !bool_decide_eq_true. tauto.
Qed.

(** What a check that read an inbox sent and stored. *)
Lemma check_reads (seen : option (list string)) (inbox : list notification) :
  let seenSet := Set_of (default [] seen) in
  let sent := take 5 (filter (fun n => is_new seenSet n = true) inbox) in
  let stored := fold_left (fun s n => add (id n) s) sent seenSet in
  (length sent <= 5)%nat /\
  Forall (fun n => (id n ∉ default [] seen) /\
                   (subject_type n ∈ importantTypes \/ reason n ∈ importantReasons)) sent /\
  NoDup (last_of 1000 stored) /\
  (length (last_of 1000 stored) <= 1000)%nat /\
  Forall (fun n => id n ∈ last_of 1000 stored) sent /\
  (length stored <= length seenSet + 5)%nat /\
  (forall y, y ∈ stored <-> y ∈ default [] seen \/ y ∈ map id sent).
Proof.
  intros seenSet sent stored.
  destruct (Set_of_spec (default [] seen)) as [Hnodup Hset]. fold seenSet in Hnodup, Hset.
  assert (Hlen : (length sent <= 5)%nat) by (unfold sent; rewrite length_take; lia).
  assert (Hsent : forall n, n ∈ sent -> is_new seenSet n = true).
  { intros n Hn. apply elem_of_take_l in Hn.
    apply list_elem_of_filter in Hn as [Hn _]. exact Hn. }
  destruct (fold_add id sent seenSet) as (extra & Heq & Hextra & Hin & Hnd).
  fold stored in Heq.
  split; [exact Hlen|]. split.
  { apply Forall_forall. intros n Hn. apply Hsent, is_new_spec in Hn as [Hn Himp].
    rewrite Hset in Hn. auto. }
  split; [apply last_of_NoDup; rewrite Heq; auto|].
  split; [apply last_of_length|]. split.
  { apply Forall_forall. intros n Hn. rewrite Heq. apply last_of_keeps; [lia|].
    apply Hin. split.
    - change (map id sent) with (id <$> sent). now apply list_elem_of_fmap_2.
    - apply Hsent, is_new_spec in Hn as [Hn _]. exact Hn. }
  split; [rewrite Heq, length_app; lia|].
  intros y. rewrite Heq, elem_of_app, Hin, Hset.
  destruct (decide (y ∈ default [] seen)); tauto.
Qed.

Lemma filter_ext_in {A} (P Q : A -> Prop) `{!forall x, Decision (P x)}
    `{!forall x, Decision (Q x)} (l : list A) :
  (forall x, x ∈ l -> P x <-> Q x) -> filter P l = filter Q l.
Proof.
  induction l as [|a l IH]; intros Hext; [reflexivity|].
  rewrite !filter_cons, IH by (intros x Hx; apply Hext; now right).
  destruct (decide (P a)) as [Hp|Hp], (decide (Q a)) as [Hq|Hq]; try reflexivity;
    exfalso; apply (Hext a ltac:(left)) in Hp || apply (Hext a ltac:(left)) in Hq;
    contradiction.
Qed.

Lemma filter_true_in {A} (P : A -> Prop) `{!forall x, Decision (P x)} (l : list A) :
  (forall x, x ∈ l -> P x) -> filter P l = l.
Proof.
  induction l as [|a l IH]; intros Hall; [reflexivity|].
  rewrite filter_cons, decide_True by (apply Hall; left).
  rewrite IH by (intros x Hx; apply Hall; now right). reflexivity.
Qed.

Lemma filter_none_in {A} (P : A -> Prop) `{!forall x, Decision (P x)} (l : list A) :
  (forall x, x ∈ l -> ~ P x) -> filter P l = [].
Proof.
  induction l as [|a l IH]; intros Hall; [reflexivity|].
  rewrite filter_cons, decide_False by (apply Hall; left).
  apply IH. intros x Hx. apply Hall. now right.
Qed.

Lemma NoDup_map_filter {A B} (f : A -> B) (P : A -> Prop) `{!forall x, Decision (P x)}
    (l : list A) :
  NoDup (map f l) -> NoDup (map f (filter P l)).
Proof.
  induction l as [|a l IH]; simpl; intros Hl; [constructor|].
  apply NoDup_cons in Hl as [Ha Hl]. rewrite filter_cons.
  destruct (decide (P a)); [|auto]. simpl. apply NoDup_cons. split; [|auto].
  intros Hin. apply Ha.
  change (map f ?l) with (f <$> l) in *.
  apply list_elem_of_fmap in Hin as (x & -> & Hx).
  apply list_elem_of_filter in Hx as [_ Hx]. now apply list_elem_of_fmap_2.
Qed.

(** With distinct keys, filtering out the keys of the first [k] elements
    drops these elements. *)
Lemma filter_not_taken {A} (f : A -> string) (k : nat) (l : list A) :
  NoDup (map f l) -> filter (fun n => f n ∉ map f (take k l)) l = drop k l.
Proof.
  revert k. induction l as [|a l IH]; intros k Hl; [destruct k; reflexivity|].
  simpl in Hl. apply NoDup_cons in Hl as [Ha Hl]. destruct k as [|k].
  - change (drop 0 (a :: l)) with (a :: l). apply filter_true_in.
    intros x _. inversion 1.
  - simpl. rewrite filter_cons. rewrite decide_False by (intros Hn; apply Hn; left).
    rewrite <- (IH k Hl). apply filter_ext_in. intros x Hx.
    rewrite not_elem_of_cons. split; [tauto|]. intros Hn. split; [|exact Hn].
    intros Heq. apply Ha. rewrite <- Heq.
    change (map f l) with (f <$> l). now apply list_elem_of_fmap_2.
Qed.

Section OneServer.

Variable fetchGitHub : string -> outcome (reply (list notification)).

Local Abbreviation check := (checkGitHubNotifications fetchGitHub).

(** A check fails and touches nothing, or it reads an inbox. *)
Lemma check_cases (seen : option (list string)) :
  check seen = (seen, []) \/
  exists response inbox,
    fetchGitHub "/notifications?all=false&per_page=50" = Returned response /\
    reply_ok response = true /\ reply_json response = Returned inbox /\
    let seenSet := Set_of (default [] seen) in
    let sent := take 5 (filter (fun n => is_new seenSet n = true) inbox) in
    check seen
    = (Some (last_of 1000 (fold_left (fun s n => add (id n) s) sent seenSet)), sent).
Proof.
  unfold checkGitHubNotifications.
  destruct (fetchGitHub _) as [response|e] eqn:Hfetch; simpl; [|now left].
  destruct (reply_ok response) eqn:Hok; simpl; [|now left].
  destruct (reply_json response) as [inbox|e] eqn:Hjson; simpl; [|now left].
  right. exists response, inbox. auto.
Qed.

(** X22. A check of the inbox sends at most five notifications, each
    of an important type or reason and none with an id in
    [seenNotifications]; it either fails, sending nothing and leaving
    [seenNotifications] as it was, or stores at most 1000 distinct ids,
    those of the notifications sent among them. *)
Theorem inbox_check_is_bounded (seen : option (list string)) :
  let sent := (check seen).2 in
  (length sent <= 5)%nat /\
  Forall (fun n => (id n ∉ default [] seen) /\
                   (subject_type n ∈ importantTypes \/ reason n ∈ importantReasons)) sent /\
  (check seen = (seen, []) \/
   exists stored, (check seen).1 = Some stored /\
     NoDup stored /\ (length stored <= 1000)%nat /\
     Forall (fun n => id n ∈ stored) sent).
Proof.
  destruct (check_cases seen) as [Hfail|(response & inbox & _ & _ & _ & Hrun)].
  - rewrite Hfail. simpl. split; [lia|]. split; [constructor | now left].
  - cbv zeta in Hrun. rewrite Hrun.
    destruct (check_reads seen inbox) as (Hlen & Himp & Hnodup & Hcap & Hkept & _).
    cbn [fst snd]. split; [exact Hlen|]. split; [exact Himp|].
    right. eexists. split; [reflexivity|]. auto.
Qed.

(** A check whose request is answered reads the inbox. *)
Lemma check_ok (seen : option (list string)) (response : reply (list notification))
    (inbox : list notification) :
  fetchGitHub "/notifications?all=false&per_page=50" = Returned response ->
  reply_ok response = true -> reply_json response = Returned inbox ->
  let seenSet := Set_of (default [] seen) in
  let sent := take 5 (filter (fun n => is_new seenSet n = true) inbox) in
  check seen
  = (Some (last_of 1000 (fold_left (fun s n => add (id n) s) sent seenSet)), sent).
Proof.
  intros Hfetch Hok Hjson. unfold checkGitHubNotifications.
  rewrite Hfetch. simpl. rewrite Hok. simpl. rewrite Hjson. reflexivity.
Qed.

(** X24. What the limit of five holds back is sent by the next check:
    over an inbox of distinct ids that stays the same, and with room for
    five more ids under the limit of 1000, two checks in a row send the
    first ten notifications that are important and not yet seen. *)
Theorem backlog_is_sent_next (seen : option (list string))
    (response : reply (list notification)) (inbox : list notification) :
  fetchGitHub "/notifications?all=false&per_page=50" = Returned response ->
  reply_ok response = true -> reply_json response = Returned inbox ->
  NoDup (map id inbox) ->
  (length (Set_of (default [] seen)) + 5 <= 1000)%nat ->
  let before := check seen in
  let after := check before.1 in
  before.2 ++ after.2
  = take 10 (filter (fun n => is_new (Set_of (default [] seen)) n = true) inbox).
Proof.
  intros Hfetch Hok Hjson Hids Hroom. cbv zeta.
  rewrite (check_ok seen response inbox Hfetch Hok Hjson). cbn [fst snd].
  destruct (check_reads seen inbox) as (_ & _ & _ & _ & _ & Hlen & Hstored).
  cbv zeta in Hlen, Hstored.
  set (seenSet := Set_of (default [] seen)) in *.
  set (new := filter (fun n => is_new seenSet n = true) inbox) in *.
  set (stored := fold_left (fun s n => add (id n) s) (take 5 new) seenSet) in *.
  rewrite (last_of_all 1000 stored) by lia.
  rewrite (check_ok (Some stored) response inbox Hfetch Hok Hjson). cbn [fst snd].
  change (default [] (Some stored)) with stored.
  assert (Hnext : filter (fun n => is_new (Set_of stored) n = true) inbox = drop 5 new).
  { rewrite <- (filter_not_taken id 5 new)
      by (apply NoDup_map_filter; exact Hids).
    change (filter (fun n => is_new (Set_of stored) n = true) inbox
            = filter (fun n => id n ∉ map id (take 5 new))
                     (filter (fun n => is_new seenSet n = true) inbox)).
    rewrite list_filter_filter. apply filter_ext_in.
    intros n _. rewrite !is_new_spec.
    destruct (Set_of_spec stored) as [_ ->]. destruct (Set_of_spec (default [] seen)) as [_ Hseen].
    fold seenSet in Hseen. rewrite Hstored, Hseen. tauto. }
  rewrite Hnext. apply (take_take_drop new 5 5).
Qed.

End OneServer.

(** X23. Nothing is notified twice: a check that follows another one,
    whatever the inbox has become, sends no notification with the id of
    one the check before it sent. *)
Theorem nothing_is_notified_twice
    (first second : string -> outcome (reply (list notification)))
    (seen : option (list string)) :
  let before := checkGitHubNotifications first seen in
  let after := checkGitHubNotifications second before.1 in
  Forall (fun n => id n ∉ map id before.2) after.2.
Proof.
  cbv zeta. apply Forall_forall. intros n Hn Hdup.
  destruct (check_cases first seen) as [Hfail|(r1 & inbox1 & _ & _ & _ & Hrun1)].
  { rewrite Hfail in Hdup. inversion Hdup. }
  cbv zeta in Hrun1.
  destruct (check_reads seen inbox1) as (_ & _ & _ & _ & Hkept & _). cbv zeta in Hkept.
  rewrite Hrun1 in Hdup, Hn. cbn [fst snd] in Hdup, Hn.
  change (map id ?l) with (id <$> l) in Hdup.
  apply list_elem_of_fmap in Hdup as (n1 & Heq & Hn1).
  rewrite Forall_forall in Hkept. apply Hkept in Hn1. rewrite <- Heq in Hn1.
  set (stored := last_of 1000 _) in *.
  destruct (check_cases second (Some stored)) as [Hfail|(r2 & inbox2 & _ & _ & _ & Hrun2)].
  { rewrite Hfail in Hn. inversion Hn. }
  cbv zeta in Hrun2.
  destruct (check_reads (Some stored) inbox2) as (_ & Hunseen & _). cbv zeta in Hunseen.
  rewrite Hrun2 in Hn. cbn [snd] in Hn.
  rewrite Forall_forall in Hunseen. destruct (Hunseen n Hn) as [Hnot _].
  contradiction.
Qed.

End InboxFacts.

(** * Properties of the release monitor *)

Section ReleaseFacts.
Import Monitoring Releases.

Variable fetchGitHub : string -> outcome (reply body).
Variable fetchGitLab : string -> outcome (reply body).
Variable encodeURIComponent : string -> outcome string.

Local Abbreviation fetchLatestRelease :=
  (Releases.fetchLatestRelease fetchGitHub fetchGitLab encodeURIComponent).
Local Abbreviation fetchLatestTag :=
  (Releases.fetchLatestTag fetchGitHub fetchGitLab encodeURIComponent).
Local Abbreviation check :=
  (checkRepoForNewReleases fetchGitHub fetchGitLab encodeURIComponent).
Local Abbreviation sweep :=
  (checkAllRepositoriesForReleases fetchGitHub fetchGitLab encodeURIComponent).

(** The release a check goes by: the latest release, or else the latest
    tag. *)
Local Abbreviation latest r :=
  (match fetchLatestRelease r with
   | Returned (Some found) => Some found
   | _ => match fetchLatestTag r with
          | Returned found => found
          | Threw _ => None
          end
   end).

Lemma fetchLatestRelease_returns (r : repo) :
  exists found, fetchLatestRelease r = Returned found.
Proof.
  unfold Releases.fetchLatestRelease, fetchLatestGitLabRelease, fetchLatestGitHubRelease.
  destruct (is_gitlab r); apply catch_returns.
Qed.

Lemma fetchLatestTag_returns (r : repo) :
  exists found, fetchLatestTag r = Returned found.
Proof.
  unfold Releases.fetchLatestTag, fetchLatestGitLabTag, fetchLatestGitHubTag.
  destruct (is_gitlab r); apply catch_returns.
Qed.

(** The check in terms of the release it goes by. *)
Lemma release_check_unfold (r : repo) (lastReleases : gmap string release_id)
    (s : settings) :
  check r lastReleases s
  = if disabled s r then Returned None
    else match latest r with
         | None => Returned None
         | Some found =>
             let lastKnownId := last_known_id lastReleases r in
             if negb (JS.truthy_opt truthy_id lastKnownId)
             then Returned (Some {| rel_repo := r; rel_release := found;
                                    rel_isNew := false; rel_repoKey := key_of r |})
             else if negb (String.eqb (String_of (Some (id found)))
                                      (String_of lastKnownId))
             then Returned (Some {| rel_repo := r; rel_release := found;
                                    rel_isNew := true; rel_repoKey := key_of r |})
             else Returned None
         end.
Proof.
  unfold checkRepoForNewReleases. destruct (disabled s r); [reflexivity|].
  destruct (fetchLatestRelease_returns r) as [[found|] ->]; simpl; [reflexivity|].
  destruct (fetchLatestTag_returns r) as [[found|] ->]; reflexivity.
Qed.

Lemma release_check_returns (r : repo) (lastReleases : gmap string release_id)
    (s : settings) :
  exists res, check r lastReleases s = Returned res.
Proof.
  rewrite release_check_unfold. destruct (disabled s r); [eauto|].
  destruct (latest r) as [found|]; [|eauto]. cbv zeta.
  destruct (negb _); [eauto|]. destruct (negb _); eauto.
Qed.

Lemma release_check_settled (r : repo) (lastReleases : gmap string release_id)
    (s : settings) :
  check r lastReleases s = Returned (settled (check r lastReleases s)).
Proof. destruct (release_check_returns r lastReleases s) as [res ->]. reflexivity. Qed.

(** A result carries the repository checked, its key and the release
    the check goes by. *)
Lemma release_check_key (r : repo) (lastReleases : gmap string release_id)
    (s : settings) (x : result) :
  check r lastReleases s = Returned (Some x) ->
  rel_repoKey x = key_of r /\ rel_repo x = r /\ latest r = Some (rel_release x).
Proof.
  rewrite release_check_unfold.
  destruct (disabled s r); [discriminate|].
  destruct (latest r) as [found|]; [|discriminate]. cbv zeta.
  destruct (negb _); [intros [= <-]; auto|].
  destruct (negb _); [intros [= <-]; auto | discriminate].
Qed.

(** Without a last known id nothing is new. *)
Lemma first_release_is_not_new (r : repo) (lastReleases : gmap string release_id)
    (s : settings) (x : result) :
  JS.truthy_opt truthy_id (last_known_id lastReleases r) = false ->
  check r lastReleases s = Returned (Some x) -> rel_isNew x = false.
Proof.
  intros Hfirst. rewrite release_check_unfold.
  destruct (disabled s r); [discriminate|].
  destruct (latest r) as [found|]; [|discriminate]. cbv zeta.
  rewrite Hfirst. intros [= <-]. reflexivity.
Qed.

Lemma release_all_settled (lastReleases : gmap string release_id) (s : settings)
    (batch : list repo) :
  Promise_all (map (fun r => check r lastReleases s) batch)
  = Returned (map (fun r => settled (check r lastReleases s)) batch).
Proof.
  induction batch as [|r batch IH]; [reflexivity|].
  simpl. rewrite IH. rewrite (release_check_settled r) at 1. reflexivity.
Qed.

Lemma release_batches_flat (fuel : nat) (repos : list repo)
    (lastReleases : gmap string release_id) (s : settings) (i : nat) (acc : progress) :
  (length repos - i <= fuel)%nat ->
  batches fetchGitHub fetchGitLab encodeURIComponent fuel repos lastReleases s i acc
  = Some (Returned
      (fold_left record_result
         (map (fun r => settled (check r lastReleases s)) (drop i repos)) acc)).
Proof.
  revert i acc. induction fuel as [|fuel IH]; intros i acc Hfuel.
  - simpl. destruct (Nat.ltb_spec i (length repos)); [lia|].
    rewrite drop_ge by lia. reflexivity.
  - simpl. destruct (Nat.ltb_spec i (length repos)).
    + rewrite release_all_settled. rewrite IH by (unfold batchSize; lia).
      rewrite <- fold_left_app, <- map_app.
      unfold JS.slice. replace (i + batchSize - i)%nat with batchSize by lia.
      rewrite <- drop_drop, take_drop. reflexivity.
    + rewrite drop_ge by lia. reflexivity.
Qed.

Lemma release_fold_other (lastReleases : gmap string release_id) (s : settings)
    (rs : list repo) (acc : progress) (k : string) :
  k ∉ map key_of rs ->
  updatedLastReleases
    (fold_left record_result (map (fun r => settled (check r lastReleases s)) rs) acc) !! k
  = updatedLastReleases acc !! k.
Proof.
  revert acc. induction rs as [|r rs IH]; intros acc Hk; [reflexivity|].
  simpl in *. apply not_elem_of_cons in Hk as [Hr Hrs].
  rewrite IH by exact Hrs.
  destruct (settled (check r lastReleases s)) as [x|] eqn:Hx; [|reflexivity].
  pose proof (release_check_settled r lastReleases s) as Hc. rewrite Hx in Hc.
  apply release_check_key in Hc as (Hkey & _ & _).
  simpl. rewrite Hkey, key_of_truthy. apply lookup_insert_ne. congruence.
Qed.

Lemma release_fold_stores (lastReleases : gmap string release_id) (s : settings)
    (rs : list repo) (acc : progress) (r : repo) (x : result) :
  NoDup (map key_of rs) -> r ∈ rs ->
  check r lastReleases s = Returned (Some x) ->
  updatedLastReleases
    (fold_left record_result (map (fun r => settled (check r lastReleases s)) rs) acc)
    !! key_of r
  = Some (id (rel_release x)).
Proof.
  intros Hnodup Hin Hres.
  apply list_elem_of_split in Hin as (before & after & ->).
  rewrite map_app in Hnodup. simpl in Hnodup.
  apply NoDup_app in Hnodup as (_ & _ & Hafter).
  apply NoDup_cons in Hafter as [Hafter _].
  rewrite map_app, fold_left_app. simpl.
  rewrite release_fold_other by exact Hafter.
  rewrite Hres. simpl.
  destruct (release_check_key _ _ _ _ Hres) as (-> & _ & _).
  rewrite key_of_truthy. apply lookup_insert_eq.
Qed.

Lemma release_fold_new (lastReleases : gmap string release_id) (s : settings)
    (rs : list repo) (acc : progress) :
  newReleases
    (fold_left record_result (map (fun r => settled (check r lastReleases s)) rs) acc)
  = newReleases acc ++
    filter (fun x => rel_isNew x = true)
           (omap (fun r => settled (check r lastReleases s)) rs).
Proof.
  revert acc. induction rs as [|r rs IH]; intros acc; simpl.
  - rewrite app_nil_r. reflexivity.
  - rewrite IH. destruct (settled (check r lastReleases s)) as [x|]; simpl;
      [|reflexivity].
    rewrite filter_cons. destruct (rel_isNew x) eqn:Hx.
    + rewrite decide_True by reflexivity. rewrite <- app_assoc. reflexivity.
    + rewrite decide_False by discriminate. reflexivity.
Qed.

(** A sweep that passes its gate stores what the checks of all
    repositories gave. *)
Lemma release_sweep_runs (fuel : nat) (repos : list repo) (st : storage) :
  notificationsEnabled (st_settings (monitor st)) = true ->
  releaseNotificationsEnabled (st_settings (monitor st)) = true ->
  (length repos <= fuel)%nat ->
  let known := default ∅ (lastReleases st) in
  let done :=
    fold_left record_result
      (map (fun r => settled (check r known (st_settings (monitor st)))) repos)
      {| newReleases := []; updatedLastReleases := known |} in
  sweep fuel (Returned repos) st = Some (finish st done, newReleases done).
Proof.
  intros Hon Hrel Hfuel. unfold checkAllRepositoriesForReleases.
  rewrite Hon, Hrel. simpl. rewrite release_batches_flat by lia. reflexivity.
Qed.

(** X25. A GitHub repository without a release is watched by its latest
    tag: when the request for the latest release throws, is not [ok], or
    carries [null] or a body that cannot be read, the check goes by the
    first tag listed, under the sha of its commit; a first observation of
    it is not new, and a later one is new exactly when the sha is not the
    last known id. *)
Theorem tag_stands_in_for_release (r : repo) (lastReleases : gmap string release_id)
    (s : settings) (response : reply body) (t : github_tag) (rest : list github_tag) :
  is_gitlab r = false -> disabled s r = false ->
  (forall resp,
     fetchGitHub ("/repos/" +:+ full_name r +:+ "/releases/latest") = Returned resp ->
     reply_ok resp = true ->
     reply_json resp = Returned Null \/ exists e, reply_json resp = Threw e) ->
  fetchGitHub ("/repos/" +:+ full_name r +:+ "/tags?per_page=1") = Returned response ->
  reply_ok response = true -> reply_json response = Returned (Tags (t :: rest)) ->
  exists found,
    id found = Str (tag_commit_sha t) /\ tag_name found = Some (tag t) /\
    isTag found = true /\
    let report isNew :=
      Returned (Some {| rel_repo := r; rel_release := found;
                        rel_isNew := isNew; rel_repoKey := key_of r |}) in
    check r lastReleases s
    = match last_known_id lastReleases r with
      | Some last =>
          if truthy_id last
          then if String.eqb (tag_commit_sha t) (String_of (Some last))
               then Returned None else report true
          else report false
      | None => report false
      end.
Proof.
  intros Hgh Hen Hnone Htags Hok Hjson.
  assert (Hrel : fetchLatestRelease r = Returned None).
  { unfold Releases.fetchLatestRelease, fetchLatestGitHubRelease. rewrite Hgh.
    destruct (fetchGitHub ("/repos/" +:+ full_name r +:+ "/releases/latest"))
      as [resp|e] eqn:Hfetch; simpl; [|reflexivity].
    destruct (reply_ok resp) eqn:Hrok; simpl.
    - destruct (Hnone resp eq_refl Hrok) as [-> | [e ->]]; reflexivity.
    - destruct (reply_status resp =? 404); reflexivity. }
  assert (Htag : exists found,
            id found = Str (tag_commit_sha t) /\ tag_name found = Some (tag t) /\
            isTag found = true /\ fetchLatestTag r = Returned (Some found)).
  { unfold Releases.fetchLatestTag, fetchLatestGitHubTag. rewrite Hgh, Htags. simpl.
    rewrite Hok. simpl. rewrite Hjson. simpl.
    refine (ex_intro _ _ (conj _ (conj _ (conj _ eq_refl)))); reflexivity. }
  destruct Htag as (found & Hid & Hname & Htagged & Htag).
  exists found. split; [exact Hid|]. split; [exact Hname|]. split; [exact Htagged|].
  cbv zeta. rewrite release_check_unfold, Hen, Hrel, Htag. cbv zeta.
  destruct (last_known_id lastReleases r) as [last|]; simpl; [|reflexivity].
  destruct (truthy_id last); simpl; [|reflexivity].
  rewrite Hid. simpl. destruct (String.eqb _ _); reflexivity.
Qed.

(** X26. A release is reported once: after a sweep has stored the id of
    a result, the check of that repository reports nothing as long as the
    latest release is the same, whatever the settings are by then. *)
Theorem a_release_is_reported_once (fuel : nat) (repos : list repo) (st : storage)
    (r : repo) (x : result) (s' : settings) :
  notificationsEnabled (st_settings (monitor st)) = true ->
  releaseNotificationsEnabled (st_settings (monitor st)) = true ->
  NoDup (map key_of repos) -> (length repos <= fuel)%nat -> r ∈ repos ->
  check r (default ∅ (lastReleases st)) (st_settings (monitor st)) = Returned (Some x) ->
  truthy_id (id (rel_release x)) = true ->
  exists st1 sent,
    sweep fuel (Returned repos) st = Some (st1, sent) /\
    check r (default ∅ (lastReleases st1)) s' = Returned None.
Proof.
  intros Hon Hrel Hnodup Hfuel Hin Hres Htruthy.
  eexists _, _. split; [apply (release_sweep_runs fuel repos st Hon Hrel Hfuel)|].
  simpl. rewrite release_check_unfold.
  destruct (disabled s' r); [reflexivity|].
  destruct (release_check_key _ _ _ _ Hres) as (_ & _ & ->). cbv zeta.
  unfold last_known_id, JS.or_else.
  rewrite (release_fold_stores _ _ _ _ r x Hnodup Hin Hres). simpl.
  rewrite Htruthy. simpl. rewrite Htruthy. simpl.
  rewrite String.eqb_refl. reflexivity.
Qed.

(** X27. The release sweep keeps to itself: of the storage of the
    commit sweep it changes the unread count alone, by the number of
    notifications it sent, and when the directory throws it leaves the
    whole storage as it was, recording no error. *)
Theorem release_sweep_keeps_to_itself (fuel : nat) (getRepositories : outcome (list repo))
    (st : storage) :
  (forall repos, getRepositories = Returned repos -> (length repos <= fuel)%nat) ->
  exists st' sent,
    sweep fuel getRepositories st = Some (st', sent) /\
    monitor st'
    = (if decide (sent = []) then monitor st
       else Badge.with_unreadCount (monitor st)
              (default 0 (st_unreadCount (monitor st)) + Z.of_nat (length sent))) /\
    (forall e, getRepositories = Threw e -> st' = st).
Proof.
  intros Hfuel. unfold checkAllRepositoriesForReleases.
  destruct (negb _ || negb _).
  { exists st, []. split; [reflexivity|]. split; [reflexivity | auto]. }
  destruct getRepositories as [repos|e].
  - rewrite release_batches_flat by (specialize (Hfuel repos eq_refl); lia).
    eexists _, _. split; [reflexivity|]. split; [|discriminate].
    simpl. destruct (newReleases _) as [|y ys]; reflexivity.
  - exists st, []. split; [reflexivity|]. split; [reflexivity | auto].
Qed.

(** With nothing known every sweep is silent. *)
Lemma release_sweep_from_nothing (fuel : nat) (getRepositories : outcome (list repo))
    (st : storage) :
  default ∅ (lastReleases st) = ∅ ->
  (forall repos, getRepositories = Returned repos -> (length repos <= fuel)%nat) ->
  exists st', sweep fuel getRepositories st = Some (st', []).
Proof.
  intros Hnone Hfuel. unfold checkAllRepositoriesForReleases.
  destruct (negb _ || negb _); [eauto|].
  destruct getRepositories as [repos|e]; [|eauto].
  rewrite release_batches_flat by (specialize (Hfuel repos eq_refl); lia).
  eexists. f_equal. f_equal. rewrite release_fold_new. simpl.
  apply filter_none_in. intros x Hx.
  apply list_elem_of_omap in Hx as (r & _ & Hr).
  pose proof (release_check_settled r (default ∅ (lastReleases st))
                (st_settings (monitor st))) as Hc.
  rewrite Hr in Hc.
  apply first_release_is_not_new in Hc; [rewrite Hc; discriminate|].
  rewrite Hnone. reflexivity.
Qed.


End ReleaseFacts.

(** * Properties of logging out *)

Section HandlerFacts.
Import Monitoring.

Variable fetchGitHub : string -> outcome response.
Variable fetchGitLab : string -> outcome response.
Variable encodeURIComponent : string -> outcome string.

Local Abbreviation check :=
  (checkRepoForNewCommits fetchGitHub fetchGitLab encodeURIComponent).
Local Abbreviation sweep :=
  (checkAllRepositoriesForCommits fetchGitHub fetchGitLab encodeURIComponent).

(** Without a last known sha nothing is new. *)
Lemma first_commit_is_not_new (r : repo) (lastCommits : gmap string string)
    (s : settings) (u g : option user) (x : result) :
  JS.truthy_opt JS.truthy_string (last_known lastCommits r) = false ->
  check r lastCommits s u g = Returned (Some x) -> isNew x = false.
Proof.
  intros Hfirst. unfold checkRepoForNewCommits.
  destruct (disabled s r); [discriminate|].
  destruct (fetchLatestCommit_returns fetchGitHub fetchGitLab encodeURIComponent
              r (last_known lastCommits r)) as [[[c flag]|] ->]; simpl; [|discriminate].
  destruct flag; [discriminate|]. rewrite Hfirst. simpl. intros [= <-]. reflexivity.
Qed.


(** X30. Logging out of GitLab changes no check of a GitHub repository:
    the last known commits stay, and a check reads the user of the
    platform of its repository alone. *)
Theorem logoutGitLab_spares_github (st : Releases.storage) (r : repo) :
  is_gitlab r = false ->
  let m := Releases.monitor st in
  let m' := Releases.monitor (Handler.logoutGitLab st) in
  check r (default ∅ (st_lastCommits m')) (st_settings m')
        (st_userData m') (st_gitlabUserData m')
  = check r (default ∅ (st_lastCommits m)) (st_settings m)
          (st_userData m) (st_gitlabUserData m).
Proof.
  intros Hgh. simpl. unfold checkRepoForNewCommits. rewrite Hgh. reflexivity.
Qed.

End HandlerFacts.

(** * The further properties on sample data *)

Section MoreWitnesses.
Import Samples MoreSamples.

Lemma request_goes_out_witness :
  (Api.fetchGitHub fallback_parseInt bare_server (Some "ghp_token") sample_now
                   "/user" (Api.initial 5000)).1
  = bare_server (Cache.url_of Api.github "/user") /\
  Api.calls (Api.fetchGitHub fallback_parseInt bare_server (Some "ghp_token") sample_now
                             "/user" (Api.initial 5000)).2
  = ["https://api.github.com/user"].
Proof.
  destruct (request_goes_out fallback_parseInt bare_server "ghp_token" sample_now
              "/user" (Api.initial 5000)) as (Hout & Hcalls & _).
  - reflexivity.
  - left. intros rem [= <-]. lia.
  - split; [exact Hout | exact Hcalls].
Defined.

Lemma missing_reset_header_lifts_the_limit_witness :
  exists st',
    Api.fetchApi fallback_parseInt drained_server Api.github (Some "ghp_token") sample_now
                 "/user" (Api.initial 5000) = (Returned drained_response, st') /\
    Api.rateLimitRemaining st' = Some 0 /\
    Api.rateLimitReset st' = Some 0 /\
    Api.calls (Api.fetchApi fallback_parseInt drained_server Api.github (Some "ghp_token")
                            sample_now "/user/repos" st').2
    = Api.calls st' ++ ["https://api.github.com/user/repos"].
Proof.
  eexists. split; [reflexivity|]. split; [reflexivity|].
  apply (missing_reset_header_lifts_the_limit fallback_parseInt drained_server Api.github
           "ghp_token" sample_now sample_now "/user" "/user/repos"
           (Api.initial 5000) _ drained_response); reflexivity.
Defined.

Lemma refreshed_entry_is_served_witness :
  exists store',
    Cache.fetchGitHubCached sample_github "/repos/octo/app/commits/77ab10" "head"
                            Cache.default_maxAge sample_now sample_now ∅
    = (Returned (OneCommit refactor_commit), store',
       ["/repos/octo/app/commits/77ab10"]) /\
    Cache.fetchGitHubCached sample_github "/repos/octo/broken" "head"
                            Cache.default_maxAge (sample_now + 299999) (sample_now + 299999)
                            store'
    = (Returned (OneCommit refactor_commit), store', []).
Proof.
  destruct (refreshed_entry_is_served sample_github "/repos/octo/app/commits/77ab10" "head"
              Cache.default_maxAge sample_now sample_now ∅
              (sample_response (OneCommit refactor_commit)) (OneCommit refactor_commit))
    as (store' & Hfirst & Hnext).
  - intros entry Hin. rewrite lookup_empty in Hin. discriminate.
  - reflexivity.
  - reflexivity.
  - reflexivity.
  - exists store'. split; [exact Hfirst|]. apply Hnext. vm_compute. reflexivity.
Defined.

Lemma failed_refresh_keeps_the_cache_witness :
  let store : gmap string Cache.cached :=
    {[ "head" := {| Cache.data := OneCommit refactor_commit;
                    Cache.timestamp := 1699999000000%N |} ]} in
  exists e,
    Cache.fetchGitHubCached sample_github "/repos/octo/broken/commits/77ab10" "head"
                            Cache.default_maxAge sample_now sample_now store
    = (Threw e, store, ["/repos/octo/broken/commits/77ab10"]).
Proof.
  intros store.
  apply (failed_refresh_keeps_the_cache sample_github "/repos/octo/broken/commits/77ab10"
           "head" Cache.default_maxAge sample_now sample_now store).
  - intros entry Hin. unfold store in Hin. rewrite lookup_singleton_eq in Hin.
    injection Hin as <-. vm_compute. discriminate.
  - intros resp d Hfetch. vm_compute in Hfetch. discriminate.
Defined.

Lemma fetched_repositories_are_tagged_witness :
  Forall (fun r => platform r = Some "github" /\
                   (ignoreForks sample_settings = true -> fork r = false))
         [sample_repo].
Proof.
  apply (fetched_repositories_are_tagged one_page sample_gitlab 50 sample_settings
           [sample_repo] (map Repositories.repos_endpoint [1; 2]%nat)).
  vm_compute. reflexivity.
Defined.

Lemma all_pages_are_gathered_witness :
  Repositories.fetchUserRepositories one_page 50 sample_settings
  = Some (Returned [sample_repo], map Repositories.repos_endpoint [1; 2]%nat).
Proof.
  apply (all_pages_are_gathered one_page first_of_pages 2 50 sample_settings).
  - lia.
  - lia.
  - intros i Hi. assert (i = 1 \/ i = 2)%nat as [-> | ->] by lia;
      eexists; (split; [reflexivity|]); split; reflexivity.
  - intros i Hi. assert (i = 1)%nat as -> by lia. discriminate.
  - left. reflexivity.
Defined.

Lemma a_failed_page_fails_the_listing_witness :
  exists e,
    Repositories.fetchUserRepositories second_page_fails 50 sample_settings
    = Some (Threw e, map Repositories.repos_endpoint [1; 2]%nat).
Proof.
  apply (a_failed_page_fails_the_listing second_page_fails first_of_pages 2 50
           sample_settings).
  - lia.
  - lia.
  - intros i Hi. assert (i = 1)%nat as -> by lia.
    split; [|discriminate]. eexists. split; [reflexivity|]. split; reflexivity.
  - intros resp Hfetch. vm_compute in Hfetch. discriminate.
Defined.

Lemma refreshed_list_is_served_for_an_hour_witness :
  exists l',
    Directory.getGitHubRepositories one_page 50 sample_settings sample_now sample_now
                                    empty_listing
    = Some (Returned [sample_repo], l', map Repositories.repos_endpoint [1; 2]%nat) /\
    Directory.getGitHubRepositories one_page 0 sample_settings
                                    (sample_now + 3600000) (sample_now + 3600000) l'
    = Some (Returned [sample_repo], l', []).
Proof.
  eexists. split; [vm_compute; reflexivity|].
  eapply (refreshed_list_is_served_for_an_hour one_page 50 sample_settings
            sample_now sample_now empty_listing).
  - reflexivity.
  - vm_compute. reflexivity.
  - vm_compute. discriminate.
Defined.

Lemma getRepositories_never_fails_witness :
  (exists rs gh gl,
     Directory.getRepositories one_page sample_gitlab 50 sample_settings
       (Some "ghp_token") None (sample_now, sample_now) (sample_now, sample_now)
       empty_listing empty_listing
     = Some (rs, gh, gl) /\
     rs = Directory.part gh ++ Directory.part gl /\
     Directory.part gl = [] /\ Directory.asked gl = [] /\
     Directory.listing_left gl = empty_listing) /\
  (exists rs gh gl,
     Directory.getRepositories one_page sample_gitlab 50 sample_settings
       (Some "ghp_token") (Some "glpat_token")
       (sample_now, sample_now) (sample_now, sample_now)
       empty_listing empty_listing
     = Some (rs, gh, gl) /\
     Directory.part gl = [] /\ rs = Directory.part gh /\
     Directory.listing_left gl = empty_listing /\
     Directory.asked gl = [Repositories.projects_endpoint 1]).
Proof.
  split.
  - destruct (getRepositories_never_fails one_page sample_gitlab 50 sample_settings
                (Some "ghp_token") None (sample_now, sample_now) (sample_now, sample_now)
                empty_listing empty_listing)
      as (rs & gh & gl & Hrun & Hrs & _ & _ & Hgl & _); [lia|].
    exists rs, gh, gl. split; [exact Hrun|]. split; [exact Hrs|].
    apply Hgl. reflexivity.
  - destruct (getRepositories_never_fails one_page sample_gitlab 50 sample_settings
                (Some "ghp_token") (Some "glpat_token")
                (sample_now, sample_now) (sample_now, sample_now)
                empty_listing empty_listing)
      as (rs & gh & gl & Hrun & _ & _ & _ & _ & _ & Hthrows); [lia|].
    exists rs, gh, gl. split; [exact Hrun|].
    apply (Hthrows NotAuthenticated empty_listing [Repositories.projects_endpoint 1]);
      [reflexivity|].
    vm_compute. reflexivity.
Defined.

Lemma a_commit_is_reported_once_witness :
  exists st1 sent,
    Monitoring.checkAllRepositoriesForCommits sample_github sample_gitlab sample_encode
      10 (Returned sample_repos) sample_now sample_storage = Some (st1, sent) /\
    Monitoring.checkRepoForNewCommits sample_github sample_gitlab sample_encode
      (github_repo "octo/api") (default ∅ (Monitoring.st_lastCommits st1))
      sample_settings (Some hubot) None = Returned None.
Proof.
  apply (a_commit_is_reported_once sample_github sample_gitlab sample_encode
           10 sample_repos sample_now sample_storage (github_repo "octo/api")
           {| Monitoring.res_repo := github_repo "octo/api";
              Monitoring.res_commit := refactor_commit;
              Monitoring.isNew := false;
              Monitoring.res_priority := None;
              Monitoring.repoKey := "github:octo/api" |}).
  - reflexivity.
  - left. eexists. reflexivity.
  - exact sample_keys_differ.
  - vm_compute. lia.
  - apply list_elem_of_In. simpl. tauto.
  - exact sample_answers_typed.
  - vm_compute. reflexivity.
  - discriminate.
Defined.

Lemma what_a_sweep_leaves_witness :
  exists st' sent m,
    Monitoring.checkAllRepositoriesForCommits sample_github sample_gitlab sample_encode
      10 (Returned sample_repos) sample_now hubot_storage = Some (st', sent) /\
    length sent = 1%nat /\
    Monitoring.st_unreadCount st' = Some 3 /\
    Monitoring.st_lastCheckTime st' = Some sample_now /\
    Monitoring.st_lastCommits st' = Some m /\
    m !! "github:octo/broken" = None.
Proof.
  destruct (what_a_sweep_leaves sample_github sample_gitlab sample_encode
              10 sample_repos sample_now hubot_storage)
    as (st' & sent & m & Hrun & Hsent & Hunread & Htime & Hm & Hframe).
  - reflexivity.
  - left. eexists. reflexivity.
  - vm_compute. lia.
  - exact sample_answers_typed.
  - exists st', sent, m. split; [exact Hrun|].
    assert (Hone : length sent = 1%nat) by (rewrite Hsent; vm_compute; reflexivity).
    split; [exact Hone|]. split.
    + rewrite Hunread. destruct (decide (sent = [])) as [Hnil|_].
      * rewrite Hnil in Hone. discriminate.
      * rewrite Hone. reflexivity.
    + split; [exact Htime|]. split; [exact Hm|].
      rewrite (Hframe "github:octo/broken"); [reflexivity|].
      intros r Hr Hkey.
      apply list_elem_of_In in Hr. simpl in Hr.
      repeat (destruct Hr as [<-|Hr]; [try (vm_compute in Hkey; discriminate);
                                       vm_compute; reflexivity|]).
      contradiction.
Defined.

Lemma another_commit_is_new_witness :
  Monitoring.checkRepoForNewCommits sample_github sample_gitlab sample_encode
    (github_repo "octo/app") {[ "github:octo/app" := "000000" ]}
    sample_settings (Some hubot) None
  = Returned (Some {| Monitoring.res_repo := github_repo "octo/app";
                      Monitoring.res_commit := refactor_commit;
                      Monitoring.isNew := true;
                      Monitoring.res_priority := Some medium;
                      Monitoring.repoKey := "github:octo/app" |}).
Proof.
  apply (another_commit_is_new sample_github sample_gitlab sample_encode
           (github_repo "octo/app") {[ "github:octo/app" := "000000" ]}
           sample_settings (Some hubot) None
           (Monitoring.as_fetched refactor_commit) "000000").
  - reflexivity.
  - vm_compute. reflexivity.
  - discriminate.
  - vm_compute. reflexivity.
  - discriminate.
  - right. vm_compute. reflexivity.
Defined.

Lemma gitlab_commit_without_diff_witness :
  Monitoring.fetchLatestCommit sample_github gitlab_without_diff sample_encode
    (gitlab_repo "octo/app") None
  = Returned (Some (Monitoring.as_fetched (Detector.without_diff gitlab_head))) /\
  CommitAnalysis.classifyCommitPriority (Detector.without_diff gitlab_head)
    (gitlab_repo "octo/app") None = low.
Proof.
  destruct (gitlab_commit_without_diff sample_github gitlab_without_diff sample_encode
              (gitlab_repo "octo/app") None "octo/app"
              (sample_response (GitLabCommits [gitlab_head])) gitlab_head [] None)
    as [Hfetch Hprio].
  - reflexivity.
  - reflexivity.
  - vm_compute. reflexivity.
  - reflexivity.
  - reflexivity.
  - reflexivity.
  - intros diffResponse Hdiff. vm_compute in Hdiff.
    injection Hdiff as <-. discriminate.
  - split; [exact Hfetch|]. rewrite Hprio; [vm_compute; reflexivity | simpl; lia].
Defined.

Lemma truncate_fits_witness :
  Z.of_nat (length (Utils.truncate ellipsis long_name 40)) <= 40 /\
  take 39 (Utils.truncate ellipsis long_name 40) = take 39 long_name /\
  Utils.truncate ellipsis long_name 40 <> long_name.
Proof.
  destruct (truncate_fits ellipsis long_name 40) as (Hlen & Hsame & Hiff); [lia|].
  split; [exact Hlen|]. split; [exact Hsame|].
  intros Heq. apply Hiff in Heq. vm_compute in Heq. apply Heq. reflexivity.
Defined.

Lemma backlog_is_sent_next_witness :
  let before := Inbox.checkGitHubNotifications inbox_server (Some ["2"]) in
  let after := Inbox.checkGitHubNotifications inbox_server before.1 in
  map Inbox.id (before.2 ++ after.2) = ["1"; "4"; "5"; "6"; "7"; "8"].
Proof.
  cbv zeta.
  rewrite (backlog_is_sent_next inbox_server (Some ["2"])
             {| reply_ok := true; reply_status := 200; reply_json := Returned sample_inbox |}
             sample_inbox).
  - vm_compute. reflexivity.
  - reflexivity.
  - reflexivity.
  - reflexivity.
  - apply (bool_decide_unpack _). vm_compute. exact I.
  - vm_compute. lia.
Defined.

Lemma tag_stands_in_for_release_witness :
  exists x,
    Releases.checkRepoForNewReleases release_github release_gitlab sample_encode
      (github_repo "octo/app") {[ "github:octo/app" := Releases.Str "0000" ]}
      sample_settings = Returned (Some x) /\
    Releases.rel_isNew x = true /\
    Releases.id (Releases.rel_release x) = Releases.Str "9a8b7c6d" /\
    Releases.isTag (Releases.rel_release x) = true.
Proof.
  destruct (tag_stands_in_for_release release_github release_gitlab sample_encode
              (github_repo "octo/app") {[ "github:octo/app" := Releases.Str "0000" ]}
              sample_settings
              {| reply_ok := true; reply_status := 200;
                 reply_json := Returned (Releases.Tags [sample_tag]) |}
              sample_tag [])
    as (found & Hid & _ & Htag & Hcheck).
  - reflexivity.
  - reflexivity.
  - intros resp Hfetch. vm_compute in Hfetch. injection Hfetch as <-. discriminate.
  - reflexivity.
  - reflexivity.
  - reflexivity.
  - cbv zeta in Hcheck.
    assert (Hlast : Releases.last_known_id {[ "github:octo/app" := Releases.Str "0000" ]}
                      (github_repo "octo/app") = Some (Releases.Str "0000"))
      by (vm_compute; reflexivity).
    rewrite Hlast in Hcheck. simpl in Hcheck.
    eexists. split; [exact Hcheck|]. simpl. auto.
Defined.

Lemma a_release_is_reported_once_witness :
  exists st1 sent,
    Releases.checkAllRepositoriesForReleases release_github release_gitlab sample_encode
      10 (Returned sample_repos) release_storage = Some (st1, sent) /\
    Releases.checkRepoForNewReleases release_github release_gitlab sample_encode
      (github_repo "octo/api") (default ∅ (Releases.lastReleases st1)) sample_settings
    = Returned None.
Proof.
  apply (a_release_is_reported_once release_github release_gitlab sample_encode
           10 sample_repos release_storage (github_repo "octo/api")
           {| Releases.rel_repo := github_repo "octo/api";
              Releases.rel_release := sample_release;
              Releases.rel_isNew := false;
              Releases.rel_repoKey := "github:octo/api" |}).
  - reflexivity.
  - reflexivity.
  - exact sample_keys_differ.
  - vm_compute. lia.
  - apply list_elem_of_In. simpl. tauto.
  - vm_compute. reflexivity.
  - reflexivity.
Defined.

Lemma release_sweep_keeps_to_itself_witness :
  exists st' sent,
    Releases.checkAllRepositoriesForReleases release_github release_gitlab sample_encode
      10 (Returned sample_repos) release_storage = Some (st', sent) /\
    length sent = 1%nat /\
    Monitoring.st_unreadCount (Releases.monitor st') = Some 1 /\
    Monitoring.st_lastCommits (Releases.monitor st')
    = Monitoring.st_lastCommits sample_storage.
Proof.
  destruct (release_sweep_keeps_to_itself release_github release_gitlab sample_encode
              10 (Returned sample_repos) release_storage)
    as (st' & sent & Hrun & Hmonitor & _).
  - intros repos [= <-]. vm_compute. lia.
  - exists st', sent. split; [exact Hrun|].
    assert (Hsent : length sent = 1%nat).
    { assert (Hsome : Some (length sent) = Some 1%nat); [|congruence].
      change (Some (length sent)) with (option_map (fun p => length p.2) (Some (st', sent))).
      rewrite <- Hrun. vm_compute. reflexivity. }
    split; [exact Hsent|]. rewrite Hmonitor.
    destruct (decide (sent = [])) as [Hnil|_]; [rewrite Hnil in Hsent; discriminate|].
    rewrite Hsent. split; reflexivity.
Defined.



Lemma logoutGitLab_spares_github_witness :
  let m := Releases.monitor both_storage in
  let m' := Releases.monitor (Handler.logoutGitLab both_storage) in
  Monitoring.st_gitlabUserData m' = None /\
  Monitoring.checkRepoForNewCommits sample_github gitlab_without_diff sample_encode
    (github_repo "octo/app") (default ∅ (Monitoring.st_lastCommits m'))
    (Monitoring.st_settings m') (Monitoring.st_userData m') (Monitoring.st_gitlabUserData m')
  = Monitoring.checkRepoForNewCommits sample_github gitlab_without_diff sample_encode
      (github_repo "octo/app") (default ∅ (Monitoring.st_lastCommits m))
      (Monitoring.st_settings m) (Monitoring.st_userData m) (Monitoring.st_gitlabUserData m).
Proof.
  split; [reflexivity|].
  apply (logoutGitLab_spares_github sample_github gitlab_without_diff sample_encode
           both_storage (github_repo "octo/app")).
  reflexivity.
Defined.

End MoreWitnesses.
